(** * DocManFu processing pipeline: a shallow embedding of the job
    lifecycle ([app/tasks/base.py]), event publishing
    ([app/core/events.py]), document-type normalisation
    ([app/core/ai_provider.py]), the OCR and AI stages and the batch
    controller ([app/tasks/ocr.py], [app/tasks/ai_analysis.py],
    [app/tasks/batch_reprocess.py]).

    Effects are modelled with a state monad carrying
    - a [script] of answers from the outside world (Redis, the database,
      the OCR subprocess, the AI provider), consumed one per external call;
      every list of answers is a possible environment, including faults;
    - a [trace] of the observable effects of the code (Redis commands,
      [publish_event] calls, log lines, database writes, subprocess
      actions), in chronological order; a collaborator call is recorded
      once it has succeeded;
    - the mutable [stats] dict of a batch run, and the processing-job row
      with a clock for [datetime.now]. *)

From Stdlib Require Import String Ascii List ZArith Bool Lia.
Import ListNotations.
Open Scope string_scope.

(* ------------------------------------------------------------------ *)
(** ** Python string helpers (ASCII) *)

(** Characters removed by [str.strip()] (the ASCII ones of [str.isspace]). *)
Definition py_is_space (c : ascii) : bool :=
  let n := nat_of_ascii c in
  Nat.eqb n 32 || (Nat.leb 9 n && Nat.leb n 13)
  || (Nat.leb 28 n && Nat.leb n 31).

Fixpoint lstrip (s : string) : string :=
  match s with
  | EmptyString => EmptyString
  | String c r => if py_is_space c then lstrip r else s
  end.

Definition rev_string (s : string) : string :=
  string_of_list_ascii (rev (list_ascii_of_string s)).

(** [str.strip()] *)
Definition py_strip (s : string) : string :=
  rev_string (lstrip (rev_string (lstrip s))).

Definition ascii_lower (c : ascii) : ascii :=
  let n := nat_of_ascii c in
  if Nat.leb 65 n && Nat.leb n 90 then ascii_of_nat (n + 32) else c.

(** [str.lower()] *)
Fixpoint py_lower (s : string) : string :=
  match s with
  | EmptyString => EmptyString
  | String c r => String (ascii_lower c) (py_lower r)
  end.

Fixpoint is_prefix (p s : string) : bool :=
  match p, s with
  | EmptyString, _ => true
  | String c p', String d s' => Ascii.eqb c d && is_prefix p' s'
  | String _ _, EmptyString => false
  end.

(** Python's [p in s] for strings. *)
Fixpoint py_contains (s p : string) : bool :=
  is_prefix p s ||
  match s with
  | EmptyString => false
  | String _ s' => py_contains s' p
  end.

(** Python's ["sep".join(l)]. *)
Fixpoint py_join (sep : string) (l : list string) : string :=
  match l with
  | [] => ""
  | [x] => x
  | x :: r => x ++ sep ++ py_join sep r
  end.

Definition str_in (s : string) (l : list string) : bool :=
  existsb (String.eqb s) l.

(* ------------------------------------------------------------------ *)
(** ** Exceptions, answers of the environment, effects *)

(** Exceptions raised by collaborators (all subclasses of [Exception]). *)
Inductive ext_exn :=
| ConnectionError          (** redis / network failure *)
| SerializationError       (** [TypeError] from [json.dumps] *)
| DatabaseError            (** SQLAlchemy errors *)
| ValueError (msg : string)
| OSError
| PriorOcrFoundError
| EncryptedPdfError
| InputFileError.

(** Exceptions of the modelled code: [_SkipDocument], [RuntimeError] raised
    by [_run_ai_analysis], or one propagated from a collaborator. *)
Inductive exn :=
| SkipDocument
| RuntimeError (msg : string)
| Ext (e : ext_exn).

(** [AIAnalysisResult] *)
Record ai_result := mkAIResult {
  suggested_name : string;
  res_document_type : string;
  suggested_tags : list string;
  meta_due_date : option string;   (** [extracted_metadata.get("due_date")] *)
}.

(** What the outside world answers to one external call. An answer that
    does not fit the call is read as that call's default (see each
    primitive). *)
Inductive answer :=
| ADefault
| AStr (s : string)
| APages (l : list string)      (** page texts read by [fitz] *)
| ARunning                      (** [proc.poll()] returns [None] *)
| AExit (code : Z)              (** [proc.poll()] returns a return code *)
| AResult (r : ai_result)
| AFail (e : ext_exn).

(** Status strings of batch events (the f-strings of the source). *)
Inductive status_msg :=
| SDefault                               (** [""] *)
| SStarting (total : nat)
| SPausedAt (processed total : nat)
| SProcessingDoc (name : string)
| SProcessingCount (processed total : nat)
| SCancelledAfter (processed total : nat)
| SBlocked
| SCompleted.

Inductive err_msg :=
| ErrBlocked (existing : string)
| ErrFileNotFound
| ErrExn (e : exn).

Record batch_stats := mkStats {
  processed : nat;
  succeeded : nat;
  failed : nat;
  skipped : nat;
  errors : list (string * err_msg);
}.

Definition stats0 : batch_stats := mkStats 0 0 0 0 [].

Inductive job_status := Jpending | Jprocessing | Jcompleted | Jfailed.

Definition job_status_eqb (a b : job_status) : bool :=
  match a, b with
  | Jpending, Jpending | Jprocessing, Jprocessing
  | Jcompleted, Jcompleted | Jfailed, Jfailed => true
  | _, _ => false
  end.

(** The [ProcessingJob] row. Timestamps are ticks of the model clock. *)
Record processing_job := mkJob {
  job_status_of : job_status;
  progress : Z;
  error_message : option string;
  started_at : option nat;
  completed_at : option nat;
}.

(** The stored file at [UPLOAD_DIR / file_path]: the embedded text layer
    of each page, as [page.get_text()] returns it. *)
Record stored_file := mkFile { embedded_text : list string }.

(** The [Document] row as the stages use it; [""] stands for [None] in the
    optional string columns. [on_disk] is the file at its path, if any. *)
Record document := mkDoc {
  doc_id : string;
  original_name : string;
  filename : string;
  mime_type : string;
  content_text : string;
  ai_generated_name : string;
  document_type : string;
  bill_status : option string;
  bill_due_date : option string;
  on_disk : option stored_file;
}.

Definition set_content_text (d : document) (t : string) : document :=
  mkDoc (doc_id d) (original_name d) (filename d) (mime_type d) t
    (ai_generated_name d) (document_type d) (bill_status d) (bill_due_date d)
    (on_disk d).

Definition set_bill (d : document) (bs : option string) (due : option string)
  : document :=
  mkDoc (doc_id d) (original_name d) (filename d) (mime_type d)
    (content_text d) (ai_generated_name d) (document_type d) bs due
    (on_disk d).

Definition empty_document : document :=
  mkDoc "" "" "" "" "" "" "" None None None.

(** Payloads of [publish_event]. *)
Inductive event :=
| EvReprocessProgress (task_id user_id : string)
    (current total succ fail skip : nat) (current_document : string)
    (paused : bool) (status : status_msg)
| EvReprocessCancelled (task_id user_id : string) (st : batch_stats)
    (total : nat) (status : status_msg)
| EvReprocessCompleted (task_id user_id : string) (st : batch_stats)
    (total : nat) (status : status_msg)
| EvJob (topic : string) (status : job_status) (progress : Z)
| EvDocumentUpdated (document_id : string).

Definition event_topic (e : event) : string :=
  match e with
  | EvReprocessProgress _ _ _ _ _ _ _ _ _ _ => "reprocess.progress"
  | EvReprocessCancelled _ _ _ _ _ => "reprocess.cancelled"
  | EvReprocessCompleted _ _ _ _ _ => "reprocess.completed"
  | EvJob t _ _ => t
  | EvDocumentUpdated _ => "document.updated"
  end.

Inductive redis_cmd :=
| RGet (key : string)
| RSet (key value : string)
| RDel (keys : list string).

Inductive log_line :=
| LogPublishFailed (topic : string)
| LogOcrSkipped (doc_id : string)
| LogSkippedDocument (doc_id : string)
| LogReprocessError (doc_id : string)
| LogFatal
| LogUnknownDocumentType (raw : string)
| LogJobNotFound
| LogOther.

(** Observable effects, in the order the code issues them. *)
Inductive action :=
| ARedis (c : redis_cmd)             (** control-signal store command *)
| AEmit (ev : event)                 (** [publish_event] is called *)
| APublished (ev : event)            (** the channel accepted the message *)
| ALog (l : log_line)
| ADbQueryDocument (doc_id : string) (** batch lookup of the next document *)
| ADbWrite (what : string)           (** other database reads/writes *)
| AJobCommit (j : processing_job)    (** the job row as committed *)
| AFastRead (doc_id : string)        (** [fitz.open] embedded-text read *)
| ASpawnOcr (doc_id : string)        (** [subprocess.Popen(ocrmypdf ...)] *)
| AKillOcr                           (** [proc.kill()] *)
| AOcrmypdf (doc_id : string)        (** [ocrmypdf.ocr(...)] in process *)
| AExternal (what : string).         (** other collaborator calls *)

(* ------------------------------------------------------------------ *)
(** ** The monad *)

Inductive res (A : Type) :=
| Ret (a : A)
| Raise (e : exn)
| Diverge.
Arguments Ret {A} a.
Arguments Raise {A} e.
Arguments Diverge {A}.

Record st := mkSt {
  script : list answer;
  trace : list action;
  stats : batch_stats;
  job : option processing_job;
  clock : nat;
  cur_doc : document;   (** the ORM object a stage mutates in place *)
}.

Definition M (A : Type) := st -> res A * st.

Definition ret {A} (a : A) : M A := fun s => (Ret a, s).

Definition bind {A B} (m : M A) (k : A -> M B) : M B :=
  fun s =>
    match m s with
    | (Ret a, s') => k a s'
    | (Raise e, s') => (Raise e, s')
    | (Diverge, s') => (Diverge, s')
    end.

Notation "x <- m ;; k" := (bind m (fun x => k))
  (at level 61, m at next level, right associativity).
Notation "m ;; k" := (bind m (fun _ => k))
  (at level 61, right associativity).

Definition raise {A} (e : exn) : M A := fun s => (Raise e, s).

Definition diverge {A} : M A := fun s => (Diverge, s).

(** [try: m except Exception as e: h e] (every modelled exception is an
    [Exception]). *)
Definition try_except {A} (m : M A) (h : exn -> M A) : M A :=
  fun s =>
    match m s with
    | (Raise e, s') => h e s'
    | r => r
    end.

(** [try: m finally: f]: an exception of [f] replaces the outcome of [m]. *)
Definition try_finally {A} (m : M A) (f : M unit) : M A :=
  fun s =>
    match m s with
    | (Diverge, s') => (Diverge, s')
    | (r, s') =>
        match f s' with
        | (Ret _, s'') => (r, s'')
        | (Raise e, s'') => (Raise e, s'')
        | (Diverge, s'') => (Diverge, s'')
        end
    end.

Definition emit (a : action) : M unit :=
  fun s => (Ret tt, mkSt (script s) ((trace s ++ [a])%list) (stats s) (job s) (clock s) (cur_doc s)).

(** The next answer of the environment ([ADefault] once the script is
    exhausted). *)
Definition next : M answer :=
  fun s =>
    match script s with
    | [] => (Ret ADefault, s)
    | a :: r => (Ret a, mkSt r (trace s) (stats s) (job s) (clock s) (cur_doc s))
    end.

Definition get_stats : M batch_stats := fun s => (Ret (stats s), s).

Definition modify_stats (f : batch_stats -> batch_stats) : M unit :=
  fun s => (Ret tt, mkSt (script s) (trace s) (f (stats s)) (job s) (clock s) (cur_doc s)).

Definition get_doc : M document := fun s => (Ret (cur_doc s), s).

Definition set_doc (d : document) : M unit :=
  fun s => (Ret tt, mkSt (script s) (trace s) (stats s) (job s) (clock s) d).

Definition get_job : M (option processing_job) := fun s => (Ret (job s), s).

Definition put_job (j : processing_job) : M unit :=
  fun s => (Ret tt, mkSt (script s) (trace s) (stats s) (Some j) (clock s) (cur_doc s)).

(** [datetime.now(timezone.utc)] *)
Definition now : M nat :=
  fun s => (Ret (clock s),
            mkSt (script s) (trace s) (stats s) (job s) (S (clock s)) (cur_doc s)).

(** The exception an answer makes the collaborator raise. *)
Definition fail_of (a : answer) : option ext_exn :=
  match a with AFail e => Some e | _ => None end.

(** A collaborator call that returns nothing of interest and may raise. *)
Definition ext_call (what : action) : M unit :=
  a <- next ;;
  match fail_of a with
  | Some e => raise (Ext e)
  | None => emit what
  end.

(** A step of a collaborator that is not logged but may raise. *)
Definition ext_step : M unit :=
  a <- next ;;
  match fail_of a with
  | Some e => raise (Ext e)
  | None => ret tt
  end.

(* ------------------------------------------------------------------ *)
(** ** [app/core/events.py] *)

(** [publish_event(event_type, data)]: get a client, [json.dumps],
    [client.publish(CHANNEL, message)], [client.close()]; any [Exception]
    is logged as a warning and discarded. *)
Definition publish_event (ev : event) : M unit :=
  emit (AEmit ev) ;;
  try_except
    (ext_step ;;                 (* client = get_redis_client() *)
     ext_step ;;                 (* message = json.dumps(...) *)
     ext_step ;;                 (* client.publish(CHANNEL, message) *)
     emit (APublished ev) ;;
     ext_step)                   (* client.close() *)
    (fun _ => emit (ALog (LogPublishFailed (event_topic ev)))).

(* ------------------------------------------------------------------ *)
(** ** [_normalize_document_type] ([app/core/ai_provider.py]) *)

Definition _VALID_DOCUMENT_TYPES : list string :=
  ["bill"; "invoice"; "receipt"; "bank_statement"; "insurance"; "medical";
   "tax"; "legal"; "correspondence"; "report"; "other"].

(** The alias dict, in insertion order (the order [.items()] iterates). *)
Definition _DOCUMENT_TYPE_ALIASES : list (string * string) :=
  [("pre-auth letter", "insurance");
   ("pre-auth", "insurance");
   ("preauth", "insurance");
   ("eob", "insurance");
   ("explanation of benefits", "insurance");
   ("claim", "insurance");
   ("coverage", "insurance");
   ("policy", "insurance");
   ("statement", "bank_statement");
   ("contract", "legal");
   ("letter", "correspondence");
   ("newsletter", "correspondence")].

Fixpoint assoc_lookup (k : string) (l : list (string * string)) : option string :=
  match l with
  | [] => None
  | (k', v) :: r => if String.eqb k k' then Some v else assoc_lookup k r
  end.

Fixpoint substring_match (normalized : string) (l : list (string * string))
  : option string :=
  match l with
  | [] => None
  | (alias, valid_type) :: r =>
      if py_contains normalized alias || py_contains alias normalized
      then Some valid_type else substring_match normalized r
  end.

(** The result and whether the "Unknown document_type" warning was logged.
    [None] is a missing (or null / empty) value: [not raw_type]. *)
Definition _normalize_document_type (raw_type : option string)
  : string * bool :=
  match raw_type with
  | None => ("other", false)
  | Some raw =>
      if String.eqb raw "" then ("other", false) else
      let normalized := py_lower (py_strip raw) in
      if str_in normalized _VALID_DOCUMENT_TYPES then (normalized, false) else
      match assoc_lookup normalized _DOCUMENT_TYPE_ALIASES with
      | Some v => (v, false)
      | None =>
          match substring_match normalized _DOCUMENT_TYPE_ALIASES with
          | Some v => (v, false)
          | None => ("other", true)
          end
      end
  end.

(* ------------------------------------------------------------------ *)
(** ** Job lifecycle ([DocManFuTask] in [app/tasks/base.py]) *)

Definition set_job_progress (j : processing_job) (p : Z) : processing_job :=
  mkJob (job_status_of j) p (error_message j) (started_at j) (completed_at j).

Definition set_job_status (j : processing_job) (x : job_status) : processing_job :=
  mkJob x (progress j) (error_message j) (started_at j) (completed_at j).

Definition set_job_started (j : processing_job) (t : option nat) : processing_job :=
  mkJob (job_status_of j) (progress j) (error_message j) t (completed_at j).

Definition set_job_completed (j : processing_job) (t : option nat) : processing_job :=
  mkJob (job_status_of j) (progress j) (error_message j) (started_at j) t.

Definition set_job_error (j : processing_job) (m : string) : processing_job :=
  mkJob (job_status_of j) (progress j) (Some m) (started_at j) (completed_at j).

(** [db.commit()] of the job row. *)
Definition commit_job (j : processing_job) : M unit :=
  put_job j ;; emit (AJobCommit j).

(** [update_job_progress(job_id, progress, status=None)] *)
Definition update_job_progress (p : Z) (status : option job_status) : M unit :=
  oj <- get_job ;;
  match oj with
  | None => emit (ALog LogJobNotFound)
  | Some j =>
      let j1 := set_job_progress j (Z.min p 100) in
      let j2 := match status with Some x => set_job_status j1 x | None => j1 end in
      j3 <- (match status, started_at j2 with
             | Some Jprocessing, None => t <- now ;; ret (set_job_started j2 (Some t))
             | _, _ => ret j2
             end) ;;
      commit_job j3 ;;
      publish_event (EvJob "job.progress"
                       (match status with Some x => x | None => job_status_of j3 end)
                       (Z.min p 100))
  end.

(** [mark_job_started(job_id)] *)
Definition mark_job_started : M unit :=
  oj <- get_job ;;
  match oj with
  | None => ret tt
  | Some j =>
      t <- now ;;
      let j' := set_job_progress (set_job_started (set_job_status j Jprocessing) (Some t)) 0 in
      commit_job j' ;;
      publish_event (EvJob "job.started" Jprocessing 0)
  end.

(** [mark_job_completed(job_id, result_data)] *)
Definition mark_job_completed : M unit :=
  oj <- get_job ;;
  match oj with
  | None => ret tt
  | Some j =>
      t <- now ;;
      let j' := set_job_completed (set_job_progress (set_job_status j Jcompleted) 100) (Some t) in
      commit_job j' ;;
      publish_event (EvJob "job.completed" Jcompleted 100)
  end.

(** [mark_job_failed(job_id, error_message)] *)
Definition mark_job_failed (msg : string) : M unit :=
  oj <- get_job ;;
  match oj with
  | None => ret tt
  | Some j =>
      t <- now ;;
      let j' := set_job_completed (set_job_error (set_job_status j Jfailed) msg) (Some t) in
      commit_job j' ;;
      publish_event (EvJob "job.failed" Jfailed (progress j'))
  end.

Definition exn_str (e : exn) : string :=
  match e with
  | SkipDocument => ""
  | RuntimeError m => m
  | Ext (ValueError m) => m
  | Ext _ => "error"
  end.

(** [on_failure]: called when the task fails after all retries. *)
Definition on_failure (e : exn) : M unit := mark_job_failed (exn_str e).

(** [on_retry]: only the error message is updated. *)
Definition on_retry (e : exn) : M unit :=
  oj <- get_job ;;
  match oj with
  | None => ret tt
  | Some j => commit_job (set_job_error j ("Retrying: " ++ exn_str e))
  end.

(** Celery's [autoretry_for = (Exception,)] with [max_retries]: an attempt
    that raises is retried (after [on_retry]) until the retries are used
    up, then [on_failure] runs and the task ends with the exception. *)
Fixpoint celery_execute (retries : nat) (attempt : M unit) : M unit :=
  try_except attempt
    (fun e =>
       match retries with
       | O => on_failure e ;; raise e
       | S n => on_retry e ;; celery_execute n attempt
       end).

(* ------------------------------------------------------------------ *)
(** ** Collaborators shared by the stages *)

Definition update_search_vector : M unit := ext_call (ADbWrite "update_search_vector").

Definition db_commit : M unit := ext_call (ADbWrite "commit").

Definition nl : string := String (ascii_of_nat 10) EmptyString.

(** [for page in pdf: text = page.get_text(); if text.strip():
    pages.append(text.strip())] *)
Definition fast_read (page_texts : list string) : list string :=
  fold_left (fun acc text =>
               if String.eqb (py_strip text) "" then acc else (acc ++ [py_strip text])%list)
            page_texts [].

Definition digit_of (c : ascii) : option nat :=
  let n := nat_of_ascii c in
  if Nat.leb 48 n && Nat.leb n 57 then Some (n - 48) else None.

Definition is_leap (y : nat) : bool :=
  Nat.eqb (y mod 4) 0 && (negb (Nat.eqb (y mod 100) 0) || Nat.eqb (y mod 400) 0).

Definition days_in_month (y m : nat) : nat :=
  match m with
  | 2 => if is_leap y then 29 else 28
  | 4 | 6 | 9 | 11 => 30
  | _ => 31
  end.

(** [date.fromisoformat] on the calendar-date form [YYYY-MM-DD]; the parsed
    date is kept as its string. *)
Definition fromisoformat (raw : string) : option string :=
  match list_ascii_of_string raw with
  | [y1; y2; y3; y4; s1; m1; m2; s2; d1; d2] =>
      match digit_of y1, digit_of y2, digit_of y3, digit_of y4,
            digit_of m1, digit_of m2, digit_of d1, digit_of d2 with
      | Some a, Some b, Some c, Some e, Some f, Some g, Some h, Some i =>
          let y := a * 1000 + b * 100 + c * 10 + e in
          let m := f * 10 + g in
          let dd := h * 10 + i in
          if Ascii.eqb s1 "-"%char && Ascii.eqb s2 "-"%char && Nat.leb 1 y
             && Nat.leb 1 m && Nat.leb m 12 && Nat.leb 1 dd
             && Nat.leb dd (days_in_month y m)
          then Some raw else None
      | _, _, _, _, _, _, _, _ => None
      end
  | _ => None
  end.

(* ------------------------------------------------------------------ *)
(** ** Applying a classification to the document

    The same code appears in [process_ai_analysis]
    ([app/tasks/ai_analysis.py], lines 141-160) and in [_run_ai_analysis]
    ([app/tasks/batch_reprocess.py], lines 436-452). *)

Definition BILLABLE : list string := ["bill"; "invoice"].

Definition apply_ai_result (d : document) (r : ai_result) : document :=
  let d0 := mkDoc (doc_id d) (original_name d) (filename d) (mime_type d)
              (content_text d) (suggested_name r) (res_document_type r)
              (bill_status d) (bill_due_date d) (on_disk d) in
  if str_in (res_document_type r) BILLABLE then
    (* only set to unpaid if not already paid/dismissed *)
    let d1 := match bill_status d0 with
              | Some b => if str_in b ["paid"; "dismissed"] then d0
                          else set_bill d0 (Some "unpaid") (bill_due_date d0)
              | None => set_bill d0 (Some "unpaid") (bill_due_date d0)
              end in
    match meta_due_date r with
    | Some raw =>
        if String.eqb raw "" then d1 else
        match fromisoformat raw with
        | Some dt => set_bill d1 (bill_status d1) (Some dt)
        | None => d1      (* ValueError / TypeError swallowed *)
        end
    | None => d1
    end
  else
    match bill_status d0 with
    | Some b => if String.eqb b "unpaid" then set_bill d0 None None else d0
    | None => d0
    end.

(** [analyze_document] / [analyze_document_vision]: one provider call; the
    answer is the decoded JSON, whose [document_type] goes through
    [_normalize_document_type] in [_parse_response]. A missing provider
    raises [ValueError]. *)
Definition analyze_call (what : string) : M ai_result :=
  emit (AExternal what) ;;
  a <- next ;;
  match a with
  | AFail e => raise (Ext e)
  | AResult r =>
      let (ty, warned) := _normalize_document_type (Some (res_document_type r)) in
      (if warned then emit (ALog (LogUnknownDocumentType (res_document_type r)))
       else ret tt) ;;
      ret (mkAIResult (suggested_name r) ty (suggested_tags r) (meta_due_date r))
  | _ => raise (Ext (ValueError "AI_PROVIDER is set to 'none'"))
  end.

(** Find-or-create each suggested tag and associate it. *)
Fixpoint tag_loop (tags : list string) : M unit :=
  match tags with
  | [] => ret tt
  | t :: r =>
      let name := substring 0 100 (py_lower (py_strip t)) in
      (if String.eqb name "" then ret tt else ext_call (ADbWrite ("tag " ++ name))) ;;
      tag_loop r
  end.

(* ------------------------------------------------------------------ *)
(** ** Control-signal store ([app/tasks/batch_reprocess.py]) *)

Definition PAUSE_KEY_PREFIX : string := "batch_reprocess:pause:".
Definition CANCEL_KEY_PREFIX : string := "batch_reprocess:cancel:".
Definition SKIP_KEY_PREFIX : string := "batch_reprocess:skip:".
Definition ACTIVE_TASK_KEY : string := "batch_reprocess:active_task".

(** [r.get(key)]: [None] for a missing key. *)
Definition redis_get (k : string) : M (option string) :=
  a <- next ;;
  match fail_of a with
  | Some e => raise (Ext e)
  | None =>
      emit (ARedis (RGet k)) ;;
      ret (match a with AStr v => Some v | _ => None end)
  end.

Definition redis_set (k v : string) : M unit := ext_call (ARedis (RSet k v)).

Definition redis_delete (ks : list string) : M unit := ext_call (ARedis (RDel ks)).

Definition is_one (v : option string) : bool :=
  match v with Some x => String.eqb x "1" | None => false end.

Definition is_paused (task_id : string) : M bool :=
  v <- redis_get (PAUSE_KEY_PREFIX ++ task_id) ;; ret (is_one v).

Definition is_cancelled (task_id : string) : M bool :=
  v <- redis_get (CANCEL_KEY_PREFIX ++ task_id) ;; ret (is_one v).

Definition should_skip (task_id : string) : M bool :=
  v <- redis_get (SKIP_KEY_PREFIX ++ task_id) ;; ret (is_one v).

Definition clear_skip (task_id : string) : M unit :=
  redis_delete [SKIP_KEY_PREFIX ++ task_id].

Definition cleanup_keys (task_id : string) : M unit :=
  redis_delete [PAUSE_KEY_PREFIX ++ task_id; CANCEL_KEY_PREFIX ++ task_id;
                SKIP_KEY_PREFIX ++ task_id].

(** [val.decode() if val else None] *)
Definition get_active_task : M (option string) :=
  v <- redis_get ACTIVE_TASK_KEY ;;
  ret (match v with
       | Some x => if String.eqb x "" then None else Some x
       | None => None
       end).

Definition set_active_task (task_id : option string) : M unit :=
  match task_id with
  | Some t => if String.eqb t "" then redis_delete [ACTIVE_TASK_KEY]
              else redis_set ACTIVE_TASK_KEY t
  | None => redis_delete [ACTIVE_TASK_KEY]
  end.

(* ------------------------------------------------------------------ *)
(** ** Batch controller stages ([app/tasks/batch_reprocess.py]) *)

Section BatchStages.

(** Bound on the iterations of the unbounded polling loops; running out of
    it is reported as [Diverge] (the loop has not finished). *)
Variable fuel : nat.

(** The subprocess poll loop of [_process_pdf] (lines 326-335): returns the
    process return code, or raises [_SkipDocument] after killing it. *)
Fixpoint poll_loop (task_id : option string) (n : nat) : M Z :=
  match n with
  | O => diverge
  | S n' =>
      a <- next ;;                       (* proc.poll() *)
      match a with
      | AExit code => ret code
      | _ =>
          sk <- match task_id with
                | Some t => if String.eqb t "" then ret false else should_skip t
                | None => ret false
                end ;;
          if sk then
            d <- get_doc ;;
            emit AKillOcr ;;             (* proc.kill(); proc.wait() *)
            emit (ALog (LogOcrSkipped (doc_id d))) ;;
            raise SkipDocument
          else poll_loop task_id n'      (* proc.wait(timeout=2) *)
      end
  end.

(** [_process_pdf(db, doc, abs_path, task_id)] *)
Definition _process_pdf (f : stored_file) (task_id : option string) : M unit :=
  found <- try_except
    (d <- get_doc ;;
     emit (AFastRead (doc_id d)) ;;
     let pages := fast_read (embedded_text f) in
     match pages with
     | [] => ret false
     | _ =>
         set_doc (set_content_text d (py_join (nl ++ nl) pages)) ;;
         update_search_vector ;;
         db_commit ;;
         ret true
     end)
    (fun _ => ret false) ;;                  (* except Exception: pass *)
  if found then ret tt else
  (* No embedded text: ocrmypdf in a subprocess we can kill *)
  ext_call (AExternal "tempfile.NamedTemporaryFile") ;;
  try_finally
    (try_except
       (d <- get_doc ;;
        ext_call (ASpawnOcr (doc_id d)) ;;   (* subprocess.Popen(...) *)
        code <- poll_loop task_id fuel ;;
        if Z.eqb code 0 then
          a <- next ;;                       (* fitz.open(tmp_path) *)
          match a with
          | AFail e => raise (Ext e)
          | APages l =>
              match fast_read l with
              | [] => ret tt
              | pages => set_doc (set_content_text d (py_join (nl ++ nl) pages))
              end
          | _ => ret tt
          end
        else ret tt)
       (fun e => match e with
                 | SkipDocument => raise SkipDocument
                 | _ => ret tt
                 end))
    (ext_call (AExternal "unlink tmp_path")) ;;   (* Path(tmp_path).unlink(missing_ok=True) *)
  update_search_vector ;;
  db_commit.

(** [_process_image(db, doc, abs_path)] *)
Definition _process_image : M unit :=
  try_except
    (d <- get_doc ;;
     emit (AExternal "pytesseract.image_to_string") ;;
     a <- next ;;
     match a with
     | AFail e => raise (Ext e)
     | AStr t => if String.eqb (py_strip t) "" then ret tt
                 else set_doc (set_content_text d (py_strip t))
     | _ => ret tt
     end)
    (fun _ => ret tt) ;;
  update_search_vector ;;
  db_commit.

(** [_run_ocr(db, doc, abs_path, task_id)] *)
Definition _run_ocr (f : stored_file) (task_id : option string) : M unit :=
  d <- get_doc ;;
  let mime := mime_type d in
  if String.eqb mime "application/pdf" then _process_pdf f task_id
  else if is_prefix "image/" mime then _process_image
  else if str_in mime ["text/plain"; "text/csv"; "text/html"; "text/xml"] then
    try_except
      (a <- next ;;                          (* abs_path.read_text() *)
       match a with
       | AFail e => raise (Ext e)
       | AStr t => set_doc (set_content_text d t)
       | _ => ret tt
       end)
      (fun _ => ret tt) ;;
    update_search_vector ;;
    db_commit
  else
    update_search_vector ;;
    db_commit.

(** [_run_ai_analysis(db, doc)] *)
Definition _run_ai_analysis : M unit :=
  d <- get_doc ;;
  ext_call (AExternal "_load_ai_config") ;;
  r1 <- (if String.eqb (content_text d) "" then ret None
         else r <- analyze_call "analyze_document" ;; ret (Some r)) ;;
  r2 <- match r1 with
        | Some r => ret (Some r)
        | None =>
            match on_disk d with
            | None => ret None                         (* not pdf_path.exists() *)
            | Some _ =>
                try_except
                  (a <- next ;;         (* image encoding / render_pdf_pages *)
                   match a with
                   | AFail e => raise (Ext e)
                   | APages [] => ret None             (* no images *)
                   | _ => r <- analyze_call "analyze_document_vision" ;; ret (Some r)
                   end)
                  (fun _ => emit (ALog LogOther) ;; ret None)
            end
        end ;;
  match r2 with
  | None => raise (RuntimeError "No analysis possible -- no text and vision failed")
  | Some r =>
      set_doc (apply_ai_result d r) ;;
      tag_loop (suggested_tags r) ;;
      db_commit ;;
      update_search_vector
  end.

End BatchStages.

(* ------------------------------------------------------------------ *)
(** ** [batch_reprocess_task] *)

Inductive batch_result :=
| Blocked
| CancelledResult (s : batch_stats) (total : nat)
| CompletedResult (s : batch_stats) (total : nat).

Inductive loop_ctl := Continue | Return (r : batch_result).

Definition incr_skipped (s : batch_stats) : batch_stats :=
  mkStats (processed s) (succeeded s) (failed s) (S (skipped s)) (errors s).
Definition incr_succeeded (s : batch_stats) : batch_stats :=
  mkStats (processed s) (S (succeeded s)) (failed s) (skipped s) (errors s).
Definition incr_failed (s : batch_stats) : batch_stats :=
  mkStats (processed s) (succeeded s) (S (failed s)) (skipped s) (errors s).
Definition incr_processed (s : batch_stats) : batch_stats :=
  mkStats (S (processed s)) (succeeded s) (failed s) (skipped s) (errors s).
Definition add_error (name : string) (e : err_msg) (s : batch_stats) : batch_stats :=
  mkStats (processed s) (succeeded s) (failed s) (skipped s)
    (errors s ++ [(name, e)]).

(** [doc.original_name or doc.filename] *)
Definition doc_name (d : document) : string :=
  if String.eqb (original_name d) "" then filename d else original_name d.

Section Batch.

Variable fuel : nat.
(** The live documents ([Document.deleted_at is None]) by id. *)
Variable db : string -> option document.
Variables (task_id user_id job_type : string).

(** [publish_progress(current_name, status)] *)
Definition publish_progress (total : nat) (current_name : string)
  (status : status_msg) : M unit :=
  s <- get_stats ;;
  p <- is_paused task_id ;;
  publish_event
    (EvReprocessProgress task_id user_id (processed s) total (succeeded s)
       (failed s) (skipped s) current_name p
       (match status with
        | SDefault => SProcessingCount (processed s) total
        | _ => status
        end)).

(** [while is_paused(task_id): ...; if is_cancelled(task_id): break] *)
Fixpoint pause_loop (total : nat) (n : nat) : M unit :=
  match n with
  | O => diverge
  | S n' =>
      p <- is_paused task_id ;;
      if p then
        s <- get_stats ;;
        publish_progress total "" (SPausedAt (processed s) total) ;;
        (* time.sleep(2) *)
        c <- is_cancelled task_id ;;
        if c then ret tt else pause_loop total n'
      else ret tt
  end.

(** The stage for [job_type]. *)
Definition run_stage (f : stored_file) : M unit :=
  if String.eqb job_type "ocr" then _run_ocr fuel f (Some task_id)
  else if String.eqb job_type "ai" then _run_ai_analysis
  else ret tt.

(** Lines 216-233: the guarded stage run of one present document. *)
Definition stage_block (name doc_id : string) (f : stored_file) : M unit :=
  try_except
    (clear_skip task_id ;;               (* clear any previous skip flag *)
     run_stage f ;;
     modify_stats incr_succeeded)
    (fun e =>
       match e with
       | SkipDocument =>
           modify_stats incr_skipped ;;
           clear_skip task_id ;;
           emit (ALog (LogSkippedDocument doc_id))
       | _ =>
           modify_stats incr_failed ;;
           modify_stats (add_error name (ErrExn e)) ;;
           emit (ALog (LogReprocessError doc_id))
       end).

(** One iteration of [for i, doc_id in enumerate(document_ids)]. *)
Definition process_one (total : nat) (doc_id : string) : M loop_ctl :=
  c <- is_cancelled task_id ;;
  if c then
    s <- get_stats ;;
    publish_event (EvReprocessCancelled task_id user_id s total
                     (SCancelledAfter (processed s) total)) ;;
    cleanup_keys task_id ;;
    set_active_task None ;;
    ret (Return (CancelledResult s total))
  else
  pause_loop total fuel ;;
  c2 <- is_cancelled task_id ;;
  if c2 then ret Continue else          (* will hit the cancel check *)
  ext_call (ADbQueryDocument doc_id) ;;
  match db doc_id with
  | None =>
      modify_stats incr_skipped ;;
      modify_stats incr_processed ;;
      ret Continue
  | Some doc =>
      let name := doc_name doc in
      set_doc doc ;;
      publish_progress total name (SProcessingDoc name) ;;
      match on_disk doc with
      | None =>
          modify_stats incr_skipped ;;
          modify_stats incr_processed ;;
          modify_stats (add_error name ErrFileNotFound) ;;
          ret Continue
      | Some f =>
          stage_block name doc_id f ;;
          modify_stats incr_processed ;;
          publish_progress total name SDefault ;;
          ret Continue
      end
  end.

Fixpoint batch_loop (total : nat) (ids : list string) : M (option batch_result) :=
  match ids with
  | [] => ret None
  | id :: rest =>
      c <- process_one total id ;;
      match c with
      | Continue => batch_loop total rest
      | Return r => ret (Some r)
      end
  end.

(** Everything after the single-flight guard (lines 135-257). *)
Definition batch_run (document_ids : list string) : M batch_result :=
  set_active_task (Some task_id) ;;
  let total := length document_ids in
  modify_stats (fun _ => stats0) ;;
  r <- try_finally
         (try_except
            (publish_progress total "" (SStarting total) ;;
             batch_loop total document_ids)
            (fun e =>
               emit (ALog LogFatal) ;;
               modify_stats (add_error "(fatal)" (ErrExn e)) ;;
               ret None))
         (cleanup_keys task_id ;; set_active_task None) ;;
  match r with
  | Some res => ret res
  | None =>
      s <- get_stats ;;
      publish_event (EvReprocessCompleted task_id user_id s total SCompleted) ;;
      ret (CompletedResult s total)
  end.

Definition blocked_stats (existing : string) : batch_stats :=
  mkStats 0 0 0 0
    [("(blocked)", ErrBlocked existing)].

(** [batch_reprocess_task(document_ids, user_id, job_type)] *)
Definition batch_reprocess_task (document_ids : list string) : M batch_result :=
  existing <- get_active_task ;;
  match existing with
  | Some e =>
      if negb (String.eqb e task_id) then
        publish_event (EvReprocessCompleted task_id user_id (blocked_stats e)
                         (length document_ids) SBlocked) ;;
        ret Blocked
      else batch_run document_ids
  | None => batch_run document_ids
  end.

End Batch.

(* ------------------------------------------------------------------ *)
(** ** Queue-dispatched stages ([app/tasks/ocr.py], [app/tasks/ai_analysis.py],
    [app/tasks/file_organization.py]). The processing job is the [job] row
    of the state. *)

Section QueueStages.

Variable db : string -> option document.
(** [settings.AI_PROVIDER.lower() not in ("none", "")] *)
Variable ai_configured : bool.

(** [_ocr_image(task, job_id, input_path)] *)
Definition _ocr_image : M (option (string * nat)) :=
  t <- try_except
         (emit (AExternal "pytesseract.image_to_string") ;;
          a <- next ;;
          match a with
          | AFail e => raise (Ext e)
          | AStr t => ret t
          | _ => ret ""
          end)
         (fun _ => ret "") ;;
  update_job_progress 80 (Some Jprocessing) ;;
  ret (Some (py_strip t, 1)).

(** [_ocr_pdf(task, job_id, input_path, document)]: [ocrmypdf.ocr] on the
    input (with [skip_text=settings.OCR_SKIP_TEXT]), then [pdfminer]'s
    [extract_text] on its output. [None] when the job was marked failed. *)
Definition _ocr_pdf (d : document) (f : stored_file) : M (option (string * nat)) :=
  emit (AExternal "tempfile.NamedTemporaryFile") ;;
  ok <- try_except
          (ext_call (AOcrmypdf (doc_id d)) ;; ret true)
          (fun e =>
             match e with
             | Ext PriorOcrFoundError => ret true       (* output_path = input_path *)
             | Ext EncryptedPdfError =>
                 mark_job_failed "PDF is encrypted and cannot be processed" ;; ret false
             | Ext InputFileError =>
                 mark_job_failed "Invalid input PDF" ;; ret false
             | e => raise e
             end) ;;
  if negb ok then ret None else
  update_job_progress 50 (Some Jprocessing) ;;
  update_job_progress 60 (Some Jprocessing) ;;
  t <- try_except
         (emit (AExternal "pdfminer.extract_text") ;;
          a <- next ;;
          match a with
          | AFail e => raise (Ext e)
          | AStr t => ret t
          | _ => ret ""
          end)
         (fun _ => ret "") ;;
  update_job_progress 80 (Some Jprocessing) ;;
  ext_call (AExternal "output_path.replace(input_path)") ;;
  ret (Some (py_strip t, length (embedded_text f))).

(** [_dispatch_ai_analysis(db, document_id)]: every failure is logged. *)
Definition _dispatch_ai_analysis : M unit :=
  try_except (ext_call (AExternal "process_ai_analysis.delay"))
             (fun _ => emit (ALog LogOther) ;; emit (ADbWrite "rollback")).

(** [process_ocr(job_id, document_id)]: one execution attempt. *)
Definition process_ocr (document_id : string) : M unit :=
  mark_job_started ;;
  try_finally
    (try_except
       (ext_call (ADbWrite "db.get(Document)") ;;
        match db document_id with
        | None => mark_job_failed "Document not found"
        | Some d =>
            update_job_progress 10 (Some Jprocessing) ;;
            match on_disk d with
            | None => mark_job_failed "File not found"
            | Some f =>
                update_job_progress 20 (Some Jprocessing) ;;
                r <- (if is_prefix "image/" (mime_type d) then _ocr_image
                      else _ocr_pdf d f) ;;
                match r with
                | None => ret tt                      (* job already failed *)
                | Some (text, _) =>
                    update_job_progress 90 (Some Jprocessing) ;;
                    set_doc (set_content_text d text) ;;
                    db_commit ;;
                    update_search_vector ;;
                    mark_job_completed ;;
                    (if ai_configured then _dispatch_ai_analysis else ret tt)
                end
            end
        end)
       (fun e => emit (ADbWrite "rollback") ;; raise e))
    (ret tt).                                          (* db.close() *)

(** [process_ai_analysis(job_id, document_id)]: one execution attempt. *)
Definition process_ai_analysis (document_id : string) : M unit :=
  mark_job_started ;;
  try_finally
    (try_except
       (ext_call (ADbWrite "db.get(Document)") ;;
        match db document_id with
        | None => mark_job_failed "Document not found"
        | Some d =>
            update_job_progress 10 (Some Jprocessing) ;;
            update_job_progress 20 (Some Jprocessing) ;;
            ext_call (AExternal "_load_ai_config") ;;
            (* text analysis; a ValueError fails the job *)
            r1 <- (if String.eqb (content_text d) "" then ret (inl None)
                   else try_except
                          (r <- analyze_call "analyze_document" ;; ret (inl (Some r)))
                          (fun e => match e with
                                    | Ext (ValueError m) => ret (inr m)
                                    | e => raise e
                                    end)) ;;
            match r1 with
            | inr m => mark_job_failed m
            | inl r1 =>
            (* vision fallback *)
            r2 <- match r1 with
                  | Some r => ret (inl (Some r))
                  | None =>
                      match on_disk d with
                      | None => ret (inl None)
                      | Some _ =>
                          try_except
                            (a <- next ;;   (* image encoding / render_pdf_pages *)
                             match a with
                             | AFail e => raise (Ext e)
                             | APages [] => ret (inl None)
                             | _ => r <- analyze_call "analyze_document_vision" ;;
                                    ret (inl (Some r))
                             end)
                            (fun e => match e with
                                      | Ext (ValueError m) => ret (inr m)
                                      | _ => emit (ALog LogOther) ;; ret (inl None)
                                      end)
                      end
                  end ;;
            match r2 with
            | inr m => mark_job_failed m
            | inl None =>
                mark_job_failed "No analysis possible -- no text content and vision analysis failed"
            | inl (Some r) =>
                update_job_progress 60 (Some Jprocessing) ;;
                update_job_progress 70 (Some Jprocessing) ;;
                set_doc (apply_ai_result d r) ;;
                update_job_progress 80 (Some Jprocessing) ;;
                tag_loop (suggested_tags r) ;;
                db_commit ;;
                publish_event (EvDocumentUpdated document_id) ;;
                update_search_vector ;;
                update_job_progress 90 (Some Jprocessing) ;;
                mark_job_completed
            end
            end
        end)
       (fun e => emit (ADbWrite "rollback") ;; raise e))
    (ret tt).

(** [process_file_organization(job_id, document_id)]: one execution attempt. *)
Definition process_file_organization (document_id : string) : M unit :=
  mark_job_started ;;
  try_finally
    (try_except
       (ext_call (ADbWrite "db.get(Document)") ;;
        match db document_id with
        | None => mark_job_failed "Document not found"
        | Some d =>
            update_job_progress 10 (Some Jprocessing) ;;
            if String.eqb (ai_generated_name d) "" then
              mark_job_failed "No AI-generated name - run AI analysis first"
            else
              update_job_progress 50 (Some Jprocessing) ;;
              update_job_progress 80 (Some Jprocessing) ;;
              mark_job_completed
        end)
       (fun e => emit (ADbWrite "rollback") ;; raise e))
    (ret tt).

End QueueStages.

(* ------------------------------------------------------------------ *)
(** ** Properties of traces *)

Definition is_ocr_skipped (a : action) : bool :=
  match a with ALog (LogOcrSkipped _) => true | _ => false end.

Definition is_db_query (a : action) : bool :=
  match a with ADbQueryDocument _ => true | _ => false end.

Definition is_redis_write (a : action) : bool :=
  match a with ARedis (RSet _ _) | ARedis (RDel _) => true | _ => false end.

Definition is_job_commit (a : action) : bool :=
  match a with AJobCommit _ => true | _ => false end.

Definition is_fast_read (a : action) : bool :=
  match a with AFastRead _ => true | _ => false end.

Definition is_spawn_ocr (a : action) : bool :=
  match a with ASpawnOcr _ => true | _ => false end.

Definition is_ocrmypdf (a : action) : bool :=
  match a with AOcrmypdf _ => true | _ => false end.

Definition any_action (a : action) : bool := true.

Definition no_commit (a : action) : bool := negb (is_job_commit a).

Definition no_ocr_skipped (a : action) : bool := negb (is_ocr_skipped a).

Definition no_redis_del (a : action) : bool :=
  match a with ARedis (RDel _) => false | _ => true end.

Definition no_del_or_error (a : action) : bool :=
  match a with ARedis (RDel _) | ALog (LogReprocessError _) => false | _ => true end.

(** What [publish_event] does besides recording its call. *)
Definition is_transport (a : action) : bool :=
  match a with APublished _ | ALog (LogPublishFailed _) => true | _ => false end.

(** Effects of running a stage on a document. *)
Definition is_stage_effect (a : action) : bool :=
  match a with
  | AFastRead _ | ASpawnOcr _ | AKillOcr | AOcrmypdf _ | ADbQueryDocument _
  | ADbWrite _ | AJobCommit _ => true
  | _ => false
  end.

(** A left-to-right scan of a trace with a state; [None] marks a
    violation. *)
Fixpoint scan {S} (step : S -> action -> option S) (x : S) (t : list action) : option S :=
  match t with
  | [] => Some x
  | a :: r =>
      match step x a with
      | Some y => scan step y r
      | None => None
      end
  end.

(** The skip flag of a run, in three phases. An observed skip
    ([LogOcrSkipped]) moves from [SkIdle] to [SkRaised]. In [SkRaised] the
    next action is either the removal of the temporary file, after which
    the flag is [SkPending], or, when that removal failed, the per-document
    error log, back to [SkIdle]. While the flag is [SkPending] the only
    action allowed is the fatal-error log until a successful delete of the
    skip key; any other action (in particular every action of the next
    document: its cancel and pause checks, its lookup, its progress events)
    is a violation. *)
Inductive skip_phase := SkIdle | SkRaised | SkPending.

Definition skip_step (task_id : string) (ph : skip_phase) (a : action) : option skip_phase :=
  match ph, a with
  | SkIdle, ALog (LogOcrSkipped _) => Some SkRaised
  | SkIdle, _ => Some SkIdle
  | SkRaised, AExternal w => if String.eqb w "unlink tmp_path" then Some SkPending else None
  | SkRaised, ALog (LogReprocessError _) => Some SkIdle
  | SkRaised, _ => None
  | SkPending, ARedis (RDel ks) =>
      if str_in (SKIP_KEY_PREFIX ++ task_id) ks then Some SkIdle else None
  | SkPending, ALog LogFatal => Some SkPending
  | SkPending, _ => None
  end.

Definition skip_scan (task_id : string) : skip_phase -> list action -> option skip_phase :=
  scan (skip_step task_id).

(** What a phase other than [SkIdle] tells about the result of an
    extraction: [SkRaised], the removal of the temporary file failed with
    [e] (which replaced [_SkipDocument]); [SkPending], [_SkipDocument]
    propagates. *)
Definition skip_outcome {A} (p : skip_phase) (r : res A) : Prop :=
  match p with
  | SkIdle => False
  | SkRaised => exists e, r = Raise (Ext e)
  | SkPending => r = Raise SkipDocument
  end.

(** After a document's guarded stage run the flag can only be pending,
    and then the run raised. *)
Definition skip_blocked {A} (p : skip_phase) (r : res A) : Prop :=
  p = SkPending /\ forall a, r <> Ret a.

(** The job rows committed in a trace: while the status is [processing]
    the progress never decreases ([lo] is the last such progress), and a
    commit into [completed] has progress 100. *)
Definition commit_step (lo : Z) (a : action) : option Z :=
  match a with
  | AJobCommit j =>
      match job_status_of j with
      | Jprocessing => if Z.leb lo (progress j) then Some (progress j) else None
      | Jcompleted => if Z.eqb (progress j) 100 then Some lo else None
      | _ => Some lo
      end
  | _ => Some lo
  end.

Definition commit_scan : Z -> list action -> option Z := scan commit_step.

Definition job_commits (t : list action) : list processing_job :=
  flat_map (fun a => match a with AJobCommit j => [j] | _ => [] end) t.

(** A timestamp column is assigned at most once: all non-null values it
    takes in the committed rows are equal. *)
Fixpoint assigned_once (f : processing_job -> option nat) (seen : option nat)
  (js : list processing_job) : bool :=
  match js with
  | [] => true
  | j :: r =>
      match f j, seen with
      | Some v, Some w => Nat.eqb v w && assigned_once f seen r
      | Some v, None => assigned_once f (Some v) r
      | None, _ => assigned_once f seen r
      end
  end.

(** The aggregate counters of a batch event. *)
Definition counters_consistent (ev : event) : bool :=
  match ev with
  | EvReprocessProgress _ _ cur total succ fail skip _ _ _ =>
      Nat.eqb cur (succ + fail + skip) && Nat.leb cur total
  | EvReprocessCancelled _ _ s total _
  | EvReprocessCompleted _ _ s total _ =>
      Nat.eqb (processed s) (succeeded s + failed s + skipped s)
      && Nat.leb (processed s) total
  | _ => true
  end.

Definition batch_events_consistent (t : list action) : bool :=
  forallb (fun a => match a with AEmit ev => counters_consistent ev | _ => true end) t.

(* ------------------------------------------------------------------ *)
(** ** Reasoning about the monad *)

(** A Hoare triple over a trace scan: started in a scan state satisfying
    [P], [m] appends a segment that the scan accepts, ending in a state
    that satisfies [Q] together with the outcome. *)
Definition shoare {S A} (step : S -> action -> option S) (P : S -> Prop) (m : M A)
  (Q : res A -> S -> Prop) : Prop :=
  forall s x, P x -> exists t y,
    trace (snd (m s)) = (trace s ++ t)%list /\ scan step x t = Some y /\ Q (fst (m s)) y.

(** Persisted progress stays below [b] when it started below [a]. *)
Definition mono {A} (a b : Z) (m : M A) : Prop :=
  shoare commit_step (fun lo => (lo <= a)%Z) m (fun _ lo => (lo <= b)%Z).

(** [m] only appends actions satisfying [al] and leaves the batch stats. *)
Definition emits_only {A} (al : action -> bool) (m : M A) : Prop :=
  forall s, exists t,
    trace (snd (m s)) = (trace s ++ t)%list /\ forallb al t = true
    /\ stats (snd (m s)) = stats s.

(* ------------------------------------------------------------------ *)
(** ** Concrete inputs *)

(** A two-page PDF: a born-digital first page and a blank second page. *)
Definition bill_pdf : stored_file := mkFile ["Electric bill, amount due $142.50"; ""].

(** A scanned PDF: no embedded text. *)
Definition scanned_pdf : stored_file := mkFile [""].

Definition doc_bill : document :=
  mkDoc "d1" "bill.pdf" "bill.pdf" "application/pdf" "" "" "" None None (Some bill_pdf).

Definition doc_scanned : document :=
  mkDoc "d1" "scan.pdf" "scan.pdf" "application/pdf" "" "" "" None None (Some scanned_pdf).

(** A document classified as a bill earlier and marked paid by its owner. *)
Definition doc_paid_bill : document :=
  mkDoc "d2" "letter.pdf" "letter.pdf" "application/pdf" "Thanks for your letter" "Bill"
    "bill" (Some "paid") (Some "2026-01-31") (Some (mkFile ["Thanks for your letter"])).

Definition db_of (d : document) (id : string) : option document :=
  if String.eqb id (doc_id d) then Some d else None.

Definition job_new : processing_job := mkJob Jpending 0 None None None.

Definition st_init (sc : list answer) (j : option processing_job) : st :=
  mkSt sc [] stats0 j 0 empty_document.

(** Every attempt of [process_ocr] succeeds up to the search-index
    update, which fails once: Celery retries the task. *)
Definition retry_script : list answer := (repeat ADefault 32 ++ [AFail DatabaseError])%list.

(** A batch run over one scanned PDF: the poll loop sees the skip flag,
    and the delete of the flag in the skip handler fails. *)
Definition skip_then_store_failure : list answer :=
  (repeat ADefault 19 ++ [ARunning; AStr "1"; ADefault; AFail ConnectionError])%list.

(** A batch run over a scanned PDF: the poll loop sees the skip flag, and
    the removal of the temporary file then fails. *)
Definition skip_then_unlink_failure : list answer :=
  (repeat ADefault 19 ++ [ARunning; AStr "1"; AFail OSError])%list.

(** Two documents in the database. *)
Definition db_pair (d1 d2 : document) (id : string) : option document :=
  if String.eqb id (doc_id d1) then Some d1 else db_of d2 id.

(** The provider answers "correspondence" for [doc_paid_bill]. *)
Definition reclassify_script : list answer :=
  (repeat ADefault 14 ++ [AResult (mkAIResult "Letter" "correspondence" [] None)])%list.

(* ------------------------------------------------------------------ *)
(** ** Specification predicates for the batch controller *)

(** A triple with a scan of the appended trace: from scan state [x] and
    stats satisfying [P], the actions the computation appends are accepted
    by [step], and [Q] relates result, final scan state and final stats. *)
Definition stoare {S A} (step : S -> action -> option S) (P : S -> batch_stats -> Prop)
  (m : M A) (Q : res A -> S -> batch_stats -> Prop) : Prop :=
  forall s x, P x (stats s) -> exists t y,
    trace (snd (m s)) = (trace s ++ t)%list /\ scan step x t = Some y
    /\ Q (fst (m s)) y (stats (snd (m s))).

(** Every batch event published before a fatal log line has consistent
    counters; the state is whether the fatal line has been seen. *)
Definition fatal_step (seen : bool) (a : action) : option bool :=
  if seen then Some true else
  match a with
  | ALog LogFatal => Some true
  | AEmit ev => if counters_consistent ev then Some false else None
  | _ => Some false
  end.

(** Actions that neither publish nor log the fatal line. *)
Definition quiet (a : action) : bool :=
  match a with AEmit _ | ALog LogFatal => false | _ => true end.

(** The counters add up, with [n] documents left out of [total]. *)
Definition cons_n (total n : nat) (b : batch_stats) : Prop :=
  processed b = succeeded b + failed b + skipped b /\ processed b + n <= total.

(** The counters add up once [processed] is incremented. *)
Definition cons_after (total n : nat) (b : batch_stats) : Prop :=
  S (processed b) = succeeded b + failed b + skipped b /\ S (processed b) + n <= total.

Definition loop_post (total n : nat) (r : res loop_ctl) (x : bool) (b : batch_stats) : Prop :=
  x = false /\ match r with Ret Continue => cons_n total n b | _ => True end.

(** The pause, cancel and skip keys of a run ([cleanup_keys]). *)
Definition control_keys (task_id : string) : list string :=
  [PAUSE_KEY_PREFIX ++ task_id; CANCEL_KEY_PREFIX ++ task_id; SKIP_KEY_PREFIX ++ task_id].

(** Redis state read off the trace: whether the active-run marker is set,
    and whether the control keys have all been deleted (and none set
    since). *)
Definition release_step (task_id : string) (x : bool * bool) (a : action) : option (bool * bool) :=
  let (held, cleaned) := x in
  match a with
  | ARedis (RSet k _) =>
      Some (if String.eqb k ACTIVE_TASK_KEY then true else held,
            if str_in k (control_keys task_id) then false else cleaned)
  | ARedis (RDel ks) =>
      Some (if str_in ACTIVE_TASK_KEY ks then false else held,
            cleaned || forallb (fun k => str_in k ks) (control_keys task_id))
  | _ => Some x
  end.

(** [m] only appends to the trace. *)
Definition appends {A} (m : M A) : Prop :=
  forall s, exists t, trace (snd (m s)) = (trace s ++ t)%list.

(** Marker deleted, control keys deleted. *)
Definition released (x : bool * bool) : Prop := x = (false, true).

(** The counter a document is tallied under in the batch stats. *)
Inductive outcome := OSucceeded | OFailed | OSkipped.

Definition tally (o : outcome) (b : batch_stats) : batch_stats :=
  match o with
  | OSucceeded => incr_succeeded b
  | OFailed => incr_failed b
  | OSkipped => incr_skipped b
  end.

(** The four counters of the stats dict. *)
Definition counts (b : batch_stats) : nat * nat * nat * nat :=
  (processed b, succeeded b, failed b, skipped b).

(** The scan that accepts every trace. *)
Definition ustep (_ : unit) (_ : action) : option unit := Some tt.

(** One loop iteration that continues either leaves the counters as they
    were, or counts the document as processed and under one outcome, which
    is [OSkipped] for a document missing from the database or from disk. *)
Definition acc_post (db : string -> option document) (b0 : batch_stats) (doc_id : string)
  (r : res loop_ctl) (b : batch_stats) : Prop :=
  r = Ret Continue ->
  counts b = counts b0 \/
  exists o, counts b = counts (incr_processed (tally o b0))
    /\ (match db doc_id with None => True | Some d => on_disk d = None end -> o = OSkipped).

(* ------------------------------------------------------------------ *)
(** ** AI provider helpers ([app/core/ai_provider.py]) *)

(** Python's [s.split(c)] for a one-character separator. *)
Fixpoint py_split_char (c : ascii) (s : string) : list string :=
  match s with
  | EmptyString => [""]
  | String d r =>
      if Ascii.eqb d c then "" :: py_split_char c r
      else match py_split_char c r with
           | [] => [String d ""]
           | x :: xs => String d x :: xs
           end
  end.

Definition nl_char : ascii := ascii_of_nat 10.

Definition fence : string := "```".

(** [_parse_response], up to [json.loads]: the text it decodes. *)
Definition _clean_response (raw : string) : string :=
  let cleaned := py_strip raw in
  if is_prefix fence cleaned then
    let lines := py_split_char nl_char cleaned in
    let lines := filter (fun line => negb (is_prefix fence (py_strip line))) lines in
    py_join nl lines
  else cleaned.

(** [c] does not occur in [s]. *)
Definition no_char (c : ascii) (s : string) : bool :=
  forallb (fun d => negb (Ascii.eqb d c)) (list_ascii_of_string s).

(** No whitespace character occurs in [s]. *)
Definition no_space (s : string) : bool :=
  forallb (fun d => negb (py_is_space d)) (list_ascii_of_string s).

(** Python's [value or default] on an optional string ([config.get(k) or d]). *)
Definition py_or (v : option string) (d : string) : string :=
  match v with
  | Some x => if String.eqb x "" then d else x
  | None => d
  end.

(** [bool(config.get(k))] for a string setting. *)
Definition truthy (v : option string) : bool :=
  match v with Some x => negb (String.eqb x "") | None => false end.

(** The three [ValueError]s of the provider checks. *)
Inductive provider_error :=
| ProviderDisabled
| MissingApiKey (provider : string)
| UnknownProvider (provider : string).

(** The keys of the provider tables (their values are the call functions). *)
Definition _PROVIDERS : list string := ["openai"; "anthropic"; "ollama"].
Definition _VISION_PROVIDERS : list string := ["openai"; "anthropic"; "ollama"].

(** The checks [analyze_document] and [analyze_document_vision] make before
    calling the provider: the provider to call, or the [ValueError] raised. *)
Definition _select_provider (providers : list string) (config : string -> option string)
  : provider_error + string :=
  let provider := py_lower (py_or (config "ai_provider") "none") in
  if String.eqb provider "none" || String.eqb provider "" then inl ProviderDisabled
  else if negb (String.eqb provider "ollama") && negb (truthy (config "ai_api_key"))
  then inl (MissingApiKey provider)
  else if str_in provider providers then inr provider
  else inl (UnknownProvider provider).

(** [str.rstrip("/")]: drop every character from the first one that is
    followed by slashes only. *)
Fixpoint rstrip_slash (s : string) : string :=
  match s with
  | EmptyString => EmptyString
  | String c r =>
      let r' := rstrip_slash r in
      if String.eqb r' "" && Ascii.eqb c "/" then "" else String c r'
  end.

(** [base_url] of [_call_ollama] / [_call_ollama_vision]. *)
Definition _ollama_base_url (config : string -> option string) : string :=
  let raw_base := py_or (config "ai_base_url") "" in
  if String.eqb raw_base "" then "http://localhost:11434/v1"
  else rstrip_slash raw_base ++ "/v1".

(** [tag_name.strip().lower()[:100]] in the tag loop of [process_ai_analysis]. *)
Definition tag_name (t : string) : string := substring 0 100 (py_lower (py_strip t)).

(** The names the tag loop writes, in order: the non-empty ones. *)
Definition tag_names (tags : list string) : list string :=
  filter (fun n => negb (String.eqb n "")) (map tag_name tags).

(* ------------------------------------------------------------------ *)
(** * Lemmas *)

(** ** [emits_only] *)

Lemma eo_ret {A} al (a : A) : emits_only al (ret a).
Proof. intro s. exists []. rewrite app_nil_r. auto. Qed.

Lemma eo_raise {A} al e : emits_only al (@raise A e).
Proof. intro s. exists []. rewrite app_nil_r. auto. Qed.

Lemma eo_diverge {A} al : emits_only al (@diverge A).
Proof. intro s. exists []. rewrite app_nil_r. auto. Qed.

Lemma eo_emit al a : al a = true -> emits_only al (emit a).
Proof. intros H s. exists [a]. simpl. rewrite H. auto. Qed.

Lemma eo_next al : emits_only al next.
Proof.
  intro s. exists []. rewrite app_nil_r. unfold next.
  destruct (script s); simpl; auto.
Qed.

Lemma eo_get_doc al : emits_only al get_doc.
Proof. intro s. exists []. rewrite app_nil_r. auto. Qed.

Lemma eo_set_doc al d : emits_only al (set_doc d).
Proof. intro s. exists []. rewrite app_nil_r. auto. Qed.

Lemma eo_get_job al : emits_only al get_job.
Proof. intro s. exists []. rewrite app_nil_r. auto. Qed.

Lemma eo_put_job al j : emits_only al (put_job j).
Proof. intro s. exists []. rewrite app_nil_r. auto. Qed.

Lemma eo_now al : emits_only al now.
Proof. intro s. exists []. rewrite app_nil_r. auto. Qed.

Lemma eo_get_stats al : emits_only al get_stats.
Proof. intro s. exists []. rewrite app_nil_r. auto. Qed.

Lemma eo_bind {A B} al (m : M A) (k : A -> M B) :
  emits_only al m -> (forall a, emits_only al (k a)) -> emits_only al (bind m k).
Proof.
  intros Hm Hk s. unfold bind.
  destruct (Hm s) as [t1 [E1 [F1 S1]]].
  destruct (m s) as [[a|e|] s'] eqn:Em; simpl in *.
  - destruct (Hk a s') as [t2 [E2 [F2 S2]]].
    exists (t1 ++ t2)%list. rewrite E2, E1, app_assoc, forallb_app, F1, F2, S2, S1.
    auto.
  - exists t1; auto.
  - exists t1; auto.
Qed.

Lemma eo_try_except {A} al (m : M A) h :
  emits_only al m -> (forall e, emits_only al (h e)) -> emits_only al (try_except m h).
Proof.
  intros Hm Hh s. unfold try_except.
  destruct (Hm s) as [t1 [E1 [F1 S1]]].
  destruct (m s) as [[a|e|] s'] eqn:Em; simpl in *.
  - exists t1; auto.
  - destruct (Hh e s') as [t2 [E2 [F2 S2]]].
    exists (t1 ++ t2)%list. rewrite E2, E1, app_assoc, forallb_app, F1, F2, S2, S1.
    auto.
  - exists t1; auto.
Qed.

Lemma eo_try_finally {A} al (m : M A) f :
  emits_only al m -> emits_only al f -> emits_only al (try_finally m f).
Proof.
  intros Hm Hf s. unfold try_finally.
  destruct (Hm s) as [t1 [E1 [F1 S1]]].
  destruct (m s) as [r s'] eqn:Em; simpl in *.
  destruct (Hf s') as [t2 [E2 [F2 S2]]].
  assert (Hboth : exists t, trace (snd (f s')) = (trace s ++ t)%list
                  /\ forallb al t = true /\ stats (snd (f s')) = stats s).
  { exists (t1 ++ t2)%list. rewrite E2, E1, app_assoc, forallb_app, F1, F2, S2, S1.
    auto. }
  destruct r as [a|e|]; [| |exists t1; auto];
    destruct (f s') as [[u|e'|] s''] eqn:Ef; simpl in *; auto.
Qed.

Lemma eo_mono {A} (al al' : action -> bool) (m : M A) :
  (forall a, al a = true -> al' a = true) -> emits_only al m -> emits_only al' m.
Proof.
  intros Hal Hm s. destruct (Hm s) as [t [E [F S]]]. exists t. split; [auto|split; auto].
  apply forallb_forall. intros x Hx. apply Hal. rewrite forallb_forall in F. auto.
Qed.

Ltac eo_base_step :=
  match goal with
  | |- emits_only _ (bind _ _) => apply eo_bind; intros
  | |- emits_only _ (try_except _ _) => apply eo_try_except; intros
  | |- emits_only _ (try_finally _ _) => apply eo_try_finally
  | |- emits_only _ (emit _) => apply eo_emit; first [reflexivity | assumption | auto]
  | |- emits_only _ (ret _) => apply eo_ret
  | |- emits_only _ (raise _) => apply eo_raise
  | |- emits_only _ diverge => apply eo_diverge
  | |- emits_only _ next => apply eo_next
  | |- emits_only _ get_doc => apply eo_get_doc
  | |- emits_only _ (set_doc _) => apply eo_set_doc
  | |- emits_only _ get_job => apply eo_get_job
  | |- emits_only _ (put_job _) => apply eo_put_job
  | |- emits_only _ now => apply eo_now
  | |- emits_only _ get_stats => apply eo_get_stats
  | |- emits_only _ (match ?x with _ => _ end) => destruct x
  | |- emits_only _ (if ?x then _ else _) => destruct x
  end.

Ltac eo_base := repeat eo_base_step.

Lemma eo_ext_call al what : al what = true -> emits_only al (ext_call what).
Proof. intro H. unfold ext_call. eo_base. Qed.

Lemma eo_ext_step al : emits_only al ext_step.
Proof. unfold ext_step. eo_base. Qed.

Lemma eo_publish_event al ev :
  al (AEmit ev) = true -> al (APublished ev) = true ->
  al (ALog (LogPublishFailed (event_topic ev))) = true ->
  emits_only al (publish_event ev).
Proof.
  intros H1 H2 H3. unfold publish_event. eo_base; apply eo_ext_step.
Qed.

Ltac eo_solve :=
  repeat first
    [ match goal with
      | |- emits_only _ (ext_call _) => apply eo_ext_call; reflexivity
      | |- emits_only _ (publish_event _) => apply eo_publish_event; reflexivity
      | |- emits_only _ ext_step => apply eo_ext_step
      | |- emits_only _ (update_job_progress _ _) => unfold update_job_progress
      | |- emits_only _ (mark_job_failed _) => unfold mark_job_failed
      | |- emits_only _ mark_job_completed => unfold mark_job_completed
      | |- emits_only _ mark_job_started => unfold mark_job_started
      | |- emits_only _ (commit_job _) => unfold commit_job
      | |- emits_only _ db_commit => unfold db_commit
      | |- emits_only _ update_search_vector => unfold update_search_vector
      end
    | eo_base_step ].

(** ** Collaborator answers *)

Lemma fail_of_none a e : fail_of a = None -> a <> AFail e.
Proof. intros H ->. discriminate. Qed.

Lemma fail_of_some a e : fail_of a = Some e -> a = AFail e.
Proof. destruct a; simpl; congruence. Qed.

(** ** [publish_event] *)

(** Publishing returns normally, touches only the trace (and consumes
    answers), and its trace is the event followed by transport records. *)
Lemma publish_event_shape (ev : event) (s : st) :
  fst (publish_event ev s) = Ret tt
  /\ stats (snd (publish_event ev s)) = stats s
  /\ job (snd (publish_event ev s)) = job s
  /\ clock (snd (publish_event ev s)) = clock s
  /\ cur_doc (snd (publish_event ev s)) = cur_doc s
  /\ exists t, trace (snd (publish_event ev s)) = (trace s ++ AEmit ev :: t)%list
               /\ forallb is_transport t = true.
Proof.
  destruct s as [sc tr stt jb ck dc].
  destruct sc as [|a1 [|a2 [|a3 [|a4 sc]]]];
    unfold publish_event, ext_step, try_except, bind, emit, next, raise, ret; cbn;
    repeat match goal with
    | |- context [fail_of ?a] =>
        let F := fresh "F" in destruct (fail_of a) eqn:F; cbn
    end;
    (split; [reflexivity|split;[reflexivity|split;[reflexivity|split;[reflexivity|split;[reflexivity|]]]]]);
    repeat rewrite <- app_assoc; simpl; eexists; split; reflexivity.
Qed.

Lemma publish_event_bind {B} (ev : event) (k : unit -> M B) (s : st) :
  bind (publish_event ev) k s = k tt (snd (publish_event ev s)).
Proof.
  destruct (publish_event_shape ev s) as [H _]. unfold bind.
  destruct (publish_event ev s) as [r s']. simpl in H. subst. reflexivity.
Qed.

(** ** [_normalize_document_type] *)

Lemma assoc_lookup_valid k v :
  assoc_lookup k _DOCUMENT_TYPE_ALIASES = Some v -> str_in v _VALID_DOCUMENT_TYPES = true.
Proof.
  unfold _DOCUMENT_TYPE_ALIASES. simpl. intro H.
  repeat match type of H with context [String.eqb ?a ?b] => destruct (String.eqb a b) end;
    try discriminate; injection H as <-; reflexivity.
Qed.

Lemma substring_match_valid k v :
  substring_match k _DOCUMENT_TYPE_ALIASES = Some v -> str_in v _VALID_DOCUMENT_TYPES = true.
Proof.
  unfold _DOCUMENT_TYPE_ALIASES. simpl. intro H.
  repeat match type of H with context [(?a || ?b)%bool] => destruct (a || b)%bool end;
    try discriminate; injection H as <-; reflexivity.
Qed.

Lemma normalize_valid raw :
  str_in (fst (_normalize_document_type raw)) _VALID_DOCUMENT_TYPES = true.
Proof.
  unfold _normalize_document_type.
  destruct raw as [raw|]; [|reflexivity].
  destruct (String.eqb raw "") eqn:E; [reflexivity|].
  destruct (str_in (py_lower (py_strip raw)) _VALID_DOCUMENT_TYPES) eqn:V; [exact V|].
  destruct (assoc_lookup _ _) eqn:A; [apply (assoc_lookup_valid _ _ A)|].
  destruct (substring_match _ _) eqn:B; [apply (substring_match_valid _ _ B)|].
  reflexivity.
Qed.

(** ** Claims *)

(** Claim C9: [publish_event] never raises into its caller, for any answers
    of the transport: it returns [None] normally, the caller's
    continuation runs on the same stats, job row, clock and document, and
    when one of its four transport steps (client, [json.dumps], [publish],
    [close]) fails the failure is logged as a warning. *)
Theorem publish_event_never_raises (ev : event) (s : st) :
  fst (publish_event ev s) = Ret tt
  /\ (forall B (k : unit -> M B), bind (publish_event ev) k s = k tt (snd (publish_event ev s)))
  /\ stats (snd (publish_event ev s)) = stats s
  /\ job (snd (publish_event ev s)) = job s
  /\ clock (snd (publish_event ev s)) = clock s
  /\ cur_doc (snd (publish_event ev s)) = cur_doc s
  /\ ((exists e, In (AFail e) (firstn 4 (script s))) ->
      In (ALog (LogPublishFailed (event_topic ev))) (trace (snd (publish_event ev s)))).
Proof.
  destruct (publish_event_shape ev s) as [H1 [H2 [H3 [H4 [H5 _]]]]].
  split; [exact H1|]. split; [intros B k; apply publish_event_bind|].
  do 4 (split; [assumption|]). clear.
  destruct s as [sc tr stt jb ck dc].
  destruct sc as [|a1 [|a2 [|a3 [|a4 sc]]]];
    unfold publish_event, ext_step, try_except, bind, emit, next, raise, ret; cbn;
    repeat match goal with
    | |- context [fail_of ?a] =>
        let F := fresh "F" in destruct (fail_of a) eqn:F; cbn
    end;
    intros [x Hx]; try contradiction;
    repeat rewrite <- app_assoc; try (apply in_or_app; right; simpl; auto; fail);
    exfalso;
    repeat match goal with
    | H : fail_of ?a = None |- _ => pose proof (fail_of_none a x H); clear H
    end; simpl in Hx; intuition.
Qed.

(** Claim C6: [_normalize_document_type] only ever yields a member of
    [_VALID_DOCUMENT_TYPES]; a member is kept; an alias ("EOB",
    "pre-auth") maps to its type ([insurance]); an unmatched value
    ("random-garbage") falls back to "other" and exactly then the warning
    is logged; and the type a provider call returns to the stages (the
    value they store as [document_type]) is always in the vocabulary. *)
Theorem normalize_document_type_closed (raw : option string) :
  str_in (fst (_normalize_document_type raw)) _VALID_DOCUMENT_TYPES = true
  /\ (forall r, raw = Some r -> String.eqb r "" = false ->
      str_in (py_lower (py_strip r)) _VALID_DOCUMENT_TYPES = true ->
      _normalize_document_type raw = (py_lower (py_strip r), false))
  /\ (forall r, raw = Some r -> String.eqb r "" = false ->
      str_in (py_lower (py_strip r)) _VALID_DOCUMENT_TYPES = false ->
      assoc_lookup (py_lower (py_strip r)) _DOCUMENT_TYPE_ALIASES = None ->
      substring_match (py_lower (py_strip r)) _DOCUMENT_TYPE_ALIASES = None ->
      _normalize_document_type raw = ("other", true))
  /\ (snd (_normalize_document_type raw) = true -> fst (_normalize_document_type raw) = "other")
  /\ _normalize_document_type (Some "EOB") = ("insurance", false)
  /\ _normalize_document_type (Some "pre-auth") = ("insurance", false)
  /\ _normalize_document_type (Some "random-garbage") = ("other", true)
  /\ (forall what s r s', analyze_call what s = (Ret r, s') ->
      str_in (res_document_type r) _VALID_DOCUMENT_TYPES = true).
Proof.
  split; [apply normalize_valid|].
  split; [intros r -> E V; unfold _normalize_document_type; rewrite E, V; reflexivity|].
  split; [intros r -> E V A B; unfold _normalize_document_type; rewrite E, V, A, B;
          reflexivity|].
  split.
  { unfold _normalize_document_type. destruct raw as [raw|]; [|discriminate].
    destruct (String.eqb raw ""); [discriminate|].
    destruct (str_in _ _); [discriminate|].
    destruct (assoc_lookup _ _); [discriminate|].
    destruct (substring_match _ _); [discriminate|reflexivity]. }
  split; [vm_compute; reflexivity|].
  split; [vm_compute; reflexivity|].
  split; [vm_compute; reflexivity|].
  intros what s r s'. unfold analyze_call, bind, emit, next, raise, ret.
  destruct (script _) as [|a sc]; [discriminate|].
  destruct a; try discriminate.
  destruct (_normalize_document_type (Some (res_document_type r0))) as [ty w] eqn:N.
  pose proof (normalize_valid (Some (res_document_type r0))) as V. rewrite N in V.
  simpl in V. destruct w; intro H; injection H as <- _; exact V.
Qed.

(** ** Evaluation lemmas *)

Lemma bind_Ret {A B} (m : M A) (k : A -> M B) s a s' :
  m s = (Ret a, s') -> bind m k s = k a s'.
Proof. intro H. unfold bind. rewrite H. reflexivity. Qed.

Lemma bind_Raise {A B} (m : M A) (k : A -> M B) s e s' :
  m s = (Raise e, s') -> bind m k s = (Raise e, s').
Proof. intro H. unfold bind. rewrite H. reflexivity. Qed.

Lemma get_active_task_str s e rest :
  script s = AStr e :: rest ->
  get_active_task s =
    (Ret (if String.eqb e "" then None else Some e),
     mkSt rest (trace s ++ [ARedis (RGet ACTIVE_TASK_KEY)])%list (stats s) (job s)
       (clock s) (cur_doc s)).
Proof. destruct s; simpl; intros ->. reflexivity. Qed.

(** Claim C1: when the active-run marker holds another non-empty run id,
    [batch_reprocess_task] reads the marker, publishes one terminal
    "blocked" event whose counters are all zero, and returns: everything
    else it records is the transport of that event (no stage effect, no
    document lookup, no write or delete of any control key or of the
    marker), and the stats, job row and document are untouched. *)
Theorem batch_blocked_by_active_run (fuel : nat) (db : string -> option document)
  (task_id user_id job_type : string) (ids : list string) (s : st)
  (e : string) (rest : list answer) :
  script s = AStr e :: rest ->
  String.eqb e "" = false ->
  String.eqb e task_id = false ->
  let (r, s') := batch_reprocess_task fuel db task_id user_id job_type ids s in
  r = Ret Blocked
  /\ (exists t,
        trace s' = (trace s ++ ARedis (RGet ACTIVE_TASK_KEY)
                      :: AEmit (EvReprocessCompleted task_id user_id (blocked_stats e)
                                  (length ids) SBlocked) :: t)%list
        /\ forallb is_transport t = true)
  /\ processed (blocked_stats e) = 0 /\ succeeded (blocked_stats e) = 0
  /\ failed (blocked_stats e) = 0 /\ skipped (blocked_stats e) = 0
  /\ stats s' = stats s /\ job s' = job s /\ cur_doc s' = cur_doc s.
Proof.
  intros Hs He Ht. unfold batch_reprocess_task.
  rewrite (bind_Ret _ _ _ _ _ (get_active_task_str s e rest Hs)), He.
  cbv beta iota. rewrite Ht. change (negb false) with true. cbv beta iota.
  rewrite publish_event_bind. unfold ret.
  match goal with |- context [publish_event ?ev ?s1] =>
    destruct (publish_event_shape ev s1) as [_ [S1 [J1 [_ [D1 [t [T1 F1]]]]]]] end.
  repeat split; simpl in *; auto.
  exists t. rewrite T1. simpl. rewrite <- app_assoc. auto.
Qed.

Lemma batch_blocked_by_active_run_witness :
  let (r, s') := batch_reprocess_task 0 (fun _ => None) "t2" "u" "ocr" ["d1"]
                   (mkSt [AStr "t1"] [] stats0 None 0 empty_document) in
  r = Ret Blocked
  /\ (exists t,
        trace s' = ([] ++ ARedis (RGet ACTIVE_TASK_KEY)
                      :: AEmit (EvReprocessCompleted "t2" "u" (blocked_stats "t1")
                                  (length ["d1"]) SBlocked) :: t)%list
        /\ forallb is_transport t = true)
  /\ processed (blocked_stats "t1") = 0 /\ succeeded (blocked_stats "t1") = 0
  /\ failed (blocked_stats "t1") = 0 /\ skipped (blocked_stats "t1") = 0
  /\ stats s' = stats0 /\ job s' = None /\ cur_doc s' = empty_document.
Proof.
  apply (batch_blocked_by_active_run 0 (fun _ => None) "t2" "u" "ocr" ["d1"]
           (mkSt [AStr "t1"] [] stats0 None 0 empty_document) "t1" []);
    reflexivity.
Defined.

(** ** Hoare logic over trace scans *)

Lemma scan_app {S} (step : S -> action -> option S) x t1 t2 :
  scan step x (t1 ++ t2) =
    match scan step x t1 with Some y => scan step y t2 | None => None end.
Proof.
  revert x. induction t1 as [|a r IH]; intro x; simpl; [reflexivity|].
  destruct (step x a); [apply IH|reflexivity].
Qed.

Lemma scan_all {S} (step : S -> action -> option S) (P : S -> Prop) al t x :
  (forall x a, P x -> al a = true -> exists y, step x a = Some y /\ P y) ->
  forallb al t = true -> P x -> exists y, scan step x t = Some y /\ P y.
Proof.
  intros Hs. revert x. induction t as [|a r IH]; intros x Hall Hx; simpl.
  - eauto.
  - simpl in Hall. apply andb_true_iff in Hall as [Ha Hr].
    destruct (Hs x a Hx Ha) as [y [-> Hy]]. apply IH; assumption.
Qed.

Section ShoareRules.

Context {S : Type} (step : S -> action -> option S).

Lemma sh_conseq {A} (P P' : S -> Prop) (Q Q' : res A -> S -> Prop) m :
  shoare step P m Q -> (forall x, P' x -> P x) -> (forall r x, Q r x -> Q' r x) ->
  shoare step P' m Q'.
Proof.
  intros H HP HQ s x Hx. destruct (H s x (HP x Hx)) as [t [y [E [F G]]]].
  exists t, y. auto.
Qed.

Lemma sh_eo {A} al (P : S -> Prop) (m : M A) :
  emits_only al m ->
  (forall x a, P x -> al a = true -> exists y, step x a = Some y /\ P y) ->
  shoare step P m (fun _ x => P x).
Proof.
  intros Hm Hs s x Hx. destruct (Hm s) as [t [E [F _]]].
  destruct (scan_all step P al t x Hs F Hx) as [y [Y Py]]. exists t, y. auto.
Qed.

Lemma sh_ret {A} (a : A) (P : S -> Prop) (Q : res A -> S -> Prop) :
  (forall x, P x -> Q (Ret a) x) -> shoare step P (ret a) Q.
Proof. intros H s x Hx. exists [], x. rewrite app_nil_r. auto. Qed.

Lemma sh_raise {A} e (P : S -> Prop) (Q : res A -> S -> Prop) :
  (forall x, P x -> Q (Raise e) x) -> shoare step P (raise e) Q.
Proof. intros H s x Hx. exists [], x. rewrite app_nil_r. auto. Qed.

Lemma sh_diverge {A} (P : S -> Prop) (Q : res A -> S -> Prop) :
  (forall x, P x -> Q Diverge x) -> shoare step P diverge Q.
Proof. intros H s x Hx. exists [], x. rewrite app_nil_r. auto. Qed.

Lemma sh_emit a (P : S -> Prop) (Q : res unit -> S -> Prop) :
  (forall x, P x -> exists y, step x a = Some y /\ Q (Ret tt) y) ->
  shoare step P (emit a) Q.
Proof.
  intros H s x Hx. destruct (H x Hx) as [y [Y Qy]].
  exists [a], y. simpl. rewrite Y. auto.
Qed.

Lemma sh_bind {A B} (P : S -> Prop) (Q : res A -> S -> Prop) (R : res B -> S -> Prop)
  (m : M A) (k : A -> M B) :
  shoare step P m Q ->
  (forall a, shoare step (Q (Ret a)) (k a) R) ->
  (forall e x, Q (Raise e) x -> R (Raise e) x) ->
  (forall x, Q Diverge x -> R Diverge x) ->
  shoare step P (bind m k) R.
Proof.
  intros Hm Hk HR HD s x Hx. unfold bind.
  destruct (Hm s x Hx) as [t1 [y1 [E1 [S1 Q1]]]].
  destruct (m s) as [[a|e|] s'] eqn:Em; simpl in *.
  - destruct (Hk a s' y1 Q1) as [t2 [y2 [E2 [S2 Q2]]]].
    exists (t1 ++ t2)%list, y2. rewrite E2, E1, app_assoc, scan_app, S1. auto.
  - exists t1, y1. auto.
  - exists t1, y1. auto.
Qed.

Lemma sh_try_except {A} (P : S -> Prop) (Q R : res A -> S -> Prop) (m : M A) h :
  shoare step P m Q ->
  (forall e, shoare step (Q (Raise e)) (h e) R) ->
  (forall a x, Q (Ret a) x -> R (Ret a) x) ->
  (forall x, Q Diverge x -> R Diverge x) ->
  shoare step P (try_except m h) R.
Proof.
  intros Hm Hh HR HD s x Hx. unfold try_except.
  destruct (Hm s x Hx) as [t1 [y1 [E1 [S1 Q1]]]].
  destruct (m s) as [[a|e|] s'] eqn:Em; simpl in *.
  - exists t1, y1. auto.
  - destruct (Hh e s' y1 Q1) as [t2 [y2 [E2 [S2 Q2]]]].
    exists (t1 ++ t2)%list, y2. rewrite E2, E1, app_assoc, scan_app, S1. auto.
  - exists t1, y1. auto.
Qed.

Lemma sh_try_finally {A} (P : S -> Prop) (Q R : res A -> S -> Prop) (m : M A) f :
  shoare step P m Q ->
  (forall r, r <> Diverge ->
     shoare step (Q r) f
       (fun r' x => match r' with
                    | Ret _ => R r x
                    | Raise e => R (Raise e) x
                    | Diverge => R Diverge x
                    end)) ->
  (forall x, Q Diverge x -> R Diverge x) ->
  shoare step P (try_finally m f) R.
Proof.
  intros Hm Hf HD s x Hx. unfold try_finally.
  destruct (Hm s x Hx) as [t1 [y1 [E1 [S1 Q1]]]].
  destruct (m s) as [r s'] eqn:Em; simpl in *.
  destruct r as [a|e|]; [| |exists t1, y1; auto].
  - destruct (Hf (Ret a) ltac:(discriminate) s' y1 Q1) as [t2 [y2 [E2 [S2 Q2]]]].
    exists (t1 ++ t2)%list, y2.
    destruct (f s') as [[u|e'|] s''] eqn:Ef; simpl in *;
      rewrite E2, E1, app_assoc, scan_app, S1; auto.
  - destruct (Hf (Raise e) ltac:(discriminate) s' y1 Q1) as [t2 [y2 [E2 [S2 Q2]]]].
    exists (t1 ++ t2)%list, y2.
    destruct (f s') as [[u|e'|] s''] eqn:Ef; simpl in *;
      rewrite E2, E1, app_assoc, scan_app, S1; auto.
Qed.

Lemma sh_next (P : S -> Prop) (Q : res answer -> S -> Prop) :
  (forall a x, P x -> Q (Ret a) x) -> shoare step P next Q.
Proof.
  intros H s x Hx. exists [], x. rewrite app_nil_r. unfold next.
  destruct (script s); simpl; auto.
Qed.

Lemma sh_ext_call what (P : S -> Prop) (Q : res unit -> S -> Prop) :
  (forall x, P x -> exists y, step x what = Some y /\ Q (Ret tt) y) ->
  (forall e x, P x -> Q (Raise (Ext e)) x) ->
  shoare step P (ext_call what) Q.
Proof.
  intros H1 H2. unfold ext_call.
  apply sh_bind with (Q := fun r x => P x /\ exists a, r = Ret a).
  - apply sh_next. eauto.
  - intros a. destruct (fail_of a).
    + apply sh_raise. intros x [Hx _]. auto.
    + apply sh_emit. intros x [Hx _]. auto.
  - intros e x [_ [a H]]. discriminate.
  - intros x [_ [a H]]. discriminate.
Qed.

End ShoareRules.

(** ** Persisted progress ([mono]) *)

Lemma mono_neutral {A} a b (m : M A) :
  emits_only no_commit m -> (a <= b)%Z -> mono a b m.
Proof.
  intros Hm Hab. eapply sh_conseq.
  - apply (sh_eo commit_step no_commit (fun lo => (lo <= a)%Z) m Hm).
    intros x act Hx Ha. exists x. split; [|exact Hx].
    destruct act; try reflexivity; discriminate.
  - auto.
  - simpl. intros. lia.
Qed.

Lemma mono_bind {A B} a b c (m : M A) (k : A -> M B) :
  mono a b m -> (forall x, mono b c (k x)) -> (b <= c)%Z -> mono a c (bind m k).
Proof.
  intros Hm Hk Hbc. eapply sh_bind; [exact Hm|exact Hk| |]; simpl; intros; lia.
Qed.

Lemma mono_try_except {A} a b c (m : M A) h :
  mono a b m -> (forall e, mono b c (h e)) -> (b <= c)%Z -> mono a c (try_except m h).
Proof.
  intros Hm Hh Hbc. eapply sh_try_except; [exact Hm|exact Hh| |]; simpl; intros; lia.
Qed.

Lemma mono_try_finally {A} a b c (m : M A) f :
  mono a b m -> mono b c f -> (b <= c)%Z -> mono a c (try_finally m f).
Proof.
  intros Hm Hf Hbc. eapply sh_try_finally; [exact Hm| |simpl; intros; lia].
  intros r _. eapply sh_conseq; [exact Hf|auto|].
  intros r' x H. destruct r'; lia.
Qed.

Lemma mono_emit_processing a b j :
  job_status_of j = Jprocessing -> (a <= progress j)%Z -> (progress j <= b)%Z ->
  mono a b (emit (AJobCommit j)).
Proof.
  intros Hst Ha Hb. apply sh_emit. intros x Hx. simpl. rewrite Hst.
  destruct (Z.leb_spec x (progress j)); [|lia]. eauto.
Qed.

Lemma mono_emit_completed a j :
  job_status_of j = Jcompleted -> progress j = 100%Z ->
  mono a a (emit (AJobCommit j)).
Proof.
  intros Hst Hp. apply sh_emit. intros x Hx. simpl. rewrite Hst, Hp. simpl. eauto.
Qed.

Lemma mono_emit_failed a j :
  job_status_of j = Jfailed -> mono a a (emit (AJobCommit j)).
Proof. intros Hst. apply sh_emit. intros x Hx. simpl. rewrite Hst. eauto. Qed.

Lemma eo_nc_publish_event ev : emits_only no_commit (publish_event ev).
Proof. apply eo_publish_event; reflexivity. Qed.

Lemma mono_silent {A} a (m : M A) :
  (forall s, trace (snd (m s)) = trace s) -> mono a a m.
Proof.
  intros H s x Hx. exists [], x. rewrite app_nil_r. auto.
Qed.

Lemma sh_bind_ret {S A B} (step : S -> action -> option S) (a : A) (k : A -> M B) P Q :
  shoare step P (k a) Q -> shoare step P (bind (ret a) k) Q.
Proof. intros H s x Hx. exact (H s x Hx). Qed.

Lemma sh_bind_assoc {S A B C} (step : S -> action -> option S) (m : M A) (f : A -> M B)
  (k : B -> M C) P Q :
  shoare step P (bind m (fun x => bind (f x) k)) Q -> shoare step P (bind (bind m f) k) Q.
Proof.
  intros H s x Hx. specialize (H s x Hx). unfold bind in *.
  destruct (m s) as [[a|e|] s']; exact H.
Qed.

Lemma mono_update a p :
  (a <= p)%Z -> (p <= 100)%Z -> mono a p (update_job_progress p (Some Jprocessing)).
Proof.
  intros Hap Hp. unfold update_job_progress.
  apply mono_bind with (b := a); [apply mono_silent; reflexivity| |lia].
  intros [j|]; [|apply mono_neutral; [apply eo_emit; reflexivity|lia]].
  cbv zeta. destruct (started_at _).
  - apply sh_bind_ret.
    apply mono_bind with (b := p); [|intros; apply mono_neutral; [apply eo_nc_publish_event|lia]|lia].
    unfold commit_job. apply mono_bind with (b := a); [apply mono_silent; reflexivity| |lia].
    intros _. apply mono_emit_processing; simpl; [reflexivity|lia|lia].
  - apply sh_bind_assoc.
    apply mono_bind with (b := a); [apply mono_silent; reflexivity| |lia].
    intros t. apply sh_bind_ret.
    apply mono_bind with (b := p); [|intros; apply mono_neutral; [apply eo_nc_publish_event|lia]|lia].
    unfold commit_job. apply mono_bind with (b := a); [apply mono_silent; reflexivity| |lia].
    intros _. apply mono_emit_processing; simpl; [reflexivity|lia|lia].
Qed.

Lemma mono_mark_job_started a : (a <= 0)%Z -> mono a 0 mark_job_started.
Proof.
  intro Ha. unfold mark_job_started.
  apply mono_bind with (b := a); [apply mono_silent; reflexivity| |lia].
  intros [j|]; [|apply mono_neutral; [apply eo_ret|lia]].
  apply mono_bind with (b := a); [apply mono_silent; reflexivity| |lia].
  intros t. cbv zeta.
  apply mono_bind with (b := 0%Z); [|intros; apply mono_neutral; [apply eo_nc_publish_event|lia]|lia].
  unfold commit_job. apply mono_bind with (b := a); [apply mono_silent; reflexivity| |lia].
  intros _. apply mono_emit_processing; simpl; [reflexivity|lia|lia].
Qed.

Lemma mono_mark_job_completed a : mono a a mark_job_completed.
Proof.
  unfold mark_job_completed.
  apply mono_bind with (b := a); [apply mono_silent; reflexivity| |lia].
  intros [j|]; [|apply mono_neutral; [apply eo_ret|lia]].
  apply mono_bind with (b := a); [apply mono_silent; reflexivity| |lia].
  intros t. cbv zeta.
  apply mono_bind with (b := a); [|intros; apply mono_neutral; [apply eo_nc_publish_event|lia]|lia].
  unfold commit_job. apply mono_bind with (b := a); [apply mono_silent; reflexivity| |lia].
  intros _. apply mono_emit_completed; reflexivity.
Qed.

Lemma mono_mark_job_failed a msg : mono a a (mark_job_failed msg).
Proof.
  unfold mark_job_failed.
  apply mono_bind with (b := a); [apply mono_silent; reflexivity| |lia].
  intros [j|]; [|apply mono_neutral; [apply eo_ret|lia]].
  apply mono_bind with (b := a); [apply mono_silent; reflexivity| |lia].
  intros t. cbv zeta.
  apply mono_bind with (b := a); [|intros; apply mono_neutral; [apply eo_nc_publish_event|lia]|lia].
  unfold commit_job. apply mono_bind with (b := a); [apply mono_silent; reflexivity| |lia].
  intros _. apply mono_emit_failed; reflexivity.
Qed.

Lemma eo_analyze_call al what :
  al (AExternal what) = true ->
  (forall raw, al (ALog (LogUnknownDocumentType raw)) = true) ->
  emits_only al (analyze_call what).
Proof.
  intros H1 H2. unfold analyze_call. eo_solve. all: apply eo_emit, H2.
Qed.

Lemma eo_tag_loop al tags :
  (forall name, al (ADbWrite ("tag " ++ name)) = true) -> emits_only al (tag_loop tags).
Proof.
  intro H. induction tags as [|t r IH]; simpl; [apply eo_ret|].
  apply eo_bind; [|intros; exact IH].
  destruct (String.eqb _ _); [apply eo_ret|apply eo_ext_call, H].
Qed.

Lemma mono_weaken {A} a b b' (m : M A) : mono a b m -> (b <= b')%Z -> mono a b' m.
Proof. intros H Hb. eapply sh_conseq; [exact H|auto|]. simpl. intros. lia. Qed.

Ltac nc_solve :=
  solve
    [ apply eo_analyze_call; reflexivity
    | apply eo_tag_loop; reflexivity
    | apply eo_nc_publish_event
    | apply eo_ext_call; reflexivity
    | unfold db_commit, update_search_vector; apply eo_ext_call; reflexivity
    | unfold _dispatch_ai_analysis; eo_solve; apply eo_ext_call; reflexivity
    | eo_solve ].

Ltac mono_solve :=
  repeat match goal with
  | |- mono _ _ (bind _ _) => eapply mono_bind; [ | intro | ]
  | |- mono _ ?c (try_except _ _) => apply mono_try_except with (b := c); [ | intro | ]
  | |- mono _ ?c (try_finally _ _) => apply mono_try_finally with (b := c)
  | |- mono _ _ (update_job_progress _ (Some Jprocessing)) => apply mono_update
  | |- mono _ _ mark_job_started => apply mono_mark_job_started
  | |- mono _ _ mark_job_completed =>
      first [apply mono_mark_job_completed
            | eapply mono_weaken; [apply mono_mark_job_completed | lia]]
  | |- mono _ _ (mark_job_failed _) =>
      first [apply mono_mark_job_failed
            | eapply mono_weaken; [apply mono_mark_job_failed | lia]]
  | |- mono _ _ _ocr_image => unfold _ocr_image
  | |- mono _ _ (_ocr_pdf _ _) => unfold _ocr_pdf
  | |- mono _ _ (match ?x with _ => _ end) => destruct x
  | |- mono _ _ (if ?x then _ else _) => destruct x
  | |- mono _ _ _ => apply mono_neutral; [ nc_solve | first [apply Z.le_refl | lia] ]
  | |- (_ <= _)%Z => lia
  end.

Lemma mono_process_ocr db ai id : mono 0 100 (process_ocr db ai id).
Proof. unfold process_ocr. mono_solve. Qed.

Lemma mono_process_ai_analysis db id : mono 0 100 (process_ai_analysis db id).
Proof. unfold process_ai_analysis. mono_solve. Qed.

Lemma mono_process_file_organization db id : mono 0 100 (process_file_organization db id).
Proof. unfold process_file_organization. mono_solve. Qed.

Lemma mark_job_started_first_commit (s : st) (j : processing_job) :
  job s = Some j ->
  exists t,
    trace (snd (mark_job_started s)) =
      (trace s ++ AJobCommit (set_job_progress (set_job_started
                   (set_job_status j Jprocessing) (Some (clock s))) 0) :: t)%list.
Proof.
  intro J. unfold mark_job_started.
  rewrite (bind_Ret _ _ s (Some j) s) by (unfold get_job; rewrite J; reflexivity).
  cbv beta iota.
  rewrite (bind_Ret _ _ s (clock s)
             (mkSt (script s) (trace s) (stats s) (job s) (S (clock s)) (cur_doc s)))
    by reflexivity.
  cbv beta zeta. unfold commit_job.
  match goal with |- context [publish_event ?ev] =>
    set (E := publish_event ev) end.
  unfold bind at 1. unfold bind at 1. unfold put_job, emit. simpl.
  destruct (E _) as [r s'] eqn:HE.
  destruct (publish_event_shape (EvJob "job.started" Jprocessing 0)
    (mkSt (script s) (trace s ++ [AJobCommit (set_job_progress (set_job_started
       (set_job_status j Jprocessing) (Some (clock s))) 0)])%list (stats s)
       (Some (set_job_progress (set_job_started (set_job_status j Jprocessing)
          (Some (clock s))) 0)) (S (clock s)) (cur_doc s)))
    as [_ [_ [_ [_ [_ [t [T _]]]]]]].
  unfold E in HE. rewrite HE in T. simpl in T. simpl.
  exists (AEmit (EvJob "job.started" Jprocessing 0) :: t)%list.
  rewrite T, <- app_assoc. reflexivity.
Qed.

(** ** Stored progress *)

Lemma update_job_progress_stored (p : Z) (s : st) (j : processing_job) :
  job s = Some j ->
  option_map progress (job (snd (update_job_progress p (Some Jprocessing) s)))
  = Some (Z.min p 100).
Proof.
  intro J. unfold update_job_progress.
  rewrite (bind_Ret _ _ s (Some j) s) by (unfold get_job; rewrite J; reflexivity).
  cbv beta iota zeta. simpl started_at.
  destruct (started_at j) as [t0|].
  - unfold bind at 1. unfold ret at 1. unfold commit_job.
    unfold bind at 1. unfold bind at 1. unfold put_job, emit. simpl.
    match goal with |- context [publish_event ?ev ?s1] =>
      destruct (publish_event_shape ev s1) as [_ [_ [J1 _]]] end.
    rewrite J1. reflexivity.
  - unfold bind at 1. unfold bind at 1. unfold now, ret. unfold commit_job.
    unfold bind at 1. unfold bind at 1. unfold put_job, emit. simpl.
    match goal with |- context [publish_event ?ev ?s1] =>
      destruct (publish_event_shape ev s1) as [_ [_ [J1 _]]] end.
    rewrite J1. reflexivity.
Qed.

(** ** Emitting anything *)

Lemma eo_any_update_job_progress p st : emits_only any_action (update_job_progress p st).
Proof.
  unfold update_job_progress, commit_job. eo_solve; apply eo_publish_event; reflexivity.
Qed.

Lemma eo_any_mark_job_failed msg : emits_only any_action (mark_job_failed msg).
Proof.
  unfold mark_job_failed, commit_job. eo_solve; apply eo_publish_event; reflexivity.
Qed.

Lemma eo_any_ocr_pdf_tail (d : document) (f : stored_file) (ok : bool) :
  emits_only any_action
    (if negb ok then ret None else
     update_job_progress 50 (Some Jprocessing) ;;
     update_job_progress 60 (Some Jprocessing) ;;
     t <- try_except
            (emit (AExternal "pdfminer.extract_text") ;;
             a <- next ;;
             match a with
             | AFail e => raise (Ext e)
             | AStr t => ret t
             | _ => ret ""
             end)
            (fun _ => ret "") ;;
     update_job_progress 80 (Some Jprocessing) ;;
     ext_call (AExternal "output_path.replace(input_path)") ;;
     ret (Some (py_strip t, length (embedded_text f)))).
Proof.
  eo_solve.
Qed.

(** ** The fast read of the batch path *)

Lemma process_pdf_fast_path (fuel : nat) (f : stored_file) (task_id : option string)
  (s : st) (a1 a2 : answer) (rest : list answer) :
  fast_read (embedded_text f) <> [] ->
  script s = a1 :: a2 :: rest -> fail_of a1 = None -> fail_of a2 = None ->
  _process_pdf fuel f task_id s =
    (Ret tt,
     mkSt rest
       (trace s ++ [AFastRead (doc_id (cur_doc s)); ADbWrite "update_search_vector";
                    ADbWrite "commit"])%list
       (stats s) (job s) (clock s)
       (set_content_text (cur_doc s) (py_join (nl ++ nl) (fast_read (embedded_text f))))).
Proof.
  intros Hne Hs F1 F2. destruct s as [sc tr stt jb ck dc]. simpl in Hs. subst sc.
  unfold _process_pdf, update_search_vector, db_commit, ext_call.
  unfold try_except, bind, get_doc, emit, set_doc, next, ret, raise.
  destruct (fast_read (embedded_text f)) as [|p ps]; [contradiction|].
  cbn. rewrite F1. cbn. rewrite F2. cbn. rewrite <- !app_assoc. reflexivity.
Qed.

Lemma ocr_pdf_calls_ocrmypdf_first (d : document) (f : stored_file) (s : st) :
  fail_of (hd ADefault (script s)) = None ->
  exists t, trace (snd (_ocr_pdf d f s)) =
    (trace s ++ [AExternal "tempfile.NamedTemporaryFile"; AOcrmypdf (doc_id d)] ++ t)%list.
Proof.
  intro F. unfold _ocr_pdf.
  unfold bind at 1. unfold emit at 1. simpl.
  set (s1 := mkSt (script s) (trace s ++ [AExternal "tempfile.NamedTemporaryFile"])%list
               (stats s) (job s) (clock s) (cur_doc s)).
  set (s2 := mkSt (tl (script s))
               (trace s ++ [AExternal "tempfile.NamedTemporaryFile"; AOcrmypdf (doc_id d)])%list
               (stats s) (job s) (clock s) (cur_doc s)).
  assert (E : try_except (ext_call (AOcrmypdf (doc_id d));; ret true)
                (fun e => match e with
                          | Ext PriorOcrFoundError => ret true
                          | Ext EncryptedPdfError =>
                              mark_job_failed "PDF is encrypted and cannot be processed";; ret false
                          | Ext InputFileError => mark_job_failed "Invalid input PDF";; ret false
                          | e => raise e
                          end) s1 = (Ret true, s2)).
  { unfold s1, s2. destruct s as [sc tr stt jb ck dc]. simpl in F |- *.
    unfold try_except, ext_call, bind, next, emit, ret, raise.
    destruct sc as [|a sc]; simpl in F |- *; [rewrite <- app_assoc; reflexivity|].
    rewrite F. simpl. rewrite <- app_assoc. reflexivity. }
  unfold bind at 1. rewrite E.
  destruct (eo_any_ocr_pdf_tail d f true s2) as [t [T _]].
  exists t. rewrite T. unfold s2. simpl. rewrite <- app_assoc. reflexivity.
Qed.

(** Claim C3 (counterexample): over an execution history with a
    queue-level retry the persisted progress of a job is not
    non-decreasing while it is [processing]: the first attempt of
    [process_ocr] commits 90, its search-index update fails, Celery
    retries, and the retry's [mark_job_started] commits 0. *)
Lemma progress_monotone_across_retries_counterexample :
  fst (celery_execute 3 (process_ocr (db_of doc_bill) false "d1")
         (st_init retry_script (Some job_new))) = Ret tt
  /\ map progress (job_commits (trace (snd (celery_execute 3
         (process_ocr (db_of doc_bill) false "d1") (st_init retry_script (Some job_new))))))
     = [0; 10; 20; 50; 60; 80; 90; 90; 0; 10; 20; 50; 60; 80; 90; 100]%Z
  /\ map job_status_of (job_commits (trace (snd (celery_execute 3
         (process_ocr (db_of doc_bill) false "d1") (st_init retry_script (Some job_new))))))
     = (repeat Jprocessing 15 ++ [Jcompleted])%list
  /\ commit_scan 0 (trace (snd (celery_execute 3 (process_ocr (db_of doc_bill) false "d1")
         (st_init retry_script (Some job_new))))) = None.
Proof. repeat split; vm_compute; reflexivity. Qed.

(** Claim C3 (amended): within one execution attempt of each queue stage
    ([process_ocr], [process_ai_analysis], [process_file_organization])
    the progress values committed while the job is [processing] never
    decrease, and every commit into [completed] carries progress 100. An
    attempt starts with [mark_job_started], which commits progress 0 (and
    a fresh [started_at]) whatever the row held, so a retry starts again
    from 0. *)
Theorem progress_monotone_per_attempt (db : string -> option document) (ai : bool)
  (document_id : string) (s : st) :
  (exists t lo, trace (snd (process_ocr db ai document_id s)) = (trace s ++ t)%list
                /\ commit_scan 0 t = Some lo)
  /\ (exists t lo, trace (snd (process_ai_analysis db document_id s)) = (trace s ++ t)%list
                   /\ commit_scan 0 t = Some lo)
  /\ (exists t lo, trace (snd (process_file_organization db document_id s))
                     = (trace s ++ t)%list
                   /\ commit_scan 0 t = Some lo)
  /\ (forall j, job s = Some j ->
      exists t, trace (snd (mark_job_started s)) =
        (trace s ++ AJobCommit (set_job_progress (set_job_started
                     (set_job_status j Jprocessing) (Some (clock s))) 0) :: t)%list).
Proof.
  split; [|split; [|split]].
  - destruct (mono_process_ocr db ai document_id s 0%Z (Z.le_refl 0)) as [t [lo [T [C _]]]].
    eauto.
  - destruct (mono_process_ai_analysis db document_id s 0%Z (Z.le_refl 0))
      as [t [lo [T [C _]]]]. eauto.
  - destruct (mono_process_file_organization db document_id s 0%Z (Z.le_refl 0))
      as [t [lo [T [C _]]]]. eauto.
  - apply mark_job_started_first_commit.
Qed.

(** Claim C4: [started_at] is not assigned only once: [mark_job_started]
    assigns it unconditionally (unlike [update_job_progress], which checks
    [started_at is None]), so the retried attempt of the history above
    overwrites the first attempt's start time. [completed_at] is assigned
    once in it. *)
Theorem started_at_reassigned_on_retry :
  map started_at (job_commits (trace (snd (celery_execute 3
      (process_ocr (db_of doc_bill) false "d1") (st_init retry_script (Some job_new))))))
    = (repeat (Some 0) 8 ++ repeat (Some 1) 8)%list
  /\ assigned_once started_at None (job_commits (trace (snd (celery_execute 3
      (process_ocr (db_of doc_bill) false "d1") (st_init retry_script (Some job_new))))))
    = false
  /\ assigned_once completed_at None (job_commits (trace (snd (celery_execute 3
      (process_ocr (db_of doc_bill) false "d1") (st_init retry_script (Some job_new))))))
    = true.
Proof. repeat split; vm_compute; reflexivity. Qed.

(** Claim C5 (counterexample): the queue-dispatched OCR stage does no
    fast read: on a PDF whose first page has the embedded text "Electric
    bill, amount due $142.50" it still calls [ocrmypdf.ocr]. *)
Lemma embedded_text_skips_recognition_counterexample :
  fast_read (embedded_text bill_pdf) = ["Electric bill, amount due $142.50"]
  /\ fst (process_ocr (db_of doc_bill) false "d1" (st_init [] (Some job_new))) = Ret tt
  /\ existsb is_ocrmypdf
       (trace (snd (process_ocr (db_of doc_bill) false "d1" (st_init [] (Some job_new)))))
     = true
  /\ existsb is_fast_read
       (trace (snd (process_ocr (db_of doc_bill) false "d1" (st_init [] (Some job_new)))))
     = false.
Proof. repeat split; vm_compute; reflexivity. Qed.

(** Claim C5 (amended): the batch extraction path [_process_pdf] adopts
    the text of the fast read (the non-empty stripped page texts joined by
    blank lines), updates the search index, commits and returns without
    spawning the recognition subprocess, whenever the fast read yields
    text and that update and commit succeed; the queue-dispatched
    [_ocr_pdf] does no fast read and always calls [ocrmypdf.ocr] first,
    whatever embedded text the file has. *)
Theorem pdf_extraction_paths (fuel : nat) (f : stored_file) (task_id : option string)
  (s : st) (a1 a2 : answer) (rest : list answer) :
  fast_read (embedded_text f) <> [] ->
  script s = a1 :: a2 :: rest -> fail_of a1 = None -> fail_of a2 = None ->
  fst (_process_pdf fuel f task_id s) = Ret tt
  /\ content_text (cur_doc (snd (_process_pdf fuel f task_id s)))
     = py_join (nl ++ nl) (fast_read (embedded_text f))
  /\ trace (snd (_process_pdf fuel f task_id s))
     = (trace s ++ [AFastRead (doc_id (cur_doc s)); ADbWrite "update_search_vector";
                    ADbWrite "commit"])%list
  /\ (forall d, fail_of (hd ADefault (script s)) = None ->
      exists t, trace (snd (_ocr_pdf d f s)) =
        (trace s ++ [AExternal "tempfile.NamedTemporaryFile"; AOcrmypdf (doc_id d)] ++ t)%list).
Proof.
  intros Hne Hs F1 F2.
  rewrite (process_pdf_fast_path fuel f task_id s a1 a2 rest Hne Hs F1 F2). simpl.
  split; [reflexivity|]. split; [reflexivity|]. split; [reflexivity|].
  intros d F. apply ocr_pdf_calls_ocrmypdf_first. exact F.
Qed.

Lemma pdf_extraction_paths_witness :
  fast_read (embedded_text bill_pdf) <> []
  /\ fst (_process_pdf 5 bill_pdf (Some "t1") (st_init [ADefault; ADefault] None)) = Ret tt
  /\ content_text (cur_doc (snd (_process_pdf 5 bill_pdf (Some "t1")
                                   (st_init [ADefault; ADefault] None))))
     = py_join (nl ++ nl) (fast_read (embedded_text bill_pdf))
  /\ trace (snd (_process_pdf 5 bill_pdf (Some "t1") (st_init [ADefault; ADefault] None)))
     = ([] ++ [AFastRead (doc_id empty_document); ADbWrite "update_search_vector";
               ADbWrite "commit"])%list
  /\ (forall d, fail_of (hd ADefault [ADefault; ADefault]) = None ->
      exists t, trace (snd (_ocr_pdf d bill_pdf (st_init [ADefault; ADefault] None))) =
        ([] ++ [AExternal "tempfile.NamedTemporaryFile"; AOcrmypdf (doc_id d)] ++ t)%list).
Proof.
  split; [vm_compute; discriminate|].
  apply (pdf_extraction_paths 5 bill_pdf (Some "t1") (st_init [ADefault; ADefault] None)
           ADefault ADefault []); [vm_compute; discriminate | reflexivity | reflexivity
                                  | reflexivity].
Defined.

(** Claim C7 (counterexample): a document classified as a bill earlier
    and marked paid keeps its bill status and due date when
    [process_ai_analysis] reclassifies it as "correspondence". *)
Lemma bill_fields_cleared_on_reclassification_counterexample :
  str_in (document_type doc_paid_bill) BILLABLE = true
  /\ fst (process_ai_analysis (db_of doc_paid_bill) "d2"
            (st_init reclassify_script (Some job_new))) = Ret tt
  /\ document_type (cur_doc (snd (process_ai_analysis (db_of doc_paid_bill) "d2"
            (st_init reclassify_script (Some job_new))))) = "correspondence"
  /\ bill_status (cur_doc (snd (process_ai_analysis (db_of doc_paid_bill) "d2"
            (st_init reclassify_script (Some job_new))))) = Some "paid"
  /\ bill_due_date (cur_doc (snd (process_ai_analysis (db_of doc_paid_bill) "d2"
            (st_init reclassify_script (Some job_new))))) = Some "2026-01-31".
Proof. repeat split; vm_compute; reflexivity. Qed.

(** Claim C7 (amended): when the classification result is not billable
    (not bill/invoice), the block both stages run ([apply_ai_result])
    stores the new type and clears the bill status and due date only if
    the status was "unpaid"; any other status ("paid", "dismissed", none)
    and its due date are kept. *)
Theorem non_billable_clears_only_unpaid (d : document) (r : ai_result) :
  str_in (res_document_type r) BILLABLE = false ->
  document_type (apply_ai_result d r) = res_document_type r
  /\ (bill_status d = Some "unpaid" ->
      bill_status (apply_ai_result d r) = None /\ bill_due_date (apply_ai_result d r) = None)
  /\ (bill_status d <> Some "unpaid" ->
      bill_status (apply_ai_result d r) = bill_status d
      /\ bill_due_date (apply_ai_result d r) = bill_due_date d).
Proof.
  intro Hb. unfold apply_ai_result. rewrite Hb. simpl.
  destruct (bill_status d) as [b|] eqn:B.
  - destruct (String.eqb_spec b "unpaid") as [->|Hne]; simpl.
    + split; [reflexivity|]. split; [auto|]. intro H. contradiction.
    + split; [reflexivity|]. split; [intro H; injection H; contradiction|]. auto.
  - simpl. split; [reflexivity|]. split; [discriminate|]. auto.
Qed.

Lemma non_billable_clears_only_unpaid_witness :
  str_in (res_document_type (mkAIResult "Letter" "correspondence" [] None)) BILLABLE = false
  /\ document_type (apply_ai_result doc_paid_bill (mkAIResult "Letter" "correspondence" [] None))
     = "correspondence"
  /\ (bill_status doc_paid_bill = Some "unpaid" ->
      bill_status (apply_ai_result doc_paid_bill (mkAIResult "Letter" "correspondence" [] None))
        = None
      /\ bill_due_date (apply_ai_result doc_paid_bill
                          (mkAIResult "Letter" "correspondence" [] None)) = None)
  /\ (bill_status doc_paid_bill <> Some "unpaid" ->
      bill_status (apply_ai_result doc_paid_bill (mkAIResult "Letter" "correspondence" [] None))
        = bill_status doc_paid_bill
      /\ bill_due_date (apply_ai_result doc_paid_bill
                          (mkAIResult "Letter" "correspondence" [] None))
        = bill_due_date doc_paid_bill).
Proof.
  split; [reflexivity|].
  apply (non_billable_clears_only_unpaid doc_paid_bill
           (mkAIResult "Letter" "correspondence" [] None)). reflexivity.
Defined.

(** Claim C8: [update_job_progress] only caps the percent at 100
    ([min(progress, 100)]); a negative percent is stored as given, so the
    stored progress can leave [0, 100] (here -5). *)
Theorem update_job_progress_no_lower_clamp (p : Z) :
  option_map progress (job (snd (update_job_progress p (Some Jprocessing)
                                   (st_init [] (Some job_new))))) = Some (Z.min p 100)
  /\ option_map progress (job (snd (update_job_progress (-5) (Some Jprocessing)
                                   (st_init [] (Some job_new))))) = Some (-5)%Z
  /\ option_map progress (job (snd (update_job_progress 150 (Some Jprocessing)
                                   (st_init [] (Some job_new))))) = Some 100%Z.
Proof.
  split; [apply (update_job_progress_stored p _ job_new); reflexivity|].
  split; vm_compute; reflexivity.
Qed.

(** Claim C10: the counters of a batch event can disagree: when the
    delete of the skip flag in the skip handler fails, the skipped count
    has been incremented but the document is never counted as processed,
    and the terminal event reports processed = 0 with skipped = 1. *)
Theorem batch_counters_after_store_failure :
  fst (batch_reprocess_task 5 (db_of doc_scanned) "t1" "u1" "ocr" ["d1"]
         (st_init skip_then_store_failure None))
    = Ret (CompletedResult (mkStats 0 0 0 1 [("(fatal)", ErrExn (Ext ConnectionError))]) 1)
  /\ In (AEmit (EvReprocessCompleted "t1" "u1"
                  (mkStats 0 0 0 1 [("(fatal)", ErrExn (Ext ConnectionError))]) 1 SCompleted))
        (trace (snd (batch_reprocess_task 5 (db_of doc_scanned) "t1" "u1" "ocr" ["d1"]
                       (st_init skip_then_store_failure None))))
  /\ batch_events_consistent
       (trace (snd (batch_reprocess_task 5 (db_of doc_scanned) "t1" "u1" "ocr" ["d1"]
                      (st_init skip_then_store_failure None)))) = false.
Proof.
  split; [vm_compute; reflexivity|].
  split; [|vm_compute; reflexivity].
  vm_compute. repeat (first [left; reflexivity | right]).
Qed.

(** ** The batch functions append only *)

Lemma eo_poll_loop al task_id n :
  (forall k, al (ARedis (RGet k)) = true) -> al AKillOcr = true ->
  (forall x, al (ALog (LogOcrSkipped x)) = true) ->
  emits_only al (poll_loop task_id n).
Proof.
  intros H1 H2 H3. induction n as [|n IH]; simpl; [apply eo_diverge|].
  apply eo_bind; [apply eo_next|]. intros a.
  destruct a; try apply eo_ret;
    (apply eo_bind;
     [ destruct task_id as [t|]; [destruct (String.eqb t ""); [apply eo_ret|]|apply eo_ret];
       unfold should_skip, redis_get; eo_base
     | intros sk; destruct sk; [|exact IH]; eo_base ]).
Qed.

Lemma eo_pause_loop al task_id user_id total n :
  (forall k, al (ARedis (RGet k)) = true) ->
  (forall ev, al (AEmit ev) = true) -> (forall ev, al (APublished ev) = true) ->
  (forall tp, al (ALog (LogPublishFailed tp)) = true) ->
  emits_only al (pause_loop task_id user_id total n).
Proof.
  intros H1 H2 H3 H4. induction n as [|n IH]; simpl; [apply eo_diverge|].
  repeat first
    [ exact IH
    | apply eo_publish_event; auto
    | progress unfold is_paused, is_cancelled, publish_progress, redis_get
    | eo_base_step ].
Qed.

Ltac eo_batch :=
  repeat first
    [ match goal with
      | |- emits_only _ (poll_loop _ _) => apply eo_poll_loop; intros; reflexivity
      | |- emits_only _ (pause_loop _ _ _ _) => apply eo_pause_loop; intros; reflexivity
      | |- emits_only _ (analyze_call _) => apply eo_analyze_call; intros; reflexivity
      | |- emits_only _ (tag_loop _) => apply eo_tag_loop; intros; reflexivity
      | |- emits_only _ (redis_get _) => unfold redis_get
      | |- emits_only _ (is_paused _) => unfold is_paused
      | |- emits_only _ (is_cancelled _) => unfold is_cancelled
      | |- emits_only _ (should_skip _) => unfold should_skip
      | |- emits_only _ get_active_task => unfold get_active_task
      | |- emits_only _ (set_active_task _) => unfold set_active_task
      | |- emits_only _ (redis_delete _) => unfold redis_delete
      | |- emits_only _ (redis_set _ _) => unfold redis_set
      | |- emits_only _ (clear_skip _) => unfold clear_skip
      | |- emits_only _ (cleanup_keys _) => unfold cleanup_keys
      | |- emits_only _ (publish_progress _ _ _ _ _) => unfold publish_progress
      | |- emits_only _ (run_stage _ _ _ _) => unfold run_stage
      | |- emits_only _ (_run_ocr _ _ _) => unfold _run_ocr
      | |- emits_only _ (_process_pdf _ _ _) => unfold _process_pdf
      | |- emits_only _ _process_image => unfold _process_image
      | |- emits_only _ _run_ai_analysis => unfold _run_ai_analysis
      end
    | match goal with
      | |- emits_only _ (ext_call _) => apply eo_ext_call; reflexivity
      | |- emits_only _ (publish_event _) => apply eo_publish_event; reflexivity
      | |- emits_only _ ext_step => apply eo_ext_step
      | |- emits_only _ db_commit => unfold db_commit
      | |- emits_only _ update_search_vector => unfold update_search_vector
      end
    | eo_base_step ].

Lemma eo_run_stage_quiet fuel task_id job_type f :
  emits_only no_del_or_error (run_stage fuel task_id job_type f).
Proof. eo_batch. Qed.

Lemma eo_run_ai_analysis_nso : emits_only no_ocr_skipped _run_ai_analysis.
Proof. eo_batch. Qed.

(** ** The skip flag ([skip_scan]) *)

Lemma skip_step_neutral task_id a :
  no_ocr_skipped a = true -> skip_step task_id SkIdle a = Some SkIdle.
Proof.
  intros H. destruct a as [c| | |l| | | | | | | |]; simpl in *; try reflexivity.
  destruct l; try reflexivity. discriminate.
Qed.

Lemma str_in_skip_key task_id ks :
  In (SKIP_KEY_PREFIX ++ task_id) ks -> str_in (SKIP_KEY_PREFIX ++ task_id) ks = true.
Proof.
  intros H. unfold str_in. apply existsb_exists. exists (SKIP_KEY_PREFIX ++ task_id).
  split; [exact H | apply String.eqb_refl].
Qed.

Lemma sh_bind_modify_stats {S B} (step : S -> action -> option S) g (k : unit -> M B) P Q :
  shoare step P (k tt) Q -> shoare step P (bind (modify_stats g) k) Q.
Proof. intros H s x Hx. exact (H _ x Hx). Qed.

(** A pending skip flag stays pending on a trace without deletes. *)
Lemma scan_pending_stays task_id t p :
  forallb no_del_or_error t = true -> skip_scan task_id SkPending t = Some p -> p = SkPending.
Proof.
  unfold skip_scan. induction t as [|a r IH]; simpl; intros Hd Hs.
  - congruence.
  - apply andb_true_iff in Hd as [Ha Hr].
    destruct a as [c| | |l| | | | | | | |]; simpl in *; try discriminate.
    + destruct c; simpl in *; discriminate.
    + destruct l; simpl in *; try discriminate. apply IH; assumption.
Qed.

(** Once the skip is raised, a trace without deletes or error logs is
    either empty or starts with the removal of the temporary file, and
    leaves the flag pending. *)
Lemma scan_raised_next task_id v y :
  forallb no_del_or_error v = true -> skip_scan task_id SkRaised v = Some y ->
  (v = [] /\ y = SkRaised)
  \/ (exists v', v = AExternal "unlink tmp_path" :: v' /\ y = SkPending).
Proof.
  unfold skip_scan. destruct v as [|a r]; simpl; intros Hd Hs.
  - left. split; congruence.
  - right. apply andb_true_iff in Hd as [Ha Hr].
    destruct a as [c| | |l| | | | | | | | w]; simpl in *; try discriminate.
    + destruct l; simpl in *; discriminate.
    + destruct (String.eqb w "unlink tmp_path") eqn:W; [|discriminate].
      apply String.eqb_eq in W. subst w. exists r. split; [reflexivity|].
      exact (scan_pending_stays task_id r y Hr Hs).
Qed.

(** Without deletes or error logs the flag never returns to [SkIdle]
    once a skip is observed. *)
Lemma scan_quiet_not_idle task_id t ph y :
  forallb no_del_or_error t = true -> ph <> SkIdle ->
  skip_scan task_id ph t = Some y -> y <> SkIdle.
Proof.
  intros Hd Hph Hs. destruct ph; [congruence| |].
  - destruct (scan_raised_next task_id t y Hd Hs) as [[_ ->]|[v [_ ->]]]; discriminate.
  - rewrite (scan_pending_stays task_id t y Hd Hs). discriminate.
Qed.

(** An observed skip splits a scanned trace at the skip log, from which
    the rest is scanned in [SkRaised]. *)
Lemma skip_scan_split task_id t y x :
  skip_scan task_id SkIdle t = Some y -> In (ALog (LogOcrSkipped x)) t ->
  exists u v, t = (u ++ ALog (LogOcrSkipped x) :: v)%list
              /\ skip_scan task_id SkRaised v = Some y.
Proof.
  intros Hs Hin. apply in_split in Hin as [u [v ->]]. exists u, v. split; [reflexivity|].
  unfold skip_scan in *. rewrite scan_app in Hs.
  destruct (scan (skip_step task_id) SkIdle u) as [[| |]|]; simpl in Hs; congruence.
Qed.

Lemma ext_call_cases what s :
  fst (ext_call what s) = Ret tt \/ exists e, fst (ext_call what s) = Raise (Ext e).
Proof.
  unfold ext_call, bind, next. destruct (script s) as [|a r]; simpl; [auto|].
  destruct (fail_of a); simpl; eauto.
Qed.

Section SkipDiscipline.

Variable task_id : string.

Lemma sk_neutral {A} (m : M A) (X : skip_phase -> res A -> Prop) :
  emits_only no_ocr_skipped m ->
  shoare (skip_step task_id) (fun p => p = SkIdle) m (fun r p => p <> SkIdle -> X p r).
Proof.
  intros Hm. eapply sh_conseq.
  - apply (sh_eo (skip_step task_id) no_ocr_skipped (fun p => p = SkIdle) m Hm).
    intros x a -> Ha. exists SkIdle. split; [apply skip_step_neutral, Ha | reflexivity].
  - auto.
  - simpl. intros r x -> H. congruence.
Qed.

Lemma sk_bind_gen {A B} (P : skip_phase -> Prop) (m : M A) (k : A -> M B)
  (X : skip_phase -> res A -> Prop) (Y : skip_phase -> res B -> Prop) :
  shoare (skip_step task_id) P m (fun r p => p <> SkIdle -> X p r) ->
  (forall p a, ~ X p (Ret a)) ->
  (forall p e, X p (Raise e) -> Y p (Raise e)) -> (forall p, X p Diverge -> Y p Diverge) ->
  (forall a, shoare (skip_step task_id) (fun p => p = SkIdle) (k a)
               (fun r p => p <> SkIdle -> Y p r)) ->
  shoare (skip_step task_id) P (bind m k) (fun r p => p <> SkIdle -> Y p r).
Proof.
  intros Hm HX HR HD Hk. eapply sh_bind; [exact Hm| | |].
  - intros a. eapply sh_conseq; [exact (Hk a)| |auto].
    simpl. intros x Hx. destruct x; [reflexivity| |];
      exfalso; exact (HX _ a (Hx ltac:(discriminate))).
  - simpl. auto.
  - simpl. auto.
Qed.

Lemma sk_bind_neutral {A B} (m : M A) (k : A -> M B) (Y : skip_phase -> res B -> Prop) :
  emits_only no_ocr_skipped m ->
  (forall a, shoare (skip_step task_id) (fun p => p = SkIdle) (k a)
               (fun r p => p <> SkIdle -> Y p r)) ->
  shoare (skip_step task_id) (fun p => p = SkIdle) (bind m k)
    (fun r p => p <> SkIdle -> Y p r).
Proof.
  intros Hm Hk. apply sk_bind_gen with (X := fun _ _ => False).
  - apply sk_neutral, Hm.
  - intros p a [].
  - intros p e [].
  - intros p [].
  - exact Hk.
Qed.

Lemma sk_modify g (Y : skip_phase -> res unit -> Prop) :
  shoare (skip_step task_id) (fun p => p = SkIdle) (modify_stats g)
    (fun r p => p <> SkIdle -> Y p r).
Proof.
  intros s x Hx. exists [], x. simpl. rewrite app_nil_r.
  split; [reflexivity | split; [reflexivity | intros H; congruence]].
Qed.

(** A delete of a key list containing the skip key clears the flag when it
    succeeds, from [SkIdle] or [SkPending]. *)
Lemma sk_delete {B} ks (k : unit -> M B) (Y : skip_phase -> res B -> Prop) :
  In (SKIP_KEY_PREFIX ++ task_id) ks ->
  (forall e, Y SkPending (Raise (Ext e))) ->
  shoare (skip_step task_id) (fun p => p = SkIdle) (k tt) (fun r p => p <> SkIdle -> Y p r) ->
  shoare (skip_step task_id) (fun p => p = SkIdle \/ p = SkPending) (bind (redis_delete ks) k)
    (fun r p => p <> SkIdle -> Y p r).
Proof.
  intros Hks HY Hk.
  eapply sh_bind with
    (Q := fun r p => (r = Ret tt /\ p = SkIdle)
                     \/ (exists e, r = Raise (Ext e) /\ (p = SkIdle \/ p = SkPending))).
  - unfold redis_delete. apply sh_ext_call.
    + intros x Hx. exists SkIdle. split; [|left; auto].
      destruct Hx as [->| ->]; [reflexivity|].
      unfold skip_step. cbv beta iota.
      rewrite (str_in_skip_key task_id ks Hks). reflexivity.
    + intros e x Hx. right. eauto.
  - intros []. eapply sh_conseq; [exact Hk| |auto].
    intros x [[_ H]|[e [H _]]]; [exact H|discriminate].
  - intros e x H Ht. destruct H as [[H _]|[e' [H Hp]]]; [discriminate|].
    injection H as ->. destruct Hp as [->| ->]; [congruence | apply HY].
  - intros x [[H _]|[e [H _]]]; discriminate.
Qed.

Ltac sk_solve :=
  repeat first
    [ apply sk_neutral; solve [eo_batch]
    | match goal with
      | |- shoare _ _ (bind (modify_stats _) _) _ => apply sh_bind_modify_stats
      | |- shoare _ _ (modify_stats _) _ => apply sk_modify
      | |- shoare _ _ (bind ?m _) _ => apply sk_bind_neutral; [solve [eo_batch] | intros]
      | |- shoare _ _ (let _ := _ in _) _ => cbv zeta
      | |- shoare _ _ (match ?x with _ => _ end) _ => destruct x
      | |- shoare _ _ (if ?x then _ else _) _ => destruct x
      end ].

Lemma sk_poll_loop topt n :
  shoare (skip_step task_id) (fun p => p = SkIdle) (poll_loop topt n)
    (fun r p => p <> SkIdle -> p = SkRaised /\ r = Raise SkipDocument).
Proof.
  induction n as [|n IH]; simpl.
  - apply sk_neutral; apply eo_diverge.
  - apply sk_bind_neutral; [apply eo_next|]. intros a.
    destruct a; try (apply sk_neutral; apply eo_ret);
    (apply sk_bind_neutral;
     [ destruct topt as [t|]; [destruct (String.eqb t ""); [apply eo_ret|]|apply eo_ret];
       eo_batch
     | intros b; destruct b; [|exact IH] ]);
    (apply sk_bind_neutral; [apply eo_get_doc|intros d];
     apply sk_bind_neutral; [apply eo_emit; reflexivity|intros u];
     eapply sh_bind with (Q := fun r p => r = Ret tt /\ p = SkRaised);
     [ apply sh_emit; intros x ->; exists SkRaised; split; [reflexivity | split; reflexivity]
     | intros u'; apply sh_raise; intros x [_ ->] _; split; reflexivity
     | intros e' x [H _]; discriminate
     | intros x [H _]; discriminate ]).
Qed.

(** In [_process_pdf] an observed skip either propagates after the removal
    of the temporary file, or is replaced by the failure of that removal. *)
Lemma sk_process_pdf fuel f topt :
  shoare (skip_step task_id) (fun p => p = SkIdle) (_process_pdf fuel f topt)
    (fun r p => p <> SkIdle -> skip_outcome p r).
Proof.
  unfold _process_pdf.
  apply sk_bind_neutral; [eo_batch|]. intros found.
  destruct found; [apply sk_neutral; apply eo_ret|].
  apply sk_bind_neutral; [eo_batch|intros u0].
  apply sk_bind_gen with (X := skip_outcome);
    [| intros p a; destruct p; simpl; [tauto | intros [e H]; discriminate | discriminate]
     | auto | auto | intros u; apply sk_neutral; eo_batch].
  eapply sh_try_finally
    with (Q := fun r p => p <> SkIdle -> p = SkRaised /\ r = Raise SkipDocument).
  - eapply sh_try_except
      with (Q := fun r p => p <> SkIdle -> p = SkRaised /\ r = Raise SkipDocument).
    + apply sk_bind_neutral; [apply eo_get_doc|intros d].
      apply sk_bind_neutral; [eo_batch|intros u].
      apply sk_bind_gen with (X := fun p r => p = SkRaised /\ r = Raise SkipDocument);
        [apply sk_poll_loop | intros p a [_ H]; discriminate
         | intros p e [Hp H]; injection H as ->; auto | intros p [_ H]; discriminate |].
      intros code. apply sk_neutral. eo_batch.
    + intros e. destruct e.
      * apply sh_raise. intros x Hx. exact Hx.
      * apply sh_ret. intros x Hx Ht. destruct (Hx Ht) as [_ H]. discriminate.
      * apply sh_ret. intros x Hx Ht. destruct (Hx Ht) as [_ H]. discriminate.
    + intros a x Hx. exact Hx.
    + intros x Hx. exact Hx.
  - intros r _. apply sh_ext_call.
    + intros x Hx. destruct x.
      * exists SkIdle. split; [reflexivity | congruence].
      * destruct (Hx ltac:(discriminate)) as [_ ->].
        exists SkPending. split; [reflexivity | intros _; reflexivity].
      * destruct (Hx ltac:(discriminate)) as [H _]. discriminate.
    + intros e x Hx Hn. destruct x; [congruence | simpl; eauto |].
      destruct (Hx Hn) as [H _]. discriminate.
  - intros x Hx Hn. destruct (Hx Hn) as [_ H]. discriminate.
Qed.

Lemma sk_run_stage fuel job_type f :
  shoare (skip_step task_id) (fun p => p = SkIdle) (run_stage fuel task_id job_type f)
    (fun r p => p <> SkIdle -> skip_outcome p r).
Proof.
  unfold run_stage. destruct (String.eqb job_type "ocr").
  - unfold _run_ocr. apply sk_bind_neutral; [apply eo_get_doc|intros d]. cbv zeta.
    destruct (String.eqb (mime_type d) "application/pdf"); [apply sk_process_pdf|].
    apply sk_neutral. eo_batch.
  - destruct (String.eqb job_type "ai"); apply sk_neutral;
      [apply eo_run_ai_analysis_nso | apply eo_ret].
Qed.

Lemma skip_outcome_not_ret {A} p (a : A) : ~ skip_outcome p (Ret a).
Proof. destruct p; simpl; [tauto | intros [e H]; discriminate | discriminate]. Qed.

Lemma sk_stage_block fuel job_type name doc_id f :
  shoare (skip_step task_id) (fun p => p = SkIdle)
    (stage_block fuel task_id job_type name doc_id f)
    (fun r p => p <> SkIdle -> skip_blocked p r).
Proof.
  unfold stage_block.
  eapply sh_try_except with (Q := fun r p => p <> SkIdle -> skip_outcome p r).
  - apply sk_bind_neutral; [eo_batch|intros u].
    apply sk_bind_gen with (X := skip_outcome);
      [apply sk_run_stage | apply skip_outcome_not_ret | auto | auto |].
    intros u'. apply sk_modify.
  - intros e. destruct e as [| msg | e].
    + eapply sh_conseq with (P := fun p => p = SkIdle \/ p = SkPending)
        (Q := fun r p => p <> SkIdle -> skip_blocked p r).
      * apply sh_bind_modify_stats. unfold clear_skip. apply sk_delete.
        -- simpl. auto.
        -- intros e0. split; [reflexivity | intros a H; discriminate].
        -- apply sk_neutral. eo_batch.
      * intros x Hx. destruct x; auto. destruct (Hx ltac:(discriminate)) as [e H]. discriminate.
      * auto.
    + eapply sh_conseq with (P := fun p => p = SkIdle)
        (Q := fun r p => p <> SkIdle -> skip_blocked p r).
      * sk_solve.
      * intros x Hx. destruct x; [reflexivity| |]; specialize (Hx ltac:(discriminate));
          simpl in Hx; [destruct Hx as [e H]|]; discriminate.
      * auto.
    + apply sh_bind_modify_stats. apply sh_bind_modify_stats. apply sh_emit.
      intros x Hx. exists SkIdle. split; [|congruence].
      destruct x; [reflexivity | reflexivity |].
      specialize (Hx ltac:(discriminate)). discriminate.
  - intros a x Hx Hn. exfalso. exact (skip_outcome_not_ret x a (Hx Hn)).
  - intros x Hx Hn. specialize (Hx Hn). destruct x; simpl in Hx;
      [tauto | destruct Hx as [e H] | ]; discriminate.
Qed.
Lemma sk_process_one fuel db user_id job_type total doc_id :
  shoare (skip_step task_id) (fun p => p = SkIdle)
    (process_one fuel db task_id user_id job_type total doc_id)
    (fun r p => p <> SkIdle -> skip_blocked p r).
Proof.
  unfold process_one.
  repeat first
    [ apply sk_neutral; solve [eo_batch]
    | match goal with
      | |- shoare _ _ (bind (stage_block _ _ _ _ _ _) _) _ =>
          apply sk_bind_gen with (X := skip_blocked);
          [ apply sk_stage_block | intros ? ? [_ H]; exact (H _ eq_refl)
          | intros ? ? [? _]; split; [assumption | intros ? ?; discriminate]
          | intros ? [? _]; split; [assumption | intros ? ?; discriminate]
          | intros ]
      end
    | match goal with
      | |- shoare _ _ (bind (modify_stats _) _) _ => apply sh_bind_modify_stats
      | |- shoare _ _ (modify_stats _) _ => apply sk_modify
      | |- shoare _ _ (bind ?m _) _ => apply sk_bind_neutral; [solve [eo_batch] | intros]
      | |- shoare _ _ (let _ := _ in _) _ => cbv zeta
      | |- shoare _ _ (match ?x with _ => _ end) _ => destruct x
      | |- shoare _ _ (if ?x then _ else _) _ => destruct x
      end ].
Qed.

Lemma sk_batch_loop fuel db user_id job_type total ids :
  shoare (skip_step task_id) (fun p => p = SkIdle)
    (batch_loop fuel db task_id user_id job_type total ids)
    (fun r p => p <> SkIdle -> skip_blocked p r).
Proof.
  induction ids as [|id rest IH]; simpl.
  - apply sk_neutral. apply eo_ret.
  - apply sk_bind_gen with (X := skip_blocked);
      [ apply sk_process_one | intros p a [_ H]; exact (H a eq_refl)
      | intros p e [Hp _]; split; [exact Hp | intros a H; discriminate]
      | intros p [Hp _]; split; [exact Hp | intros a H; discriminate] | ].
    intros c. destruct c; [exact IH | apply sk_neutral; apply eo_ret].
Qed.

Lemma sk_batch_run fuel db user_id job_type ids :
  shoare (skip_step task_id) (fun p => p = SkIdle)
    (batch_run fuel db task_id user_id job_type ids) (fun r p => p <> SkIdle -> True).
Proof.
  unfold batch_run.
  apply sk_bind_neutral; [eo_batch|intros u]. cbv zeta.
  apply sh_bind_modify_stats.
  apply sk_bind_gen with (X := fun _ r => forall a, r <> Ret a);
    [ | intros p a H; exact (H a eq_refl) | auto | auto | intros r; destruct r; sk_solve ].
  eapply sh_try_finally with (Q := fun _ p => p = SkIdle \/ p = SkPending).
  - eapply sh_try_except with (Q := fun r p => p <> SkIdle -> skip_blocked p r).
    + apply sk_bind_neutral; [eo_batch|intros u']. apply sk_batch_loop.
    + intros e.
      eapply sh_bind with (Q := fun _ p => p = SkIdle \/ p = SkPending); [| | auto | auto].
      * apply sh_emit. intros x Hx. exists x. destruct x.
        -- split; [reflexivity | auto].
        -- destruct (Hx ltac:(discriminate)) as [H _]. discriminate.
        -- split; [reflexivity | auto].
      * intros u'. apply sh_bind_modify_stats. apply sh_ret. auto.
    + intros a x Hx. destruct x; auto; exfalso;
        destruct (Hx ltac:(discriminate)) as [_ H]; exact (H a eq_refl).
    + intros x Hx. destruct x; auto. destruct (Hx ltac:(discriminate)) as [H _]. discriminate.
  - intros r _.
    eapply sh_conseq with (P := fun p => p = SkIdle \/ p = SkPending)
      (Q := fun r' p => p <> SkIdle -> skip_blocked p r'); [| auto |].
    + unfold cleanup_keys. apply sk_delete.
      * simpl. auto.
      * intros e0. split; [reflexivity | intros a H; discriminate].
      * apply sk_neutral. eo_batch.
    + intros r' x H. destruct r' as [a|e|].
      * intros Ht. exfalso. destruct (H Ht) as [_ H']. exact (H' a eq_refl).
      * intros _ a He. discriminate.
      * intros _ a He. discriminate.
  - intros x _ _ a H. discriminate.
Qed.

Lemma sk_batch_reprocess_task fuel db user_id job_type ids :
  shoare (skip_step task_id) (fun p => p = SkIdle)
    (batch_reprocess_task fuel db task_id user_id job_type ids)
    (fun r p => p <> SkIdle -> True).
Proof.
  unfold batch_reprocess_task.
  apply sk_bind_neutral; [eo_batch|intros existing].
  destruct existing as [e|]; [destruct (negb (String.eqb e task_id))|];
    first [apply sk_batch_run | apply sk_neutral; eo_batch].
Qed.

End SkipDiscipline.

(** ** The outcome of a skipped document *)

Lemma try_except_run {A} (m : M A) h s :
  try_except m h s = match m s with (Raise e, s') => h e s' | r => r end.
Proof. reflexivity. Qed.

Lemma bind_run {A B} (m : M A) (k : A -> M B) s :
  bind m k s = match m s with
               | (Ret a, s') => k a s'
               | (Raise e, s') => (Raise e, s')
               | (Diverge, s') => (Diverge, s')
               end.
Proof. reflexivity. Qed.

Lemma not_in_no_ocr_skipped t x :
  forallb no_ocr_skipped t = true -> ~ In (ALog (LogOcrSkipped x)) t.
Proof.
  intros H Hin. rewrite forallb_forall in H. specialize (H _ Hin). discriminate.
Qed.

Lemma eo_clear_skip task_id : emits_only no_ocr_skipped (clear_skip task_id).
Proof. eo_batch. Qed.

(** The handlers of the guarded stage run. *)
Lemma skip_handler_run task_id doc_id s :
  exists t3,
    trace (snd ((modify_stats incr_skipped ;; clear_skip task_id ;;
                 emit (ALog (LogSkippedDocument doc_id))) s)) = (trace s ++ t3)%list
    /\ forallb no_ocr_skipped t3 = true
    /\ stats (snd ((modify_stats incr_skipped ;; clear_skip task_id ;;
                    emit (ALog (LogSkippedDocument doc_id))) s)) = incr_skipped (stats s).
Proof.
  assert (H : emits_only no_ocr_skipped
                (clear_skip task_id ;; emit (ALog (LogSkippedDocument doc_id))))
    by eo_batch.
  destruct (H (snd (modify_stats incr_skipped s))) as [t3 [E [F S]]].
  exists t3.
  change ((modify_stats incr_skipped ;; clear_skip task_id ;;
           emit (ALog (LogSkippedDocument doc_id))) s)
    with ((clear_skip task_id ;; emit (ALog (LogSkippedDocument doc_id)))
            (snd (modify_stats incr_skipped s))).
  rewrite E, S. auto.
Qed.

Lemma error_handler_run name doc_id e s :
  trace (snd ((modify_stats incr_failed ;; modify_stats (add_error name (ErrExn e)) ;;
               emit (ALog (LogReprocessError doc_id))) s))
    = (trace s ++ [ALog (LogReprocessError doc_id)])%list
  /\ stats (snd ((modify_stats incr_failed ;; modify_stats (add_error name (ErrExn e)) ;;
                  emit (ALog (LogReprocessError doc_id))) s))
    = add_error name (ErrExn e) (incr_failed (stats s)).
Proof. split; reflexivity. Qed.

(** The stage run observes the skip only through [skip_outcome]: the
    actions after the skip log are scanned from [SkRaised]. *)
Lemma run_stage_observed_skip fuel task_id job_type f s t x :
  trace (snd (run_stage fuel task_id job_type f s)) = (trace s ++ t)%list ->
  In (ALog (LogOcrSkipped x)) t ->
  exists u v y, t = (u ++ ALog (LogOcrSkipped x) :: v)%list
    /\ forallb no_del_or_error v = true
    /\ skip_scan task_id SkRaised v = Some y
    /\ skip_outcome y (fst (run_stage fuel task_id job_type f s)).
Proof.
  intros Ht Hin.
  destruct (eo_run_stage_quiet fuel task_id job_type f s) as [t2 [E2 [F2 _]]].
  destruct (sk_run_stage task_id fuel job_type f s SkIdle eq_refl) as [t2' [p [E2' [Sc Q]]]].
  rewrite E2 in Ht, E2'. apply app_inv_head in Ht. apply app_inv_head in E2'.
  subst t2 t2'.
  destruct (skip_scan_split task_id t p x Sc Hin) as [u [v [-> Sv]]].
  rewrite forallb_app in F2. simpl in F2. apply andb_true_iff in F2 as [_ F2].
  exists u, v, p. split; [reflexivity|]. split; [exact F2|]. split; [exact Sv|].
  apply Q. exact (scan_quiet_not_idle task_id v SkRaised p F2 ltac:(discriminate) Sv).
Qed.

(** A document whose stage run logs a skip is counted skipped when the
    removal of the temporary file that follows the skip log succeeds, and
    counted failed, with the error of that removal, when it fails. *)
Lemma stage_block_skip_outcome fuel task_id job_type name doc_id f s0 t x :
  trace (snd (stage_block fuel task_id job_type name doc_id f s0)) = (trace s0 ++ t)%list ->
  In (ALog (LogOcrSkipped x)) t ->
  (stats (snd (stage_block fuel task_id job_type name doc_id f s0)) = incr_skipped (stats s0)
   /\ exists u v, t = (u ++ ALog (LogOcrSkipped x) :: AExternal "unlink tmp_path" :: v)%list)
  \/ (exists e,
        stats (snd (stage_block fuel task_id job_type name doc_id f s0))
          = add_error name (ErrExn (Ext e)) (incr_failed (stats s0))
        /\ exists u v,
             t = (u ++ ALog (LogOcrSkipped x) :: ALog (LogReprocessError doc_id) :: v)%list).
Proof.
  unfold stage_block. rewrite try_except_run, bind_run.
  assert (RC : fst (clear_skip task_id s0) = Ret tt
               \/ exists e, fst (clear_skip task_id s0) = Raise (Ext e))
    by apply ext_call_cases.
  destruct (eo_clear_skip task_id s0) as [t1 [E1 [F1 S1]]].
  destruct (clear_skip task_id s0) as [r1 s1] eqn:C1. simpl in E1, S1, RC.
  destruct RC as [-> | [e ->]].
  - rewrite bind_run.
    pose proof (run_stage_observed_skip fuel task_id job_type f s1) as RS.
    destruct (eo_run_stage_quiet fuel task_id job_type f s1) as [t2 [E2 [_ S2]]].
    destruct (run_stage fuel task_id job_type f s1) as [r2 s2] eqn:C2.
    simpl in E2, S2, RS.
    assert (Hin2 : forall t', (trace s2 ++ t')%list = (trace s0 ++ t)%list ->
              forallb no_ocr_skipped t' = true -> In (ALog (LogOcrSkipped x)) t ->
              In (ALog (LogOcrSkipped x)) t2 /\ t = (t1 ++ t2 ++ t')%list).
    { intros t' Ht Ft Hin. rewrite E2, E1, <- !app_assoc in Ht.
      apply app_inv_head in Ht. subst t. split; [|reflexivity].
      apply in_app_iff in Hin as [Hin|Hin];
        [exact (match not_in_no_ocr_skipped _ _ F1 Hin with end)|].
      apply in_app_iff in Hin as [Hin|Hin];
        [exact Hin | exact (match not_in_no_ocr_skipped _ _ Ft Hin with end)]. }
    destruct r2 as [a|e|]; cbv beta iota.
    + intros Ht Hin. exfalso.
      assert (Ht' : (trace s2 ++ [])%list = (trace s0 ++ t)%list)
        by (rewrite app_nil_r; exact Ht).
      destruct (Hin2 [] Ht' eq_refl Hin) as [H2 _].
      destruct (RS t2 x E2 H2) as [u [v [y [_ [_ [_ Hy]]]]]].
      exact (skip_outcome_not_ret y a Hy).
    + destruct e as [| msg | e].
      * destruct (skip_handler_run task_id doc_id s2) as [t3 [E3 [F3 S3]]].
        rewrite E3, S3, S2, S1. intros Ht Hin. left. split; [reflexivity|].
        destruct (Hin2 t3 Ht F3 Hin) as [H2 ->].
        destruct (RS t2 x E2 H2) as [u [v [y [-> [Fv [Sv Hy]]]]]].
        destruct (scan_raised_next task_id v y Fv Sv) as [[-> ->]|[v' [-> ->]]].
        -- destruct Hy as [e' H]. discriminate.
        -- exists (t1 ++ u)%list, (v' ++ t3)%list. rewrite <- !app_assoc. reflexivity.
      * destruct (error_handler_run name doc_id (RuntimeError msg) s2) as [E3 _].
        rewrite E3. intros Ht Hin. exfalso.
        assert (F3 : forallb no_ocr_skipped [ALog (LogReprocessError doc_id)] = true)
          by reflexivity.
        destruct (Hin2 _ Ht F3 Hin) as [H2 _].
        destruct (RS t2 x E2 H2) as [u [v [y [_ [_ [_ Hy]]]]]].
        destruct y; simpl in Hy; [exact Hy | destruct Hy as [e' H] | ]; discriminate.
      * destruct (error_handler_run name doc_id (Ext e) s2) as [E3 S3].
        rewrite E3, S3, S2, S1. intros Ht Hin. right. exists e. split; [reflexivity|].
        assert (F3 : forallb no_ocr_skipped [ALog (LogReprocessError doc_id)] = true)
          by reflexivity.
        destruct (Hin2 _ Ht F3 Hin) as [H2 ->].
        destruct (RS t2 x E2 H2) as [u [v [y [-> [Fv [Sv Hy]]]]]].
        destruct (scan_raised_next task_id v y Fv Sv) as [[-> ->]|[v' [-> ->]]].
        -- exists (t1 ++ u)%list, []. rewrite <- !app_assoc. reflexivity.
        -- discriminate Hy.
    + intros Ht Hin. exfalso.
      assert (Ht' : (trace s2 ++ [])%list = (trace s0 ++ t)%list)
        by (rewrite app_nil_r; exact Ht).
      destruct (Hin2 [] Ht' eq_refl Hin) as [H2 _].
      destruct (RS t2 x E2 H2) as [u [v [y [_ [_ [_ Hy]]]]]].
      destruct y; simpl in Hy; [exact Hy | destruct Hy as [e' H] | ]; discriminate.
  - cbv beta iota.
    destruct (error_handler_run name doc_id (Ext e) s1) as [E3 _].
    rewrite E3, E1, <- app_assoc. intros Ht Hin. exfalso.
    apply app_inv_head in Ht. subst t.
    apply in_app_iff in Hin as [Hin|[Hin|[]]];
      [exact (not_in_no_ocr_skipped _ _ F1 Hin) | discriminate].
Qed.

(** Claim C2: a skip observed while a document's extraction runs is not
    always recorded as a skip. In [_process_pdf] the skip
    ([_SkipDocument]) propagates through the [finally] that removes the
    temporary file; when that removal raises (here an [OSError]), its
    exception replaces the skip, the batch loop's [except Exception]
    handler counts the document as failed, and the skip handler, which
    would clear the skip flag, never runs. Over ["d1"; "d2"], with d1 a
    scanned PDF whose recognition is skipped: d1 is counted failed
    (skipped 0, failed 1, its error recorded), and the first delete of the
    skip key after the skip log is the clear at the start of d2's stage,
    after d2's cancel and pause checks, its lookup and its progress event. *)
Theorem skip_counted_failed_when_cleanup_fails :
  fst (batch_reprocess_task 5 (db_pair doc_scanned doc_paid_bill) "t1" "u1" "ocr" ["d1"; "d2"]
         (st_init skip_then_unlink_failure None))
    = Ret (CompletedResult (mkStats 2 1 1 0 [("scan.pdf", ErrExn (Ext OSError))]) 2)
  /\ exists u v w,
       trace (snd (batch_reprocess_task 5 (db_pair doc_scanned doc_paid_bill) "t1" "u1" "ocr"
                     ["d1"; "d2"] (st_init skip_then_unlink_failure None)))
         = (u ++ ALog (LogOcrSkipped "d1") :: v
              ++ ARedis (RDel [(SKIP_KEY_PREFIX ++ "t1")%string]) :: w)%list
       /\ forallb no_redis_del v = true
       /\ In (ALog (LogReprocessError "d1")) v
       /\ In (ADbQueryDocument "d2") v.
Proof.
  split; [vm_compute; reflexivity|].
  set (tr := trace (snd (batch_reprocess_task 5 (db_pair doc_scanned doc_paid_bill) "t1" "u1"
                           "ocr" ["d1"; "d2"] (st_init skip_then_unlink_failure None)))).
  exists (firstn 18 tr), (firstn 11 (skipn 19 tr)), (skipn 31 tr).
  split; [vm_compute; reflexivity|].
  split; [vm_compute; reflexivity|].
  split; vm_compute; repeat (first [left; reflexivity | right]).
Qed.

(* ------------------------------------------------------------------ *)
(** ** Further properties of the code *)

Lemma scan_const {S} (step : S -> action -> option S) al t y :
  (forall a, al a = true -> step y a = Some y) -> forallb al t = true ->
  scan step y t = Some y.
Proof.
  intros H. induction t as [|a r IH]; simpl; [reflexivity|].
  intros Hall. apply andb_true_iff in Hall as [Ha Hr]. rewrite (H a Ha). auto.
Qed.

Section StoareRules.

Context {S : Type} (step : S -> action -> option S).

Lemma st_conseq {A} (P P' : S -> batch_stats -> Prop) (Q Q' : res A -> S -> batch_stats -> Prop) m :
  stoare step P m Q -> (forall x b, P' x b -> P x b) ->
  (forall r x b, Q r x b -> Q' r x b) -> stoare step P' m Q'.
Proof.
  intros H HP HQ s x Hx. destruct (H s x (HP _ _ Hx)) as [t [y [E [F G]]]].
  exists t, y. auto.
Qed.

Lemma st_eo {A} al (P : S -> batch_stats -> Prop) (m : M A) (Q : res A -> S -> batch_stats -> Prop) :
  emits_only al m ->
  (forall x a b, P x b -> al a = true -> exists y, step x a = Some y /\ P y b) ->
  (forall r x b, P x b -> Q r x b) ->
  stoare step P m Q.
Proof.
  intros Hm Hs HQ s x Hx. destruct (Hm s) as [t [E [F St]]].
  destruct (scan_all step (fun y => P y (stats s)) al t x (fun x a H Ha => Hs x a _ H Ha) F Hx)
    as [y [Y Py]].
  exists t, y. rewrite St. auto.
Qed.

Lemma st_ret {A} (a : A) P (Q : res A -> S -> batch_stats -> Prop) :
  (forall x b, P x b -> Q (Ret a) x b) -> stoare step P (ret a) Q.
Proof. intros H s x Hx. exists [], x. rewrite app_nil_r. auto. Qed.

Lemma st_raise {A} e P (Q : res A -> S -> batch_stats -> Prop) :
  (forall x b, P x b -> Q (Raise e) x b) -> stoare step P (raise e) Q.
Proof. intros H s x Hx. exists [], x. rewrite app_nil_r. auto. Qed.

Lemma st_emit a P (Q : res unit -> S -> batch_stats -> Prop) :
  (forall x b, P x b -> exists y, step x a = Some y /\ Q (Ret tt) y b) ->
  stoare step P (emit a) Q.
Proof.
  intros H s x Hx. destruct (H x _ Hx) as [y [Y Qy]].
  exists [a], y. simpl. rewrite Y. auto.
Qed.

Lemma st_modify_stats g P (Q : res unit -> S -> batch_stats -> Prop) :
  (forall x b, P x b -> Q (Ret tt) x (g b)) -> stoare step P (modify_stats g) Q.
Proof.
  intros H s x Hx. exists [], x. rewrite app_nil_r.
  split; [reflexivity | split; [reflexivity | apply H; exact Hx]].
Qed.

Lemma st_get_stats P (Q : res batch_stats -> S -> batch_stats -> Prop) :
  (forall x b, P x b -> Q (Ret b) x b) -> stoare step P get_stats Q.
Proof.
  intros H s x Hx. exists [], x. rewrite app_nil_r.
  split; [reflexivity | split; [reflexivity | apply H; exact Hx]].
Qed.

Lemma st_bind {A B} P (Q : res A -> S -> batch_stats -> Prop) (R : res B -> S -> batch_stats -> Prop)
  (m : M A) (k : A -> M B) :
  stoare step P m Q ->
  (forall a, stoare step (Q (Ret a)) (k a) R) ->
  (forall e x b, Q (Raise e) x b -> R (Raise e) x b) ->
  (forall x b, Q Diverge x b -> R Diverge x b) ->
  stoare step P (bind m k) R.
Proof.
  intros Hm Hk HR HD s x Hx. unfold bind.
  destruct (Hm s x Hx) as [t1 [y1 [E1 [S1 Q1]]]].
  destruct (m s) as [[a|e|] s'] eqn:Em; simpl in *.
  - destruct (Hk a s' y1 Q1) as [t2 [y2 [E2 [S2 Q2]]]].
    exists (t1 ++ t2)%list, y2. rewrite E2, E1, app_assoc, scan_app, S1. auto.
  - exists t1, y1. auto.
  - exists t1, y1. auto.
Qed.

Lemma st_try_except {A} P (Q R : res A -> S -> batch_stats -> Prop) (m : M A) h :
  stoare step P m Q ->
  (forall e, stoare step (Q (Raise e)) (h e) R) ->
  (forall a x b, Q (Ret a) x b -> R (Ret a) x b) ->
  (forall x b, Q Diverge x b -> R Diverge x b) ->
  stoare step P (try_except m h) R.
Proof.
  intros Hm Hh HR HD s x Hx. unfold try_except.
  destruct (Hm s x Hx) as [t1 [y1 [E1 [S1 Q1]]]].
  destruct (m s) as [[a|e|] s'] eqn:Em; simpl in *.
  - exists t1, y1. auto.
  - destruct (Hh e s' y1 Q1) as [t2 [y2 [E2 [S2 Q2]]]].
    exists (t1 ++ t2)%list, y2. rewrite E2, E1, app_assoc, scan_app, S1. auto.
  - exists t1, y1. auto.
Qed.

Lemma st_try_finally {A} P (Q R : res A -> S -> batch_stats -> Prop) (m : M A) f :
  stoare step P m Q ->
  (forall r, r <> Diverge ->
     stoare step (Q r) f
       (fun r' x b => match r' with
                      | Ret _ => R r x b
                      | Raise e => R (Raise e) x b
                      | Diverge => R Diverge x b
                      end)) ->
  (forall x b, Q Diverge x b -> R Diverge x b) ->
  stoare step P (try_finally m f) R.
Proof.
  intros Hm Hf HD s x Hx. unfold try_finally.
  destruct (Hm s x Hx) as [t1 [y1 [E1 [S1 Q1]]]].
  destruct (m s) as [r s'] eqn:Em; simpl in *.
  destruct r as [a|e|]; [| |exists t1, y1; auto].
  - destruct (Hf (Ret a) ltac:(discriminate) s' y1 Q1) as [t2 [y2 [E2 [S2 Q2]]]].
    exists (t1 ++ t2)%list, y2.
    destruct (f s') as [[u|e'|] s''] eqn:Ef; simpl in *;
      rewrite E2, E1, app_assoc, scan_app, S1; auto.
  - destruct (Hf (Raise e) ltac:(discriminate) s' y1 Q1) as [t2 [y2 [E2 [S2 Q2]]]].
    exists (t1 ++ t2)%list, y2.
    destruct (f s') as [[u|e'|] s''] eqn:Ef; simpl in *;
      rewrite E2, E1, app_assoc, scan_app, S1; auto.
Qed.

Lemma st_publish_event ev P (Q : res unit -> S -> batch_stats -> Prop) :
  (forall x b, P x b -> exists y, step x (AEmit ev) = Some y
     /\ (forall a, is_transport a = true -> step y a = Some y) /\ Q (Ret tt) y b) ->
  stoare step P (publish_event ev) Q.
Proof.
  intros H s x Hx. destruct (H x _ Hx) as [y [Y [Ty Qy]]].
  destruct (publish_event_shape ev s) as [R [St [_ [_ [_ [t [T F]]]]]]].
  exists (AEmit ev :: t), y. rewrite R, St, T. simpl. rewrite Y.
  split; [reflexivity|]. split; [|exact Qy]. apply (scan_const step is_transport); auto.
Qed.

End StoareRules.

Lemma quiet_step x a : quiet a = true -> fatal_step x a = Some x.
Proof.
  intros H. destruct x; [reflexivity|].
  destruct a as [| ev | | l | | | | | | | |]; try reflexivity; try discriminate.
  destruct l; try reflexivity; discriminate.
Qed.

(** A quiet computation keeps any predicate. *)
Lemma ct_quiet {A} (m : M A) P (Q : res A -> bool -> batch_stats -> Prop) :
  emits_only quiet m -> (forall r x b, P x b -> Q r x b) -> stoare fatal_step P m Q.
Proof.
  intros Hm HQ. apply (st_eo fatal_step quiet); auto.
  intros x a b Hx Ha. exists x. split; [apply quiet_step, Ha | exact Hx].
Qed.

Lemma ct_bind_quiet {A B} (m : M A) (k : A -> M B) P R :
  emits_only quiet m ->
  (forall a, stoare fatal_step P (k a) R) ->
  (forall e x b, P x b -> R (Raise e) x b) -> (forall x b, P x b -> R Diverge x b) ->
  stoare fatal_step P (bind m k) R.
Proof.
  intros Hm Hk HR HD. apply st_bind with (Q := fun _ x b => P x b); auto.
  apply ct_quiet; auto.
Qed.

Lemma ct_publish_consistent ev P (Q : res unit -> bool -> batch_stats -> Prop) :
  (forall x b, P x b -> (x = true \/ counters_consistent ev = true) /\ Q (Ret tt) x b) ->
  stoare fatal_step P (publish_event ev) Q.
Proof.
  intros H. apply st_publish_event. intros x b Hx. destruct (H x b Hx) as [[->|C] Qx].
  - exists true. split; [reflexivity|]. split; [|exact Qx]. intros; reflexivity.
  - exists x. split; [destruct x; simpl; [reflexivity | rewrite C; reflexivity]|].
    split; [|exact Qx]. intros a Ha. apply quiet_step.
    destruct a as [| | | l | | | | | | | |]; try discriminate; try reflexivity.
    destruct l; try discriminate; reflexivity.
Qed.

Lemma ct_get_stats_bind {B} P (k : batch_stats -> M B) R :
  (forall b0, stoare fatal_step (fun x b => P x b /\ b = b0) (k b0) R) ->
  stoare fatal_step P (bind get_stats k) R.
Proof. intros Hk s x Hx. exact (Hk (stats s) s x (conj Hx eq_refl)). Qed.

Lemma ct_modify_bind {B} (P P' : bool -> batch_stats -> Prop) g (k : unit -> M B) R :
  (forall x b, P x b -> P' x (g b)) -> stoare fatal_step P' (k tt) R ->
  stoare fatal_step P (bind (modify_stats g) k) R.
Proof.
  intros HP Hk s x Hx.
  exact (Hk (mkSt (script s) (trace s) (g (stats s)) (job s) (clock s) (cur_doc s)) x
            (HP _ _ Hx)).
Qed.

Section Counters.

Variables (fuel : nat) (db : string -> option document) (task_id user_id job_type : string).

Ltac quiet_solve := solve [eo_batch].

Lemma ct_publish_progress total n name status :
  stoare fatal_step (fun x b => x = false /\ cons_n total n b)
    (publish_progress task_id user_id total name status)
    (fun _ x b => x = false /\ cons_n total n b).
Proof.
  unfold publish_progress. apply ct_get_stats_bind. intros b0.
  apply ct_bind_quiet; [quiet_solve | intros p | intros; tauto | intros; tauto].
  apply ct_publish_consistent. intros x b [[-> [C L]] ->].
  split; [|split; [reflexivity | split; assumption]].
  right. simpl. rewrite C, Nat.eqb_refl. simpl. apply Nat.leb_le. lia.
Qed.

Lemma ct_pause_loop total n k :
  stoare fatal_step (fun x b => x = false /\ cons_n total n b)
    (pause_loop task_id user_id total k)
    (fun _ x b => x = false /\ cons_n total n b).
Proof.
  induction k as [|k IH]; simpl.
  - apply ct_quiet; [apply eo_diverge | auto].
  - apply ct_bind_quiet; [quiet_solve | intros p | intros; tauto | intros; tauto].
    destruct p; [|apply st_ret; auto].
    apply ct_get_stats_bind. intros b0.
    apply st_bind with (Q := fun _ x b => x = false /\ cons_n total n b);
      [ | | intros; tauto | intros; tauto].
    + eapply st_conseq; [apply ct_publish_progress | intros x b [H _]; exact H | auto].
    + intros u. apply ct_bind_quiet; [quiet_solve | intros c | intros; tauto | intros; tauto].
      destruct c; [apply st_ret; auto | exact IH].
Qed.

Ltac ctq := apply ct_bind_quiet; [quiet_solve | intro | intros; simpl; tauto | intros; simpl; tauto].
Ltac ctq_as c := apply ct_bind_quiet; [quiet_solve | intros c | intros; simpl; tauto | intros; simpl; tauto].

Lemma ct_stage_block total n name doc_id f :
  stoare fatal_step (fun x b => x = false /\ cons_n total (S n) b)
    (stage_block fuel task_id job_type name doc_id f)
    (fun r x b => x = false /\ match r with Ret _ => cons_after total n b | _ => True end).
Proof.
  unfold stage_block.
  apply st_try_except with
    (Q := fun r x b => x = false /\ match r with
                                    | Ret _ => cons_after total n b
                                    | Raise _ => cons_n total (S n) b
                                    | Diverge => True end);
    [ | | auto | intros; simpl; tauto].
  - ctq. ctq.
    apply st_modify_stats. intros x b [-> [C L]]. split; [reflexivity|].
    unfold cons_after, incr_succeeded; simpl. lia.
  - intros e. destruct e.
    + apply ct_modify_bind with (P' := fun x b => x = false /\ cons_after total n b).
      { intros x b [-> [C L]]. split; [reflexivity|]. unfold cons_after, incr_skipped; simpl. lia. }
      ctq. apply ct_quiet; [eo_batch | intros [] ? ? ?; simpl; tauto].
    + apply ct_modify_bind with (P' := fun x b => x = false /\ cons_after total n b).
      { intros x b [-> [C L]]. split; [reflexivity|]. unfold cons_after, incr_failed; simpl. lia. }
      apply ct_modify_bind with (P' := fun x b => x = false /\ cons_after total n b).
      { intros x b [-> [C L]]. split; [reflexivity|]. unfold cons_after, add_error; simpl. lia. }
      apply ct_quiet; [eo_batch | intros [] ? ? ?; simpl; tauto].
    + apply ct_modify_bind with (P' := fun x b => x = false /\ cons_after total n b).
      { intros x b [-> [C L]]. split; [reflexivity|]. unfold cons_after, incr_failed; simpl. lia. }
      apply ct_modify_bind with (P' := fun x b => x = false /\ cons_after total n b).
      { intros x b [-> [C L]]. split; [reflexivity|]. unfold cons_after, add_error; simpl. lia. }
      apply ct_quiet; [eo_batch | intros [] ? ? ?; simpl; tauto].
Qed.

Lemma ct_process_one total n doc_id :
  stoare fatal_step (fun x b => x = false /\ cons_n total (S n) b)
    (process_one fuel db task_id user_id job_type total doc_id) (loop_post total n).
Proof.
  unfold process_one, loop_post. ctq_as c.
  destruct c.
  - apply ct_get_stats_bind. intros b0.
    apply st_bind with (Q := fun _ x b => x = false); [ | | intros; simpl; tauto | intros; simpl; tauto].
    + apply ct_publish_consistent. intros x b [[-> [C L]] ->]. split; [|reflexivity].
      right. simpl. rewrite C, Nat.eqb_refl. simpl. apply Nat.leb_le. lia.
    + intros u. ctq. ctq. apply st_ret. auto.
  - apply st_bind with (Q := fun _ x b => x = false /\ cons_n total (S n) b);
      [ apply ct_pause_loop | | intros; simpl; tauto | intros; simpl; tauto].
    intros u. ctq_as c2. destruct c2.
    + apply st_ret. intros x b [-> [C L]]. split; [reflexivity|]. split; [exact C | lia].
    + ctq. destruct (db doc_id) as [doc|].
      * cbv zeta. ctq.
        apply st_bind with (Q := fun _ x b => x = false /\ cons_n total (S n) b);
          [ apply ct_publish_progress | | intros; simpl; tauto | intros; simpl; tauto].
        intros u'. destruct (on_disk doc) as [f|].
        -- apply st_bind with (Q := fun r x b => x = false /\
                                      match r with Ret _ => cons_after total n b | _ => True end);
             [ apply ct_stage_block | | intros; simpl; tauto | intros; simpl; tauto].
           intros u''.
           apply ct_modify_bind with (P' := fun x b => x = false /\ cons_n total n b).
           { intros x b [-> [C L]]. split; [reflexivity|]. unfold cons_n, incr_processed; simpl. lia. }
           apply st_bind with (Q := fun _ x b => x = false /\ cons_n total n b);
             [ apply ct_publish_progress | | intros; simpl; tauto | intros; simpl; tauto].
           intros v. apply st_ret. auto.
        -- apply ct_modify_bind with (P' := fun x b => x = false /\ cons_after total n b).
           { intros x b [-> [C L]]. split; [reflexivity|]. unfold cons_after, incr_skipped; simpl. lia. }
           apply ct_modify_bind with (P' := fun x b => x = false /\ cons_n total n b).
           { intros x b [-> [C L]]. split; [reflexivity|]. unfold cons_n, incr_processed; simpl. lia. }
           apply ct_modify_bind with (P' := fun x b => x = false /\ cons_n total n b).
           { intros x b [-> [C L]]. split; [reflexivity|]. unfold cons_n, add_error; simpl. lia. }
           apply st_ret. auto.
      * apply ct_modify_bind with (P' := fun x b => x = false /\ cons_after total n b).
        { intros x b [-> [C L]]. split; [reflexivity|]. unfold cons_after, incr_skipped; simpl. lia. }
        apply ct_modify_bind with (P' := fun x b => x = false /\ cons_n total n b).
        { intros x b [-> [C L]]. split; [reflexivity|]. unfold cons_n, incr_processed; simpl. lia. }
        apply st_ret. auto.
Qed.

Lemma ct_batch_loop total ids :
  stoare fatal_step (fun x b => x = false /\ cons_n total (length ids) b)
    (batch_loop fuel db task_id user_id job_type total ids)
    (fun r x b => x = false /\ match r with Ret None => cons_n total 0 b | _ => True end).
Proof.
  induction ids as [|id rest IH]; simpl.
  - apply st_ret. auto.
  - apply st_bind with (Q := loop_post total (length rest));
      [ apply ct_process_one | | intros e x b [H _]; auto | intros x b [H _]; auto].
    intros c. destruct c.
    + eapply st_conseq; [exact IH | | auto]. intros x b [H1 H2]. auto.
    + apply st_ret. intros x b [H _]. auto.
Qed.

Lemma ct_batch_run ids :
  stoare fatal_step (fun x _ => x = false)
    (batch_run fuel db task_id user_id job_type ids) (fun _ _ _ => True).
Proof.
  unfold batch_run. ctq. cbv zeta.
  apply ct_modify_bind with
    (P' := fun x b => x = false /\ cons_n (length ids) (length ids) b).
  { intros x b ->. split; [reflexivity|]. unfold cons_n; simpl. lia. }
  apply st_bind with
    (Q := fun r x b => match r with Ret None => x = true \/ cons_n (length ids) 0 b
                                   | _ => True end);
    [ | | auto | auto].
  - apply st_try_finally with
      (Q := fun r x b => match r with Ret None => x = true \/ cons_n (length ids) 0 b
                                     | _ => True end); [ | | auto].
    + apply st_try_except with
        (Q := fun r x b => x = false /\ match r with Ret None => cons_n (length ids) 0 b
                                                    | _ => True end);
        [ | | | auto].
      * apply st_bind with
          (Q := fun _ x b => x = false /\ cons_n (length ids) (length ids) b);
          [ apply ct_publish_progress | | intros; simpl; tauto | intros; simpl; tauto].
        intros u. apply ct_batch_loop.
      * intros e. simpl.
        apply st_bind with (Q := fun _ x (_ : batch_stats) => x = true); [ | | auto | auto].
        -- apply st_emit. intros x b [-> _]. exists true. auto.
        -- intros u. apply ct_modify_bind with (P' := fun x _ => x = true); [auto|].
           apply st_ret. auto.
      * intros a0 x b [_ H]. destruct a0; auto.
    + intros r _. apply ct_quiet; [eo_batch|].
      intros [] x b H; simpl; auto.
  - intros r. destruct r as [res|]; [apply st_ret; auto|].
    apply ct_get_stats_bind. intros b0.
    apply st_bind with (Q := fun _ _ _ => True); [ | | auto | auto].
    + apply ct_publish_consistent. intros x b [H ->]. split; [|exact I].
      destruct H as [->|[C L]]; [left; reflexivity | right].
      simpl. rewrite C, Nat.eqb_refl. simpl. apply Nat.leb_le. lia.
    + intros u. apply st_ret. auto.
Qed.

Lemma ct_batch_reprocess_task ids :
  stoare fatal_step (fun x _ => x = false)
    (batch_reprocess_task fuel db task_id user_id job_type ids) (fun _ _ _ => True).
Proof.
  unfold batch_reprocess_task. apply ct_bind_quiet; [quiet_solve | intros existing | auto | auto].
  destruct existing as [e|]; [destruct (negb (String.eqb e task_id))|]; [ | apply ct_batch_run ..].
  apply st_bind with (Q := fun _ _ _ => True); [ | | auto | auto].
  - apply ct_publish_consistent. intros x b _. split; [right; reflexivity | exact I].
  - intros u. apply st_ret. auto.
Qed.

End Counters.

Lemma fatal_scan_prefix t1 t2 y :
  scan fatal_step false (t1 ++ t2) = Some y -> ~ In (ALog LogFatal) t1 ->
  batch_events_consistent t1 = true.
Proof.
  rewrite scan_app. destruct (scan fatal_step false t1) as [y1|] eqn:E; [|discriminate].
  intros _. clear t2 y. revert y1 E. induction t1 as [|a r IH]; intros y1 E Hn; [reflexivity|].
  simpl in E |- *.
  destruct a as [| ev | | l | | | | | | | |]; simpl in E |- *;
    try (apply (IH y1 E); intros H; apply Hn; right; exact H).
  - destruct (counters_consistent ev); [|discriminate]. simpl.
    apply (IH y1 E). intros H; apply Hn; right; exact H.
  - destruct l; simpl in E |- *;
      try (apply (IH y1 E); intros H; apply Hn; right; exact H).
    exfalso. apply Hn. left. reflexivity.
Qed.


(** In a batch run, every progress, cancel or completion event published
    before the fatal-error log line carries consistent counters:
    [processed = succeeded + failed + skipped] and [processed <= total]. *)
Theorem batch_events_consistent_before_fatal fuel db task_id user_id job_type ids s :
  exists t,
    trace (snd (batch_reprocess_task fuel db task_id user_id job_type ids s))
      = (trace s ++ t)%list
    /\ forall t1 t2, t = (t1 ++ t2)%list -> ~ In (ALog LogFatal) t1 ->
         batch_events_consistent t1 = true.
Proof.
  destruct (ct_batch_reprocess_task fuel db task_id user_id job_type ids s false eq_refl)
    as [t [y [E [Sc _]]]].
  exists t. split; [exact E|]. intros t1 t2 -> Hn. exact (fatal_scan_prefix t1 t2 y Sc Hn).
Qed.

Lemma appends_eo {A} al (m : M A) : emits_only al m -> appends m.
Proof. intros H s. destruct (H s) as [t [E _]]. eauto. Qed.

Lemma appends_sh {S A} step (P : S -> Prop) x0 (m : M A) Q :
  P x0 -> shoare step P m Q -> appends m.
Proof. intros Hx H s. destruct (H s x0 Hx) as [t [y [E _]]]. eauto. Qed.

Lemma scan_total {S} (step : S -> action -> option S) :
  (forall x a, exists y, step x a = Some y) -> forall t x, exists y, scan step x t = Some y.
Proof.
  intros H t. induction t as [|a t IH]; intros x; simpl; [eauto|].
  destruct (H x a) as [y ->]. apply IH.
Qed.

Lemma release_total task_id x a : exists y, release_step task_id x a = Some y.
Proof. destruct x; destruct a as [[]| | | | | | | | | | |]; simpl; eauto. Qed.

Section Release.

Variable task_id : string.

Lemma st_appends {A} (m : M A) P (Q : res A -> bool * bool -> batch_stats -> Prop) :
  appends m -> (forall r x b, Q r x b) -> stoare (release_step task_id) P m Q.
Proof.
  intros Hm HQ s x _. destruct (Hm s) as [t E].
  destruct (scan_total _ (release_total task_id) t x) as [y Y]. eauto.
Qed.

Lemma st_ext_call what P (Q : res unit -> bool * bool -> batch_stats -> Prop) :
  (forall x b, P x b -> exists y, release_step task_id x what = Some y /\ Q (Ret tt) y b) ->
  (forall e x b, P x b -> Q (Raise (Ext e)) x b) ->
  stoare (release_step task_id) P (ext_call what) Q.
Proof.
  intros H1 H2 s x Hx. unfold ext_call, bind, next.
  destruct (script s) as [|a r] eqn:Sc; simpl;
    [|destruct (fail_of a) eqn:F; simpl].
  - destruct (H1 x _ Hx) as [y [Y Q1]]. exists [what], y. simpl. rewrite Y. auto.
  - exists [], x. rewrite app_nil_r. auto.
  - destruct (H1 x _ Hx) as [y [Y Q1]]. exists [what], y. simpl. rewrite Y. auto.
Qed.

Lemma transport_keeps x a : is_transport a = true -> release_step task_id x a = Some x.
Proof. destruct x; destruct a as [[]| | | | | | | | | | |]; simpl; try discriminate; auto. Qed.

Lemma st_release_finally P :
  stoare (release_step task_id) P (cleanup_keys task_id ;; set_active_task None)
    (fun r y _ => r = Ret tt -> released y).
Proof.
  unfold cleanup_keys, redis_delete, set_active_task.
  apply st_bind with (Q := fun r y _ => r = Ret tt -> snd y = true).
  - apply st_ext_call.
    + intros [h c] b _. eexists. split; [reflexivity|].
      intros _. simpl. rewrite !String.eqb_refl. simpl. apply orb_true_r.
    + intros e x b _ H. discriminate.
  - intros []. apply st_ext_call.
    + intros [h c] b H. eexists. split; [reflexivity|].
      intros _. simpl in H. rewrite (H eq_refl). unfold released. simpl.
      reflexivity.
    + intros e x b _ H. discriminate.
  - intros e x b _ H. discriminate.
  - intros x b _ H. discriminate.
Qed.

Variables (fuel : nat) (db : string -> option document) (user_id job_type : string).

Lemma rel_batch_run ids :
  stoare (release_step task_id) (fun _ _ => True)
    (batch_run fuel db task_id user_id job_type ids)
    (fun r y _ => forall a, r = Ret a -> released y).
Proof.
  unfold batch_run.
  apply st_bind with (Q := fun _ _ _ => True);
    [ apply st_appends; [apply (appends_eo any_action); eo_batch | auto] | | intros; discriminate | intros; discriminate ].
  intros u. cbv zeta.
  apply st_bind with (Q := fun _ _ _ => True);
    [ apply st_modify_stats; auto | | intros; discriminate | intros; discriminate ].
  intros u'.
  apply st_bind with (Q := fun r y _ => forall a, r = Ret a -> released y).
  - apply st_try_finally with (Q := fun _ _ _ => True).
    + apply st_appends; [|auto].
      intros s. unfold try_except.
      destruct ((publish_progress task_id user_id (length ids) "" (SStarting (length ids)) ;;
                 batch_loop fuel db task_id user_id job_type (length ids) ids) s)
        as [r s'] eqn:E.
      assert (B : appends (publish_progress task_id user_id (length ids) "" (SStarting (length ids)) ;;
                 batch_loop fuel db task_id user_id job_type (length ids) ids)).
      { intros s0. unfold bind.
        destruct (appends_eo any_action
                    (publish_progress task_id user_id (length ids) "" (SStarting (length ids)))
                    ltac:(eo_batch) s0) as [t1 E1].
        destruct (publish_progress task_id user_id (length ids) "" (SStarting (length ids)) s0)
          as [[a|e|] s1] eqn:P1; simpl in *; eauto.
        destruct (appends_sh (skip_step task_id) (fun p => p = SkIdle) SkIdle
                    _ _ eq_refl (sk_batch_loop task_id fuel db user_id job_type (length ids) ids) s1)
          as [t2 E2].
        rewrite E2, E1, <- app_assoc. eauto. }
      destruct (B s) as [t1 E1]. rewrite E in E1. simpl in E1.
      destruct r as [a|e|]; simpl; [eauto| |eauto].
      unfold bind, emit, modify_stats, ret. simpl.
      exists (t1 ++ [ALog LogFatal])%list. rewrite E1, <- app_assoc. reflexivity.
    + intros r _. eapply st_conseq with (P := fun _ _ => True); [apply st_release_finally| |].
      * auto.
      * intros [[]|e0|] x b H; simpl; intros a0 E; [exact (H eq_refl) | discriminate | discriminate].
    + intros x b _ a E. discriminate.
  - intros r. destruct r as [res|].
    + apply st_ret. intros x b H a _. exact (H _ eq_refl).
    + apply st_bind with (Q := fun r y _ => released y).
      * apply st_get_stats. intros x b H. exact (H _ eq_refl).
      * intros s0. apply st_bind with (Q := fun r y _ => released y); [| | auto | auto].
        -- apply st_publish_event. intros x b H. exists x.
           split; [destruct x; reflexivity|]. split; [|exact H].
           intros a0 T. apply transport_keeps, T.
        -- intros u2. apply st_ret. intros x b H a _. exact H.
      * intros e x b H a E. discriminate.
      * intros x b H a E. discriminate.
  - intros e x b H a E. discriminate.
  - intros x b H a E. discriminate.
Qed.

End Release.

(** A run of [batch_reprocess_task] that returns normally, other than the
    [Blocked] refusal, ends with the active-run marker deleted and the task's
    pause, cancel and skip keys deleted: the last Redis write to the marker key
    in the run is a delete, and no control key is set after their deletion. *)
Theorem batch_releases_marker fuel db task_id user_id job_type ids s x0 :
  exists t y,
    trace (snd (batch_reprocess_task fuel db task_id user_id job_type ids s)) = (trace s ++ t)%list
    /\ scan (release_step task_id) x0 t = Some y
    /\ (forall r, fst (batch_reprocess_task fuel db task_id user_id job_type ids s) = Ret r ->
          r <> Blocked -> y = (false, true)).
Proof.
  assert (H : stoare (release_step task_id) (fun _ _ => True)
                (batch_reprocess_task fuel db task_id user_id job_type ids)
                (fun r y _ => forall a, r = Ret a -> a <> Blocked -> released y)).
  { unfold batch_reprocess_task.
    apply st_bind with (Q := fun _ _ _ => True);
      [ apply st_appends; [apply (appends_eo any_action); eo_batch | auto] | | intros; discriminate | intros; discriminate ].
    intros existing.
    assert (Hr := rel_batch_run task_id fuel db user_id job_type ids).
    destruct existing as [e|]; [destruct (negb (String.eqb e task_id))|];
      try (eapply st_conseq; [exact Hr | auto | intros r x b Hq a E _; exact (Hq a E)]).
    apply st_bind with (Q := fun _ _ _ => True);
      [ apply st_appends; [apply (appends_eo any_action); eo_batch | auto] | | intros; discriminate | intros; discriminate ].
    intros u. apply st_ret. intros x b _ a E N. injection E as <-. contradiction. }
  destruct (H s x0 I) as [t [y [E [Y Q]]]].
  exists t, y. split; [exact E|]. split; [exact Y|].
  intros r Er N. exact (Q r Er N).
Qed.

Section Accounting.

Variables (fuel : nat) (db : string -> option document) (task_id user_id job_type : string).

Lemma acc_eo {A} (m : M A) P (Q : res A -> unit -> batch_stats -> Prop) :
  emits_only any_action m -> (forall r x b, P x b -> Q r x b) -> stoare ustep P m Q.
Proof.
  intros Hm HQ. apply (st_eo ustep any_action); [exact Hm | | exact HQ].
  intros [] a b H _. exists tt. auto.
Qed.

Lemma acc_bind_eo {A B} (m : M A) (k : A -> M B) P (G : res B -> batch_stats -> Prop) :
  emits_only any_action m ->
  (forall e b, P tt b -> G (Raise e) b) -> (forall b, P tt b -> G Diverge b) ->
  (forall a, stoare ustep P (k a) (fun r _ b => G r b)) ->
  stoare ustep P (bind m k) (fun r _ b => G r b).
Proof.
  intros Hm HR HD Hk. apply st_bind with (Q := fun _ x b => P x b).
  - apply acc_eo; auto.
  - exact Hk.
  - intros e [] b H. auto.
  - intros [] b H. auto.
Qed.

Lemma acc_modify_bind {B} g (k : unit -> M B) (P P' : unit -> batch_stats -> Prop) R :
  (forall x b, P x b -> P' x (g b)) -> stoare ustep P' (k tt) R ->
  stoare ustep P (bind (modify_stats g) k) R.
Proof.
  intros HP Hk s x Hx. unfold bind, modify_stats. simpl.
  exact (Hk (mkSt (script s) (trace s) (g (stats s)) (job s) (clock s) (cur_doc s)) x (HP _ _ Hx)).
Qed.

Lemma acc_stage_block b0 name doc_id f :
  stoare ustep (fun _ b => counts b = counts b0) (stage_block fuel task_id job_type name doc_id f)
    (fun r _ b => match r with
                  | Ret _ => exists o, counts b = counts (tally o b0)
                  | _ => True end).
Proof.
  unfold stage_block.
  apply st_try_except with
    (Q := fun r _ b => match r with
                       | Ret _ => exists o, counts b = counts (tally o b0)
                       | Raise _ => counts b = counts b0
                       | Diverge => True end); [ | | auto | auto ].
  - apply acc_bind_eo; [eo_batch | intros; assumption | intros; exact I | intros u].
    apply acc_bind_eo; [eo_batch | intros; assumption | intros; exact I | intros u'].
    apply st_modify_stats. intros x b H. exists OSucceeded.
    unfold counts, tally, incr_succeeded in *. simpl. injection H as -> -> -> ->. reflexivity.
  - intros e.
    assert (Hf : forall name0 e0,
      stoare ustep (fun _ b => counts b = counts b0)
        (modify_stats incr_failed ;; modify_stats (add_error name0 (ErrExn e0)) ;;
         emit (ALog (LogReprocessError doc_id)))
        (fun r _ b => match r with
                      | Ret _ => exists o, counts b = counts (tally o b0)
                      | _ => True end)).
    { intros name0 e0.
      apply acc_modify_bind with (P' := fun _ b => counts b = counts (tally OFailed b0)).
      { intros x b H. unfold counts, tally, incr_failed in *. simpl in *.
        injection H as -> -> -> ->. reflexivity. }
      apply acc_modify_bind with (P' := fun _ b => counts b = counts (tally OFailed b0)).
      { intros x b H. exact H. }
      apply acc_eo; [eo_batch | intros r x b H; destruct r; eauto]. }
    destruct e; [ | apply Hf | apply Hf ].
    apply acc_modify_bind with (P' := fun _ b => counts b = counts (tally OSkipped b0)).
    { intros x b H. unfold counts, tally, incr_skipped in *. simpl in *.
      injection H as -> -> -> ->. reflexivity. }
    apply acc_eo; [eo_batch | intros r x b H; destruct r; eauto].
Qed.

Lemma counts_processed b b' : counts b = counts b' -> counts (incr_processed b) = counts (incr_processed b').
Proof. unfold counts, incr_processed. simpl. intros H. injection H as -> -> -> ->. reflexivity. Qed.

Lemma acc_process_one b0 total doc_id :
  stoare ustep (fun _ b => b = b0) (process_one fuel db task_id user_id job_type total doc_id)
    (fun r _ b => acc_post db b0 doc_id r b).
Proof.
  unfold process_one.
  apply acc_bind_eo; [eo_batch | intros e b _ H; discriminate | intros b _ H; discriminate | intros c].
  destruct c.
  - apply st_bind with (Q := fun r _ b => exists b1, r = Ret b1).
    + apply st_get_stats. eauto.
    + intros b1.
      apply acc_bind_eo; [eo_batch | intros e b _ H; discriminate | intros b _ H; discriminate | intros u].
      apply acc_bind_eo; [eo_batch | intros e b _ H; discriminate | intros b _ H; discriminate | intros u'].
      apply acc_bind_eo; [eo_batch | intros e b _ H; discriminate | intros b _ H; discriminate | intros u''].
      apply st_ret. intros x b _ H. discriminate.
    + intros e x b [b1 H]. discriminate.
    + intros x b [b1 H]. discriminate.
  - apply acc_bind_eo; [eo_batch | intros e b _ H; discriminate | intros b _ H; discriminate | intros u].
    apply acc_bind_eo; [eo_batch | intros e b _ H; discriminate | intros b _ H; discriminate | intros c2].
    destruct c2.
    + apply st_ret. intros x b -> _. left. reflexivity.
    + apply acc_bind_eo; [eo_batch | intros e b _ H; discriminate | intros b _ H; discriminate | intros u'].
      unfold acc_post. destruct (db doc_id) as [doc|] eqn:D.
      * cbv zeta.
        apply acc_bind_eo; [eo_batch | intros e b _ H; discriminate | intros b _ H; discriminate | intros u2].
        apply acc_bind_eo; [eo_batch | intros e b _ H; discriminate | intros b _ H; discriminate | intros u3].
        destruct (on_disk doc) as [f|] eqn:F.
        -- apply st_bind with
             (Q := fun r _ b => match r with
                                | Ret _ => exists o, counts b = counts (tally o b0)
                                | _ => True end);
             [ eapply st_conseq; [apply acc_stage_block | intros x b ->; reflexivity | auto]
             | | intros e x b _ H; discriminate | intros x b _ H; discriminate ].
           intros u4.
           apply acc_modify_bind with
             (P' := fun _ b => exists o, counts b = counts (incr_processed (tally o b0))).
           { intros x b [o H]. exists o. apply counts_processed, H. }
           apply acc_bind_eo; [eo_batch | intros e b _ H; discriminate | intros b _ H; discriminate | intros u5].
           apply st_ret. intros x b [o H] _. right. exists o. split; [exact H | discriminate].
        -- apply acc_modify_bind with
             (P' := fun _ b => counts (incr_processed b) = counts (incr_processed (tally OSkipped b0)) /\
                               errors b = errors (incr_skipped b0)).
           { intros x b ->. split; reflexivity. }
           apply acc_modify_bind with
             (P' := fun _ b => counts b = counts (incr_processed (tally OSkipped b0))).
           { intros x b [H _]. exact H. }
           apply acc_modify_bind with
             (P' := fun _ b => counts b = counts (incr_processed (tally OSkipped b0))).
           { intros x b H. unfold counts, add_error in *. simpl in *. exact H. }
           apply st_ret. intros x b H _. right. exists OSkipped. auto.
      * apply acc_modify_bind with
          (P' := fun _ b => b = incr_skipped b0).
        { intros x b ->. reflexivity. }
        apply acc_modify_bind with
          (P' := fun _ b => b = incr_processed (incr_skipped b0)).
        { intros x b ->. reflexivity. }
        apply st_ret. intros x b -> _. right. exists OSkipped. auto.
Qed.

End Accounting.

(** Per-document accounting of the batch loop: an iteration that moves on to
    the next document either leaves the counters unchanged (cancel seen after
    the pause check) or adds one to [processed] and one to exactly one of
    [succeeded], [failed] and [skipped]; a document that is not in the
    database, or whose file is not on disk, is counted as skipped, never as
    failed. *)
Theorem process_one_counts fuel db task_id user_id job_type total doc_id s :
  fst (process_one fuel db task_id user_id job_type total doc_id s) = Ret Continue ->
  counts (stats (snd (process_one fuel db task_id user_id job_type total doc_id s))) = counts (stats s) \/
  exists o,
    counts (stats (snd (process_one fuel db task_id user_id job_type total doc_id s)))
      = counts (incr_processed (tally o (stats s)))
    /\ (match db doc_id with None => True | Some d => on_disk d = None end -> o = OSkipped).
Proof.
  intros H.
  destruct (acc_process_one fuel db task_id user_id job_type (stats s) total doc_id s tt eq_refl)
    as [t [y [_ [_ Q]]]].
  exact (Q H).
Qed.

Lemma process_one_counts_witness :
  fst (process_one 3 (db_of doc_bill) "t1" "u1" "ocr" 1 "d9" (st_init [] (Some job_new))) = Ret Continue
  /\ (counts (stats (snd (process_one 3 (db_of doc_bill) "t1" "u1" "ocr" 1 "d9" (st_init [] (Some job_new)))))
        = counts (stats (st_init [] (Some job_new)))
      \/ exists o,
        counts (stats (snd (process_one 3 (db_of doc_bill) "t1" "u1" "ocr" 1 "d9" (st_init [] (Some job_new)))))
          = counts (incr_processed (tally o (stats (st_init [] (Some job_new)))))
        /\ (match db_of doc_bill "d9" with None => True | Some d => on_disk d = None end -> o = OSkipped)).
Proof.
  assert (H : fst (process_one 3 (db_of doc_bill) "t1" "u1" "ocr" 1 "d9" (st_init [] (Some job_new))) = Ret Continue)
    by reflexivity.
  split; [exact H | exact (process_one_counts 3 (db_of doc_bill) "t1" "u1" "ocr" 1 "d9" _ H)].
Defined.

Lemma split_no_char c a : no_char c a = true -> py_split_char c a = [a].
Proof.
  induction a as [|d a IH]; simpl; [reflexivity|].
  intros H. apply andb_prop in H as [H1 H2].
  destruct (Ascii.eqb d c); [discriminate|]. rewrite (IH H2). reflexivity.
Qed.

Lemma split_app c a b : no_char c a = true ->
  py_split_char c (a ++ String c b) = a :: py_split_char c b.
Proof.
  induction a as [|d a IH]; simpl; intros H.
  - rewrite Ascii.eqb_refl. reflexivity.
  - apply andb_prop in H as [H1 H2].
    destruct (Ascii.eqb d c); [discriminate|]. rewrite (IH H2). reflexivity.
Qed.

Lemma string_app_assoc (a b c : string) : (a ++ b) ++ c = a ++ b ++ c.
Proof. induction a as [|d a IH]; simpl; [reflexivity|]. rewrite IH. reflexivity. Qed.

Lemma split_join c body rest :
  body <> [] -> Forall (fun l => no_char c l = true) body ->
  py_split_char c (py_join (String c "") body ++ String c rest) = (body ++ py_split_char c rest)%list.
Proof.
  induction body as [|x body IH]; intros Hne Hf; [congruence|].
  inversion Hf as [|? ? Hx Hr]; subst.
  destruct body as [|y body].
  - simpl py_join. rewrite split_app by exact Hx. reflexivity.
  - change (py_join (String c "") (x :: y :: body))
      with (x ++ String c "" ++ py_join (String c "") (y :: body)).
    rewrite string_app_assoc, (string_app_assoc (String c "")). cbn [String.append].
    rewrite split_app by exact Hx.
    rewrite IH by (discriminate || exact Hr). reflexivity.
Qed.

Lemma list_ascii_app (a b : string) :
  list_ascii_of_string (a ++ b) = (list_ascii_of_string a ++ list_ascii_of_string b)%list.
Proof. induction a as [|c a IH]; simpl; [reflexivity|]. rewrite IH. reflexivity. Qed.

Lemma rev_string_involutive s : rev_string (rev_string s) = s.
Proof.
  unfold rev_string. rewrite list_ascii_of_string_of_list_ascii, rev_involutive.
  apply string_of_list_ascii_of_string.
Qed.

Lemma rev_string_snoc q d : rev_string (q ++ String d "") = String d (rev_string q).
Proof. unfold rev_string. rewrite list_ascii_app. simpl. rewrite rev_app_distr. reflexivity. Qed.

Lemma py_strip_ends c p d :
  py_is_space c = false -> py_is_space d = false ->
  py_strip (String c (p ++ String d "")) = String c (p ++ String d "").
Proof.
  intros Hc Hd. unfold py_strip.
  change (lstrip (String c (p ++ String d ""))) with
    (if py_is_space c then lstrip (p ++ String d "") else String c (p ++ String d "")).
  rewrite Hc.
  change (String c (p ++ String d "")) with (String c p ++ String d "").
  rewrite rev_string_snoc. simpl lstrip. rewrite Hd.
  rewrite <- rev_string_snoc. apply rev_string_involutive.
Qed.

Lemma string_snoc_cases r : r = "" \/ exists p d, r = p ++ String d "".
Proof.
  induction r as [|e r IH]; [left; reflexivity|right].
  destruct IH as [->|[p [d ->]]].
  - exists "", e. reflexivity.
  - exists (String e p), d. reflexivity.
Qed.

Lemma py_strip_nospace s : no_space s = true -> py_strip s = s.
Proof.
  destruct s as [|c r]; [reflexivity|].
  destruct (string_snoc_cases r) as [->|[p [d ->]]]; unfold no_space; simpl.
  - intros H. rewrite andb_true_r in H. apply negb_true_iff in H.
    unfold py_strip. simpl. rewrite H. unfold rev_string. simpl. rewrite H. reflexivity.
  - rewrite list_ascii_app, forallb_app. simpl. intros H.
    apply andb_prop in H as [Hc H]. apply andb_prop in H as [_ Hd].
    rewrite andb_true_r in Hd. apply negb_true_iff in Hc, Hd.
    apply py_strip_ends; assumption.
Qed.

Lemma is_prefix_app p x : is_prefix p (p ++ x) = true.
Proof. induction p as [|c p IH]; simpl; [reflexivity|]. rewrite Ascii.eqb_refl, IH. reflexivity. Qed.

Lemma no_char_app c a b : no_char c (a ++ b) = no_char c a && no_char c b.
Proof. unfold no_char. rewrite list_ascii_app, forallb_app. reflexivity. Qed.

Lemma no_space_no_nl s : no_space s = true -> no_char nl_char s = true.
Proof.
  unfold no_space, no_char. intros H. apply forallb_forall. intros d Hd.
  pose proof (proj1 (forallb_forall _ _) H d Hd) as Hs. simpl in Hs.
  destruct (Ascii.eqb d nl_char) eqn:E; [|reflexivity].
  apply Ascii.eqb_eq in E. subst. discriminate.
Qed.

(** [_parse_response] undoes the markdown code fence a model may wrap its
    JSON in: for a fence line with a language tag (no whitespace in it), a
    body whose lines contain no newline and do not themselves start with a
    fence after stripping, and a closing fence, the text passed to
    [json.loads] is exactly the body joined by newlines. *)
Theorem clean_response_unfences tag body :
  no_space tag = true ->
  forallb (fun l => no_char nl_char l && negb (is_prefix fence (py_strip l))) body = true ->
  _clean_response (fence ++ tag ++ nl ++ py_join nl body ++ nl ++ fence) = py_join nl body.
Proof.
  intros Ht Hb'.
  assert (Hb : Forall (fun l => no_char nl_char l = true /\ is_prefix fence (py_strip l) = false) body).
  { apply Forall_forall. intros l Hl.
    pose proof (proj1 (forallb_forall _ _) Hb' l Hl) as H. simpl in H.
    apply andb_prop in H as [H1 H2]. apply negb_true_iff in H2. auto. }
  clear Hb'.
  assert (Raw : fence ++ tag ++ nl ++ py_join nl body ++ nl ++ fence
                = String "`" (("``" ++ tag ++ nl ++ py_join nl body ++ nl ++ "``") ++ String "`" "")).
  { rewrite !string_app_assoc. reflexivity. }
  unfold _clean_response. rewrite Raw, py_strip_ends by reflexivity. rewrite <- Raw.
  rewrite is_prefix_app.
  assert (Hf : no_char nl_char (fence ++ tag) = true).
  { rewrite no_char_app. rewrite (no_space_no_nl tag Ht). reflexivity. }
  change (fence ++ tag ++ nl ++ py_join nl body ++ nl ++ fence)
    with (fence ++ tag ++ String nl_char (py_join nl body ++ String nl_char fence)).
  rewrite <- string_app_assoc, split_app by exact Hf.
  assert (Hfl : is_prefix fence (py_strip (fence ++ tag)) = true).
  { rewrite py_strip_nospace; [apply is_prefix_app|].
    unfold no_space. rewrite list_ascii_app, forallb_app. exact Ht. }
  destruct body as [|x body'].
  - cbn [filter]. rewrite Hfl. reflexivity.
  - change nl with (String nl_char "").
    rewrite split_join.
    + cbn [filter]. rewrite Hfl. cbn [negb].
      assert (Keep : forall l, Forall (fun l => no_char nl_char l = true /\ is_prefix fence (py_strip l) = false) l ->
                filter (fun line => negb (is_prefix fence (py_strip line)))
                  (l ++ py_split_char nl_char fence)%list = l).
      { induction l as [|y l IH]; intros Hl.
        - reflexivity.
        - inversion Hl as [|? ? [_ Hy] Hr]; subst. cbn [app filter]. rewrite Hy. cbn [negb]. rewrite IH by exact Hr. reflexivity. }
      rewrite Keep by exact Hb. reflexivity.
    + discriminate.
    + eapply Forall_impl; [|exact Hb]. intros l [H _]. exact H.
Qed.

Lemma py_lower_app a b : py_lower (a ++ b) = py_lower a ++ py_lower b.
Proof. induction a as [|c a IH]; simpl; [reflexivity|]. rewrite IH. reflexivity. Qed.

(** A provider is called only if it is in the provider table, and a provider
    other than Ollama only with a non-empty API key; the name is matched
    after lower-casing; a missing, empty or ["none"] (any case) provider
    disables the analysis; and the key check comes before the table lookup,
    so an unknown provider without a key is reported as a missing key. *)
Theorem select_provider_guards providers config :
  (forall p, _select_provider providers config = inr p ->
     In p providers /\ p = py_lower (py_or (config "ai_provider") "none")
     /\ (p = "ollama" \/ truthy (config "ai_api_key") = true))
  /\ (py_lower (py_or (config "ai_provider") "none") = "none" ->
      _select_provider providers config = inl ProviderDisabled)
  /\ (forall p, py_lower (py_or (config "ai_provider") "none") = p ->
      p <> "none" -> p <> "ollama" -> truthy (config "ai_api_key") = false ->
      _select_provider providers config = inl (MissingApiKey p)).
Proof.
  unfold _select_provider.
  split; [|split].
  - intros p.
    destruct (String.eqb _ "none" || String.eqb _ "") eqn:N; [discriminate|].
    destruct (negb (String.eqb (py_lower (py_or (config "ai_provider") "none")) "ollama")
              && negb (truthy (config "ai_api_key"))) eqn:K; [discriminate|].
    destruct (str_in _ providers) eqn:I; [|discriminate].
    intros E. injection E as <-.
    split; [|split; [reflexivity|]].
    + unfold str_in in I. apply existsb_exists in I as [q [Hq E]].
      apply String.eqb_eq in E. subst q. exact Hq.
    + apply andb_false_iff in K as [K|K].
      * left. apply negb_false_iff, String.eqb_eq in K. exact K.
      * right. apply negb_false_iff in K. exact K.
  - intros ->. reflexivity.
  - intros p E0 N O K.
    assert (P : String.eqb p "" = false).
    { rewrite <- E0. unfold py_or.
      destruct (config "ai_provider") as [v|]; [|reflexivity].
      destruct (String.eqb v "") eqn:V; [reflexivity|].
      destruct v; [discriminate|reflexivity]. }
    rewrite E0, (proj2 (String.eqb_neq _ _) N), P, K, (proj2 (String.eqb_neq _ _) O).
    reflexivity.
Qed.

Lemma rstrip_slash_snoc b : rstrip_slash (b ++ "/") = rstrip_slash b.
Proof.
  induction b as [|c b IH]; [reflexivity|].
  simpl. rewrite IH. reflexivity.
Qed.

(** For a non-empty configured base URL, a trailing slash makes no
    difference to the Ollama endpoint, which is the base URL without its
    trailing slashes followed by [/v1]. *)
Theorem ollama_base_url_slash config config' b :
  config "ai_base_url" = Some b -> config' "ai_base_url" = Some (b ++ "/") ->
  String.eqb b "" = false ->
  _ollama_base_url config' = _ollama_base_url config
  /\ _ollama_base_url config = rstrip_slash b ++ "/v1".
Proof.
  intros C C' B. unfold _ollama_base_url, py_or. rewrite C, C', B.
  destruct (String.eqb (b ++ "/") "") eqn:B'.
  - apply String.eqb_eq in B'. destruct b; discriminate.
  - rewrite rstrip_slash_snoc. cbv zeta. rewrite ?B, ?B'. split; reflexivity.
Qed.

Lemma valid_type_fixed v :
  str_in v _VALID_DOCUMENT_TYPES = true -> _normalize_document_type (Some v) = (v, false).
Proof.
  intros H. unfold str_in in H. apply existsb_exists in H as [q [Hq E]].
  apply String.eqb_eq in E. subst q.
  repeat (destruct Hq as [<-|Hq]; [vm_compute; reflexivity|]). destruct Hq.
Qed.

(** [_normalize_document_type] is idempotent: the type it returns, fed back
    in, comes out unchanged and without the unknown-type warning. *)
Theorem normalize_document_type_idempotent raw :
  _normalize_document_type (Some (fst (_normalize_document_type raw)))
  = (fst (_normalize_document_type raw), false).
Proof. apply valid_type_fixed, normalize_valid. Qed.

(** A non-empty raw type made of whitespace only is not treated like a
    missing one: it strips to the empty string, which the substring fallback
    finds inside the first alias, so the type becomes insurance, with no
    warning. *)
Theorem normalize_whitespace_is_insurance r :
  String.eqb r "" = false -> py_strip r = "" ->
  _normalize_document_type (Some r) = ("insurance", false).
Proof. intros E S. unfold _normalize_document_type. rewrite E, S. reflexivity. Qed.

Lemma ext_call_ret_trace a s u s' :
  ext_call a s = (Ret u, s') -> trace s' = (trace s ++ [a])%list.
Proof.
  unfold ext_call, bind, next, emit, raise.
  destruct (script s) as [|x r]; simpl; [|destruct (fail_of x); simpl].
  - intros E. injection E as _ <-. reflexivity.
  - discriminate.
  - intros E. injection E as _ <-. reflexivity.
Qed.

Lemma substring_length_le n m s : String.length (substring n m s) <= m.
Proof.
  revert n m. induction s as [|c s IH]; intros n m; simpl.
  - destruct n, m; simpl; lia.
  - destruct n as [|n].
    + destruct m as [|m]; simpl; [lia|]. specialize (IH 0 m). lia.
    + apply IH.
Qed.

(** The tag loop of the classification stage writes, in order, one tag per
    suggested tag whose stripped, lower-cased name (cut to 100 characters) is
    non-empty: blank tags are skipped, and every name written is non-empty
    and at most 100 characters long. *)
Theorem tag_loop_writes tags s s' :
  tag_loop tags s = (Ret tt, s') ->
  trace s' = (trace s ++ map (fun n => ADbWrite ("tag " ++ n)) (tag_names tags))%list
  /\ Forall (fun n => n <> "" /\ String.length n <= 100) (tag_names tags).
Proof.
  split.
  - revert s H. induction tags as [|t tags IH]; intros s E.
    + simpl in E. injection E as <-. rewrite app_nil_r. reflexivity.
    + simpl in E. unfold bind in E. fold (tag_name t) in E.
      unfold tag_names. simpl map. cbn [filter]. fold (tag_names tags).
      destruct (String.eqb (tag_name t) "") eqn:N; simpl negb; cbv iota.
      * unfold ret in E. apply IH, E.
      * change (String "t" (String "a" (String "g" (String " " (tag_name t)))))
          with ("tag " ++ tag_name t) in E.
        destruct (ext_call (ADbWrite ("tag " ++ tag_name t)) s) as [[u|e|] s1] eqn:X;
          try discriminate.
        rewrite (IH s1 E), (ext_call_ret_trace _ _ _ _ X), <- app_assoc. reflexivity.
  - clear H. unfold tag_names. induction tags as [|t tags IH]; simpl; [constructor|].
    destruct (String.eqb (tag_name t) "") eqn:N; simpl; [exact IH|].
    constructor; [|exact IH]. split.
    + intros E. rewrite E in N. discriminate.
    + apply substring_length_le.
Qed.

Lemma clean_response_unfences_witness :
  _clean_response (fence ++ "json" ++ nl ++ py_join nl ["{"; "  x: 1"; "}"] ++ nl ++ fence)
  = py_join nl ["{"; "  x: 1"; "}"].
Proof. apply clean_response_unfences; vm_compute; reflexivity. Defined.

Lemma ollama_base_url_slash_witness :
  _ollama_base_url (fun k => if String.eqb k "ai_base_url" then Some "http://gpu:11434/" else None)
  = _ollama_base_url (fun k => if String.eqb k "ai_base_url" then Some "http://gpu:11434" else None).
Proof.
  destruct (ollama_base_url_slash
              (fun k => if String.eqb k "ai_base_url" then Some "http://gpu:11434" else None)
              (fun k => if String.eqb k "ai_base_url" then Some "http://gpu:11434/" else None)
              "http://gpu:11434" ltac:(reflexivity) ltac:(reflexivity) ltac:(reflexivity))
    as [H _].
  exact H.
Defined.

Lemma normalize_whitespace_is_insurance_witness :
  _normalize_document_type (Some "   ") = ("insurance", false).
Proof. apply normalize_whitespace_is_insurance; reflexivity. Defined.

Lemma tag_loop_writes_witness :
  trace (snd (tag_loop ["  Utility "; "   "; "Bank"] (st_init [] None)))
  = [ADbWrite "tag utility"; ADbWrite "tag bank"].
Proof.
  destruct (tag_loop_writes ["  Utility "; "   "; "Bank"] (st_init [] None)
              (snd (tag_loop ["  Utility "; "   "; "Bank"] (st_init [] None)))
              ltac:(reflexivity)) as [H _].
  rewrite H. vm_compute. reflexivity.
Defined.


(** The skip discipline that does hold. For every run of the batch
    controller, the actions it appends pass [skip_scan]: after the poll
    loop logs a skip, the next action is either the removal of the
    temporary file, after which only the fatal log can come before a
    successful delete of the skip key (no action of a later document comes
    first), or, when that removal failed, the document's error log. And a
    document whose guarded stage run logs the skip is counted skipped
    (skipped one more, the other counters and the errors unchanged) when
    the skip log is followed by the removal of the temporary file, and
    counted failed with the removal's error when it is followed by the
    error log. *)
Theorem skip_recorded_unless_cleanup_fails fuel db task_id user_id job_type ids s :
  (exists t p,
      trace (snd (batch_reprocess_task fuel db task_id user_id job_type ids s))
        = (trace s ++ t)%list
      /\ skip_scan task_id SkIdle t = Some p)
  /\ (forall name doc_id f s0 t x,
        trace (snd (stage_block fuel task_id job_type name doc_id f s0))
          = (trace s0 ++ t)%list ->
        In (ALog (LogOcrSkipped x)) t ->
        (stats (snd (stage_block fuel task_id job_type name doc_id f s0))
           = incr_skipped (stats s0)
         /\ exists u v,
              t = (u ++ ALog (LogOcrSkipped x) :: AExternal "unlink tmp_path" :: v)%list)
        \/ (exists e,
              stats (snd (stage_block fuel task_id job_type name doc_id f s0))
                = add_error name (ErrExn (Ext e)) (incr_failed (stats s0))
              /\ exists u v,
                   t = (u ++ ALog (LogOcrSkipped x) :: ALog (LogReprocessError doc_id) :: v)%list)).
Proof.
  split.
  - destruct (sk_batch_reprocess_task task_id fuel db user_id job_type ids s SkIdle eq_refl)
      as [t [p [E [Sc _]]]].
    exists t, p. split; [exact E | exact Sc].
  - intros name doc_id f s0 t x. apply stage_block_skip_outcome.
Qed.

Lemma skip_recorded_unless_cleanup_fails_witness :
  let s0 := mkSt [ADefault; ADefault; ADefault; ARunning; AStr "1"] [] stats0 None 0
              doc_scanned in
  let t := [ARedis (RDel [SKIP_KEY_PREFIX ++ "t1"]); AFastRead "d1"; AExternal "tempfile.NamedTemporaryFile";
            ASpawnOcr "d1"; ARedis (RGet (SKIP_KEY_PREFIX ++ "t1")); AKillOcr;
            ALog (LogOcrSkipped "d1"); AExternal "unlink tmp_path"; ARedis (RDel [SKIP_KEY_PREFIX ++ "t1"]);
            ALog (LogSkippedDocument "d1")] in
  let s1 := mkSt [ADefault; ADefault; ADefault; ARunning; AStr "1"; AFail OSError] []
              stats0 None 0 doc_scanned in
  let t' := [ARedis (RDel [SKIP_KEY_PREFIX ++ "t1"]); AFastRead "d1"; AExternal "tempfile.NamedTemporaryFile";
             ASpawnOcr "d1"; ARedis (RGet (SKIP_KEY_PREFIX ++ "t1")); AKillOcr;
             ALog (LogOcrSkipped "d1"); ALog (LogReprocessError "d1")] in
  (trace (snd (stage_block 3 "t1" "ocr" "scan.pdf" "d1" scanned_pdf s0)) = (trace s0 ++ t)%list
   /\ In (ALog (LogOcrSkipped "d1")) t
   /\ stats (snd (stage_block 3 "t1" "ocr" "scan.pdf" "d1" scanned_pdf s0))
      = incr_skipped (stats s0))
  /\ (trace (snd (stage_block 3 "t1" "ocr" "scan.pdf" "d1" scanned_pdf s1))
        = (trace s1 ++ t')%list
      /\ In (ALog (LogOcrSkipped "d1")) t'
      /\ exists e, stats (snd (stage_block 3 "t1" "ocr" "scan.pdf" "d1" scanned_pdf s1))
                   = add_error "scan.pdf" (ErrExn (Ext e)) (incr_failed (stats s1))).
Proof.
  intros s0 t s1 t'.
  assert (E : trace (snd (stage_block 3 "t1" "ocr" "scan.pdf" "d1" scanned_pdf s0))
              = (trace s0 ++ t)%list) by (vm_compute; reflexivity).
  assert (Hin : In (ALog (LogOcrSkipped "d1")) t) by (simpl; tauto).
  assert (E' : trace (snd (stage_block 3 "t1" "ocr" "scan.pdf" "d1" scanned_pdf s1))
               = (trace s1 ++ t')%list) by (vm_compute; reflexivity).
  assert (Hin' : In (ALog (LogOcrSkipped "d1")) t') by (simpl; tauto).
  split; (split; [assumption|]); (split; [assumption|]).
  - destruct (proj2 (skip_recorded_unless_cleanup_fails 3 (db_of doc_scanned) "t1" "u1" "ocr"
                       ["d1"] s0) "scan.pdf" "d1" scanned_pdf s0 t "d1" E Hin)
      as [[S _]|[e [S _]]].
    + exact S.
    + exfalso. revert S. vm_compute. discriminate.
  - destruct (proj2 (skip_recorded_unless_cleanup_fails 3 (db_of doc_scanned) "t1" "u1" "ocr"
                       ["d1"] s1) "scan.pdf" "d1" scanned_pdf s1 t' "d1" E' Hin')
      as [[S _]|[e [S _]]].
    + exfalso. revert S. vm_compute. discriminate.
    + exists e. exact S.
Defined.
